(** * Site availability monitor (site_monitor.py): model and properties

    A shallow embedding of [SiteChecker], [TelegramHandler] and
    [SiteMonitor].  Everything the program asks of its environment (the
    wall clock, the HTTP session, the Telegram API, [time.sleep]) is
    answered by an oracle [Env]; the program state is a [World] that counts
    the questions asked so far, holds the one mutable field of the monitor
    and records what was done in a trace.

    Conventions.
    - Python [int] is [Z]; [str] is [string], in the ASCII range:
      [str.lower] acts on the letters A-Z and [int] reads ASCII digits;
      [set[int]] is [gset Z].
    - A naive [datetime] is a [Z], the microseconds since an arbitrary
      midnight.  The source compares [timedelta.total_seconds()], a float,
      with an integer number of seconds or minutes; the model compares the
      microseconds exactly (the two agree except within rounding of the
      bound; they agree for the bound 0).
    - Two exceptions leave the function that raises them:
      [KeyboardInterrupt], which the oracle may raise inside any blocking
      call (HTTP request, Telegram post, sleep), and the [ValueError] of
      [time.sleep] on a negative delay.  All other exceptions are caught
      where the source catches them.  The float [timeout] of the checker is
      only handed to [requests]; the model does not carry it.
    - Loops that the source bounds by a counter recurse on that count; the
      [while True] of [run] takes [fuel], the number of iterations allowed,
      and ends in [OutOfFuel] when they are used up.
    - A log line is an event carrying the logging call and the values it
      formats, not the formatted text. *)

From Stdlib Require Import ZArith String Ascii List Bool Lia DecimalString.
From stdpp Require Import base decidable gmap.
Import ListNotations.
Local Open Scope Z_scope.
Local Open Scope string_scope.

(** ** Strings *)

Module Str.

Definition nl : string := String (ascii_of_nat 10) EmptyString.

(** [str(n)] for an [int]. *)
Definition of_Z (n : Z) : string := NilZero.string_of_int (Z.to_int n).

(** [c.lower()] on one ASCII character. *)
Definition lower_ascii (c : ascii) : ascii :=
  let n := nat_of_ascii c in
  if (65 <=? n)%nat && (n <=? 90)%nat then ascii_of_nat (n + 32) else c.

Fixpoint lower (s : string) : string :=
  match s with
  | EmptyString => EmptyString
  | String c t => String (lower_ascii c) (lower t)
  end.

(** [kw in text]: [kw] occurs in [text] as a contiguous substring. *)
Fixpoint contains (kw text : string) : bool :=
  String.prefix kw text ||
  match text with
  | EmptyString => false
  | String _ t => contains kw t
  end.

(** [s.split(sep)] for a one-character separator. *)
Fixpoint split_aux (sep : ascii) (cur : string) (s : string) : list string :=
  match s with
  | EmptyString => [cur]
  | String c t =>
      if Ascii.eqb c sep then cur :: split_aux sep EmptyString t
      else split_aux sep (cur ++ String c EmptyString) t
  end.

Definition split (sep : ascii) (s : string) : list string :=
  split_aux sep EmptyString s.

(** [s[:n]] *)
Definition take (n : nat) (s : string) : string := String.substring 0 n s.

(** [c.isspace()] on one ASCII character: tab to carriage return, the four
    separators 0x1C to 0x1F, and the space. *)
Definition is_space (c : ascii) : bool :=
  let n := nat_of_ascii c in
  ((9 <=? n)%nat && (n <=? 13)%nat) || ((28 <=? n)%nat && (n <=? 32)%nat).

Fixpoint rev_string (s acc : string) : string :=
  match s with
  | EmptyString => acc
  | String c t => rev_string t (String c acc)
  end.

(** Removal of the leading characters of class [p], and of the leading and
    trailing ones. *)
Fixpoint lstrip_by (p : ascii -> bool) (s : string) : string :=
  match s with
  | String c t => if p c then lstrip_by p t else s
  | EmptyString => s
  end.

Definition strip_by (p : ascii -> bool) (s : string) : string :=
  rev_string (lstrip_by p (rev_string (lstrip_by p s) "")) "".

(** [s.strip()] *)
Definition strip (s : string) : string := strip_by is_space s.

End Str.

(** ** The environment *)

(** The [requests] exception classes the handlers of [_try_get] tell apart.
    [ConnectTimeout] inherits from both [ConnectionError] and [Timeout];
    [SSLError] and [ProxyError] inherit from [ConnectionError]. *)
Inductive ExcClass :=
| ReadTimeout | ConnectTimeout | ConnectionError | SSLError | ProxyError
| OtherRequestException.

Definition is_Timeout (c : ExcClass) : bool :=
  match c with ReadTimeout | ConnectTimeout => true | _ => false end.

Definition is_ConnectionError (c : ExcClass) : bool :=
  match c with
  | ConnectTimeout | ConnectionError | SSLError | ProxyError => true
  | _ => false
  end.

Definition is_SSLError (c : ExcClass) : bool :=
  match c with SSLError => true | _ => false end.

Record RequestException := { exc_class : ExcClass; exc_str : string }.

(** [requests.Response]: [text = None] stands for a body whose decoding
    raises. *)
Record Response := { status_code : Z; text : option string }.

Inductive HttpOutcome :=
| Responded (r : Response)
| Failed (e : RequestException)
| HttpInterrupted.

Inductive PostOutcome :=
| PostStatus (code : Z)
| PostFailed (err : string)
| PostInterrupted.

Inductive Method := HEAD | GET.

Record Env := {
  now_at : nat -> Z;                     (* k-th reading of datetime.now() *)
  http_at : nat -> Method -> HttpOutcome; (* k-th request of the session *)
  post_at : nat -> PostOutcome;           (* k-th requests.post to Telegram *)
  sleep_at : nat -> bool                  (* k-th sleep: true = interrupted *)
}.

(** ** Log lines and the trace *)

Inductive Level := DEBUG | INFO | WARNING | ERROR.

(** One constructor per logging call of the source, carrying the values
    the message interpolates. *)
Inductive LogMsg :=
| LogConfirm (successes retries attempts max_attempts : Z) (info : string)
| LogConfirmReset (successes : Z) (info : string)
| LogTelegramNotConfigured
| LogTelegramSent (msg_num spam_count : Z)
| LogTelegramHttp (attempt retries code : Z)
| LogTelegramExc (attempt retries : Z) (err : string)
| LogInvalidUntil
| LogMonitoring (url : string)
| LogSettings (interval retries cooldown : Z)
| LogWillStopAt (at_time : string)
| LogWillStopAfter (minutes : Z)
| LogStopping (reason : string)
| LogStateChanged (state info : string)
| LogCheck (check_count : Z) (state info : string)
| LogConfirming
| LogSkippingNotify (remaining_us : Z)
| LogStoppedByUser.

Inductive TelegramHeader :=
| SiteIsUp
| WakeUp (k n : Z).

Inductive Event :=
| EvRequest (m : Method)
| EvPost (chat_id : string) (header : TelegramHeader) (message : string)
| EvSleep (seconds : Z)
| EvNotify (message : string)        (* entry of TelegramHandler.notify *)
| EvLog (lvl : Level) (msg : LogMsg).

(** ** The world *)

Record World := {
  n_now : nat;
  n_http : nat;
  n_post : nat;
  n_sleep : nat;
  last_notification : option Z;  (* SiteMonitor.last_notification *)
  trace : list Event             (* newest event first *)
}.

Definition world0 : World :=
  {| n_now := 0; n_http := 0; n_post := 0; n_sleep := 0;
     last_notification := None; trace := [] |}.

Definition emit (e : Event) (w : World) : World :=
  {| n_now := n_now w; n_http := n_http w; n_post := n_post w;
     n_sleep := n_sleep w; last_notification := last_notification w;
     trace := e :: trace w |}.

(** The world after one more clock reading, HTTP request, Telegram post or
    sleep, and after an assignment to [last_notification]. *)
Definition after_now (w : World) : World :=
  {| n_now := S (n_now w); n_http := n_http w; n_post := n_post w;
     n_sleep := n_sleep w; last_notification := last_notification w;
     trace := trace w |}.

Definition after_request (m : Method) (w : World) : World :=
  {| n_now := n_now w; n_http := S (n_http w); n_post := n_post w;
     n_sleep := n_sleep w; last_notification := last_notification w;
     trace := EvRequest m :: trace w |}.

Definition after_post (e : Event) (w : World) : World :=
  {| n_now := n_now w; n_http := n_http w; n_post := S (n_post w);
     n_sleep := n_sleep w; last_notification := last_notification w;
     trace := e :: trace w |}.

Definition after_sleep (seconds : Z) (w : World) : World :=
  {| n_now := n_now w; n_http := n_http w; n_post := n_post w;
     n_sleep := S (n_sleep w); last_notification := last_notification w;
     trace := EvSleep seconds :: trace w |}.

Definition with_last_notification (v : option Z) (w : World) : World :=
  {| n_now := n_now w; n_http := n_http w; n_post := n_post w;
     n_sleep := n_sleep w; last_notification := v; trace := trace w |}.

(** ** The monad of the program *)

(** The exceptions that leave the function that raises them: the interrupt
    of a blocking call, and the [ValueError] of [time.sleep] on a negative
    number of seconds. *)
Inductive Exception := KeyboardInterrupt | ValueError.

Inductive Result (A : Type) :=
| Ret (a : A) (w : World)
| Raise (e : Exception) (w : World)
| OutOfFuel (w : World).
Arguments Ret {A} a w.
Arguments Raise {A} e w.
Arguments OutOfFuel {A} w.

Definition M (A : Type) := World -> Result A.

Definition ret {A} (a : A) : M A := fun w => Ret a w.

Definition bind {A B} (m : M A) (k : A -> M B) : M B :=
  fun w =>
    match m w with
    | Ret a w' => k a w'
    | Raise e w' => Raise e w'
    | OutOfFuel w' => OutOfFuel w'
    end.

Declare Scope prog_scope.
Delimit Scope prog_scope with prog.
Notation "'let*' x ':=' m 'in' k" := (bind m (fun x => k))
  (at level 10, x name, m at level 100, k at level 200) : prog_scope.
Notation "'let*' ' p ':=' m 'in' k" := (bind m (fun p => k))
  (at level 10, p pattern, m at level 100, k at level 200) : prog_scope.
Notation "'do' m 'then' k" := (bind m (fun _ => k))
  (at level 10, m at level 100, k at level 200) : prog_scope.
Local Open Scope prog_scope.

Definition world_of {A} (r : Result A) : World :=
  match r with Ret _ w | Raise _ w | OutOfFuel w => w end.

Definition record (e : Event) : M unit := fun w => Ret tt (emit e w).

Definition log (lvl : Level) (msg : LogMsg) : M unit := record (EvLog lvl msg).

Section Primitives.
Variable E : Env.

(** [datetime.now()] *)
Definition datetime_now : M Z :=
  fun w => Ret (now_at E (n_now w)) (after_now w).

(** [time.sleep(seconds)] *)
Definition time_sleep (seconds : Z) : M unit :=
  fun w =>
    if (seconds <? 0)%Z then Raise ValueError w
    else if sleep_at E (n_sleep w)
    then Raise KeyboardInterrupt (after_sleep seconds w)
    else Ret tt (after_sleep seconds w).

(** [session.head] / [session.get]: the outcome is a response or a
    [RequestException], unless the call is interrupted. *)
Definition session_request (m : Method) : M (Response + RequestException) :=
  fun w =>
    match http_at E (n_http w) m with
    | Responded r => Ret (inl r) (after_request m w)
    | Failed e => Ret (inr e) (after_request m w)
    | HttpInterrupted => Raise KeyboardInterrupt (after_request m w)
    end.

(** [requests.post(url, json=payload, timeout=10)] *)
Definition requests_post (chat_id : string) (header : TelegramHeader)
    (message : string) : M (Z + string) :=
  fun w =>
    let w' := after_post (EvPost chat_id header message) w in
    match post_at E (n_post w) with
    | PostStatus c => Ret (inl c) w'
    | PostFailed err => Ret (inr err) w'
    | PostInterrupted => Raise KeyboardInterrupt w'
    end.

Definition set_last_notification (v : option Z) : M unit :=
  fun w => Ret tt (with_last_notification v w).

Definition get_last_notification : M (option Z) :=
  fun w => Ret (last_notification w) w.

End Primitives.

(** ** Defaults *)

Definition DOWN_KEYWORDS : list string :=
  [ "maintenance";
    "indisponible";
    "unavailable";
    "service temporairement";
    "temporarily unavailable";
    "en cours de maintenance";
    "hors service" ].

(** ** Site checking *)

Record SiteChecker := {
  url : string;
  ok_codes : gset Z;
  check_content : bool
}.

(** The result of [check_once]: [(up, reason, status_code)]. *)
Definition CheckResult : Type := bool * string * option Z.

Definition _simplify_error (e : RequestException) : string :=
  let s := exc_str e in
  if (100 <? String.length s)%nat then Str.take 100 s ++ "..." else s.

(** The first keyword of [kws] that occurs in [lowered]. *)
Fixpoint first_keyword (kws : list string) (lowered : string) : option string :=
  match kws with
  | [] => None
  | kw :: rest =>
      if Str.contains kw lowered then Some kw else first_keyword rest lowered
  end.

Definition _content_has_down_keywords (self : SiteChecker) (response : Response)
    : bool * string :=
  if negb (check_content self) then (false, "")
  else
    match text response with
    | None => (false, "")                  (* except Exception: pass *)
    | Some body =>
        match first_keyword DOWN_KEYWORDS (Str.lower body) with
        | Some kw => (true, "Page contains '" ++ kw ++ "'")
        | None => (false, "")
        end
    end.

Definition in_ok_codes (self : SiteChecker) (code : Z) : bool :=
  bool_decide (code ∈ ok_codes self).

(** [code in (200, 401)] *)
Definition body_check_needed (code : Z) : bool :=
  (code =? 200)%Z || (code =? 401)%Z.

Section Checker.
Variable E : Env.
Variable self : SiteChecker.

Definition _try_head : M (bool * option Response * string) :=
  let* r := session_request E HEAD in
  match r with
  | inl r =>
      if (status_code r =? 405)%Z then ret (false, None, "HEAD not allowed")
      else ret (true, Some r, "")
  | inr _ => ret (false, None, "HEAD failed")
  end.

Definition _try_get : M (bool * option Response * string) :=
  let* r := session_request E GET in
  match r with
  | inl r => ret (true, Some r, "")
  | inr e =>
      if is_Timeout (exc_class e) then
        ret (false, None, "Connection timeout")
      else if is_ConnectionError (exc_class e) then
        ret (false, None, "Connection error: " ++ _simplify_error e)
      else if is_SSLError (exc_class e) then
        ret (false, None, "SSL error: " ++ _simplify_error e)
      else
        ret (false, None, "Request failed: " ++ _simplify_error e)
  end.

Definition check_once : M CheckResult :=
  (* HEAD first *)
  let* '(head_ok, head_resp, _) := _try_head in
  match head_ok, head_resp with
  | true, Some head_resp =>
      let code := status_code head_resp in
      if negb (in_ok_codes self code) then
        ret (false, "HTTP " ++ Str.of_Z code ++ " (treated as DOWN)", Some code)
      else if check_content self && body_check_needed code then
        let* '(get_ok, get_resp, get_err) := _try_get in
        match get_ok, get_resp with
        | true, Some get_resp =>
            let '(bad, reason) := _content_has_down_keywords self get_resp in
            if bad then
              ret (false, "HTTP " ++ Str.of_Z code ++ " but " ++ reason, Some code)
            else ret (true, "HTTP " ++ Str.of_Z code, Some code)
        | _, _ => ret (false, get_err, None)
        end
      else ret (true, "HTTP " ++ Str.of_Z code, Some code)
  | _, _ =>
      (* HEAD failed -> GET *)
      let* '(get_ok, resp, err) := _try_get in
      match get_ok, resp with
      | true, Some resp =>
          let code := status_code resp in
          if negb (in_ok_codes self code) then
            ret (false, "HTTP " ++ Str.of_Z code ++ " (treated as DOWN)", Some code)
          else
            let '(bad, reason) := _content_has_down_keywords self resp in
            if bad then
              ret (false, "HTTP " ++ Str.of_Z code ++ " but " ++ reason, Some code)
            else ret (true, "HTTP " ++ Str.of_Z code, Some code)
      | _, _ => ret (false, err, None)
      end
  end.

(** The [while] loop of [check_with_confirmation].  Every iteration
    increments [attempts], so [max_attempts - attempts] iterations are
    enough; [fuel] bounds the recursion. *)
Fixpoint confirm_loop (fuel : nat) (retries delay max_attempts : Z)
    (attempts successes : Z) (last_info : string) : M (bool * string) :=
  if (attempts <? max_attempts)%Z && (successes <? retries)%Z then
    match fuel with
    | O => fun w => OutOfFuel w
    | S fuel' =>
        let attempts := attempts + 1 in
        let* '(ok, info, _) := check_once in
        let last_info := info in
        let* successes :=
          if ok : bool then
            let successes := successes + 1 in
            do log DEBUG (LogConfirm successes retries attempts max_attempts info)
            then ret successes
          else
            do (if (successes =? 0)%Z then ret tt
                else log DEBUG (LogConfirmReset successes info))
            then ret 0 in
        do (if (successes <? retries)%Z then time_sleep E delay else ret tt)
        then confirm_loop fuel' retries delay max_attempts attempts successes
               last_info
    end
  else ret ((retries <=? successes)%Z, last_info).

Definition check_with_confirmation (retries delay : Z) : M (bool * string) :=
  let successes := 0 in
  let attempts := 0 in
  let max_attempts := retries * 2 in
  let last_info := "" in
  confirm_loop (Z.to_nat max_attempts) retries delay max_attempts
    attempts successes last_info.

End Checker.

(** ** Telegram notification *)

Record TelegramHandler := {
  token : option string;
  chat_id : option string;
  spam_count : Z
}.

Definition TelegramHandler_init (token chat_id : option string) (spam_count : Z)
    : TelegramHandler :=
  {| token := token; chat_id := chat_id; spam_count := Z.max 1 spam_count |}.

(** Truth value of an [Optional[str]]. *)
Definition truthy (s : option string) : bool :=
  match s with
  | None | Some EmptyString => false
  | Some _ => true
  end.

Definition is_configured (self : TelegramHandler) : bool :=
  truthy (token self) && truthy (chat_id self).

Section Telegram.
Variable E : Env.
Variable self : TelegramHandler.

(** [for attempt in range(retries)]: [todo] iterations remain.  Returns
    the value of [success] after the loop. *)
Fixpoint notify_attempts (todo : nat) (attempt retries msg_num : Z)
    (header : TelegramHeader) (message : string) (success : bool) : M bool :=
  match todo with
  | O => ret success
  | S todo' =>
      let* r := requests_post E (default "" (chat_id self)) header message in
      let retry :=
        do (if (attempt <? retries - 1)%Z then time_sleep E 2 else ret tt)
        then notify_attempts todo' (attempt + 1) retries msg_num header
               message success in
      match r with
      | inl code =>
          if (code =? 200)%Z then
            do log INFO (LogTelegramSent (msg_num + 1) (spam_count self))
            then ret true                                   (* break *)
          else
            do log WARNING (LogTelegramHttp (attempt + 1) retries code)
            then retry
      | inr err =>
          do log WARNING (LogTelegramExc (attempt + 1) retries err)
          then retry
      end
  end.

(** [for msg_num in range(self.spam_count)] *)
Fixpoint notify_messages (todo : nat) (msg_num retries : Z)
    (message : string) (success : bool) : M bool :=
  match todo with
  | O => ret success
  | S todo' =>
      let header :=
        if (1 <? spam_count self)%Z
        then WakeUp (msg_num + 1) (spam_count self) else SiteIsUp in
      let* success :=
        notify_attempts (Z.to_nat retries) 0 retries msg_num header message
          success in
      do (if (1 <? spam_count self)%Z && (msg_num <? spam_count self - 1)%Z
          then time_sleep E 1 else ret tt)
      then notify_messages todo' (msg_num + 1) retries message success
  end.

Definition notify (message : string) (retries : Z) : M bool :=
  do record (EvNotify message) then
  if negb (is_configured self) then
    do log ERROR LogTelegramNotConfigured then ret false
  else
    notify_messages (Z.to_nat (spam_count self)) 0 retries message false.

End Telegram.

(** ** Dates

    A [datetime] is its number of microseconds on a line without ends: the
    first and the last year of [datetime] are left out. *)

Module Datetime.

Definition SECOND : Z := 1000000.
Definition MINUTE : Z := 60 * SECOND.
Definition HOUR : Z := 60 * MINUTE.
Definition DAY : Z := 24 * HOUR.

Definition hour (t : Z) : Z := (t mod DAY) / HOUR.
Definition minute (t : Z) : Z := (t mod HOUR) / MINUTE.

(** [t.replace(hour=hh, minute=mm, second=0, microsecond=0)]; [None] is
    the [ValueError] of an hour or minute out of range. *)
Definition replace_hm (t hh mm : Z) : option Z :=
  if (0 <=? hh)%Z && (hh <=? 23)%Z && (0 <=? mm)%Z && (mm <=? 59)%Z
  then Some (t - t mod DAY + hh * HOUR + mm * MINUTE)
  else None.

Definition two_digits (n : Z) : string :=
  if (n <? 10)%Z then "0" ++ Str.of_Z n else Str.of_Z n.

(** [t.strftime('%H:%M')] *)
Definition strftime_HM (t : Z) : string :=
  two_digits (hour t) ++ ":" ++ two_digits (minute t).

End Datetime.

(** ** [int(s)] for a string

    Base 10, ASCII: surrounding white space, an optional sign, digits with
    single underscores between them, and at most [MAX_STR_DIGITS] digits.
    The white space that [int] skips is that of C's [isspace]: the
    separators 0x1C to 0x1F, which [str.strip] removes, make [int] fail.
    The digits of other scripts are left out. *)

Module PyInt.

(** Characters [int] skips around the number: tab to carriage return, and
    the space. *)
Definition is_space (c : ascii) : bool :=
  let n := nat_of_ascii c in
  ((9 <=? n)%nat && (n <=? 13)%nat) || (n =? 32)%nat.

Definition digit_of (c : ascii) : option Z :=
  let n := nat_of_ascii c in
  if (48 <=? n)%nat && (n <=? 57)%nat then Some (Z.of_nat n - 48) else None.

Definition strip (s : string) : string := Str.strip_by is_space s.

(** Digits, with single underscores allowed between two digits. *)
Fixpoint digits (s : string) (acc : Z) (after_digit : bool) : option Z :=
  match s with
  | EmptyString => if after_digit then Some acc else None
  | String c t =>
      match digit_of c with
      | Some d => digits t (10 * acc + d) true
      | None =>
          if Ascii.eqb c "_"%char && after_digit then digits t acc false
          else None
      end
  end.

(** [sys.int_info.default_max_str_digits]: a longer number is a
    [ValueError] too. *)
Definition MAX_STR_DIGITS : nat := 4300.

Fixpoint count_digits (s : string) : nat :=
  match s with
  | EmptyString => O
  | String c t =>
      match digit_of c with
      | Some _ => S (count_digits t)
      | None => count_digits t
      end
  end.

Definition number (s : string) : option Z :=
  if (MAX_STR_DIGITS <? count_digits s)%nat then None else digits s 0 false.

(** [int(s)]; [None] is [ValueError]. *)
Definition int (s : string) : option Z :=
  match strip s with
  | String "+"%char t => number t
  | String "-"%char t => option_map Z.opp (number t)
  | t => number t
  end.

End PyInt.

(** ** Monitor *)

Record SiteMonitor := {
  checker : SiteChecker;
  interval : Z;
  retries : Z;
  retry_delay : Z;
  cooldown : Z;
  telegram : TelegramHandler;
  start_time : Z;
  stop_after_minutes : option Z;
  stop_at_time : option Z
}.

(** What the [try] block of [_parse_until] computes before [datetime.now()]:
    [hh, mm = map(int, until.split(":"))].  [None] is the exception of a
    wrong number of parts or of a part that is not an integer. *)
Definition parse_hh_mm (until : string) : option (Z * Z) :=
  match Str.split ":"%char until with
  | [a; b] =>
      match PyInt.int a, PyInt.int b with
      | Some hh, Some mm => Some (hh, mm)
      | _, _ => None
      end
  | _ => None
  end.

Section Monitor.
Variable E : Env.

Definition _parse_until (until : option string) : M (option Z) :=
  if negb (truthy until) then ret None
  else
    let failed := do log WARNING LogInvalidUntil then ret None in
    match parse_hh_mm (default "" until) with
    | Some (hh, mm) =>
        let* now := datetime_now E in
        match Datetime.replace_hm now hh mm with
        | Some target =>
            ret (Some (if (target <=? now)%Z then target + Datetime.DAY
                       else target))
        | None => failed
        end
    | None => failed
    end.

(** [SiteMonitor.__init__] *)
Definition SiteMonitor_init (checker : SiteChecker)
    (interval retries retry_delay cooldown : Z) (until : option string)
    (stop_after : option Z) (telegram : TelegramHandler) : M SiteMonitor :=
  let* start_time := datetime_now E in
  do set_last_notification None then
  let* stop_at_time := _parse_until until in
  ret {| checker := checker; interval := interval; retries := retries;
         retry_delay := retry_delay; cooldown := cooldown;
         telegram := telegram; start_time := start_time;
         stop_after_minutes := stop_after; stop_at_time := stop_at_time |}.

Variable self : SiteMonitor.

Definition time_limit_reached (now : Z) : bool :=
  match stop_after_minutes self with
  | Some minutes => (minutes * Datetime.MINUTE <=? now - start_time self)%Z
  | None => false
  end.

Definition stop_time_reached (now : Z) : bool :=
  match stop_at_time self with
  | Some at_time => (at_time <=? now)%Z
  | None => false
  end.

Definition _should_stop : M (bool * string) :=
  let* now := datetime_now E in
  if time_limit_reached now then
    ret (true, "Time limit reached (" ++
               Str.of_Z (default 0 (stop_after_minutes self)) ++ " minutes)")
  else if stop_time_reached now then
    ret (true, "Stop time reached (" ++
               Datetime.strftime_HM (default 0 (stop_at_time self)) ++ ")")
  else ret (false, "").

(** [self.last_notification is None or
    (now - self.last_notification).total_seconds() >= self.cooldown] *)
Definition cooldown_elapsed (last : option Z) (now : Z) : bool :=
  match last with
  | None => true
  | Some last => (cooldown self * Datetime.SECOND <=? now - last)%Z
  end.

(** [f"The site is now reachable.\n{self.checker.url}\n({cinfo})"] *)
Definition reachable_message (cinfo : string) : string :=
  "The site is now reachable." ++ Str.nl ++
  url (checker self) ++ Str.nl ++ "(" ++ cinfo ++ ")".

(** The block under [if confirmed:] in [run].  [continue] is the rest of
    the loop: the sleep and the next iterations. *)
Definition on_confirmed (cinfo : string) (continue : M Z) : M Z :=
  let* now := datetime_now E in
  let* last := get_last_notification in
  if cooldown_elapsed last now then
    let msg := reachable_message cinfo in
    let* _ := notify E (telegram self) msg 3 in
    do set_last_notification (Some now) then ret 0
  else
    let remaining :=
      cooldown self * Datetime.SECOND - (now - default now last) in
    do log INFO (LogSkippingNotify remaining) then continue.

(** The body of [while True] in [run]; [fuel] bounds the number of
    iterations. *)
Fixpoint run_loop (fuel : nat) (last_state : option string) (check_count : Z)
    : M Z :=
  match fuel with
  | O => fun w => OutOfFuel w
  | S fuel' =>
      let* '(stop, reason) := _should_stop in
      if stop : bool then
        do log INFO (LogStopping reason) then ret 1
      else
        let check_count := check_count + 1 in
        let* '(ok, info, _) := check_once E (checker self) in
        let state := if ok : bool then "UP" else "DOWN" in
        let* last_state :=
          if negb (bool_decide (Some state = last_state)) then
            do log INFO (LogStateChanged state info) then ret (Some state)
          else
            do log DEBUG (LogCheck check_count state info)
            then ret last_state in
        let continue :=
          do time_sleep E (interval self)
          then run_loop fuel' last_state check_count in
        if ok then
          do log INFO LogConfirming then
          let* '(confirmed, cinfo) :=
            check_with_confirmation E (checker self) (retries self)
              (retry_delay self) in
          if confirmed : bool then on_confirmed cinfo continue
          else continue
        else continue
  end.

Definition catch_KeyboardInterrupt {A} (body handler : M A) : M A :=
  fun w =>
    match body w with
    | Raise KeyboardInterrupt w' => handler w'
    | r => r
    end.

Definition run (fuel : nat) : M Z :=
  let last_state := None in
  let check_count := 0 in
  do log INFO (LogMonitoring (url (checker self))) then
  do log INFO (LogSettings (interval self) (retries self) (cooldown self)) then
  do (match stop_at_time self with
      | Some t => log INFO (LogWillStopAt (Datetime.strftime_HM t))
      | None => ret tt
      end) then
  do (match stop_after_minutes self with
      | Some m => log INFO (LogWillStopAfter m)
      | None => ret tt
      end) then
  catch_KeyboardInterrupt
    (run_loop fuel last_state check_count)
    (do log INFO LogStoppedByUser then ret 1).

End Monitor.

(** * The command line ([main]) and the web service ([app.py])

    [parse_args] is not modelled: [main] takes the parsed arguments.  The
    process environment is a finite map from names to values.  The log lines
    that [main] and [run_monitor] write themselves are returned with their
    result, oldest first; the emoji of the messages are left out. *)

Definition DEFAULT_URL : string :=
  "https://sn-apogee-prod.univ-cotedazur.fr/IPwebso/loginInscription.jsf".

(** [{int(x.strip()) for x in parts}]; [None] is the [ValueError] of a part
    that is not an integer. *)
Fixpoint codes_of (parts : list string) : option (gset Z) :=
  match parts with
  | [] => Some ∅
  | x :: rest =>
      match PyInt.int (Str.strip x) with
      | Some c =>
          match codes_of rest with
          | Some codes => Some ({[c]} ∪ codes)
          | None => None
          end
      | None => None
      end
  end.

(** [{int(x.strip()) for x in ok_codes.split(",")}] *)
Definition parse_ok_codes (ok_codes : string) : option (gset Z) :=
  codes_of (Str.split ","%char ok_codes).

(** The attributes of [args] that [main] reads, but [timeout] (a float) and
    [verbose] (the logging level). *)
Record Args := {
  args_url : string;
  args_interval : Z;
  args_retries : Z;
  args_retry_delay : Z;
  args_cooldown : Z;
  args_until : option string;
  args_stop_after : option Z;
  args_ok_codes : string;
  args_no_content_check : bool;
  args_spam : Z;
  args_test : bool;
  args_test_telegram : bool
}.

Inductive MainLog :=
| LogInvalidOkCodes
| LogTestTelegramNotConfigured
| LogTestMessageSent
| LogTestMode
| LogSiteIsUp (info : string)
| LogSiteIsDown (info : string)
| LogMonitorNotConfigured
| LogSeeBotDocs.

Section Main.
Variable E : Env.
Variable environ : gmap string string.

Definition main (args : Args) (fuel : nat) : M (Z * list (Level * MainLog)) :=
  match parse_ok_codes (args_ok_codes args) with
  | None => ret (2, [(ERROR, LogInvalidOkCodes)])
  | Some ok_codes =>
      let token := environ !! "TG_BOT_TOKEN" in
      let chat_id := environ !! "TG_CHAT_ID" in
      let telegram := TelegramHandler_init token chat_id (args_spam args) in
      (* Test Telegram *)
      if args_test_telegram args then
        if negb (is_configured telegram) then
          ret (1, [(ERROR, LogTestTelegramNotConfigured)])
        else
          let* sent :=
            notify E telegram "Telegram is configured correctly!" 3 in
          if sent : bool then ret (0, [(INFO, LogTestMessageSent)])
          else ret (1, [])
      else
        let checker :=
          {| url := args_url args; ok_codes := ok_codes;
             check_content := negb (args_no_content_check args) |} in
        (* Test mode: single check *)
        if args_test args then
          let* '(ok, info, code) := check_once E checker in
          if ok : bool then ret (0, [(INFO, LogTestMode); (INFO, LogSiteIsUp info)])
          else ret (1, [(INFO, LogTestMode); (WARNING, LogSiteIsDown info)])
        (* Check Telegram is configured before starting monitor *)
        else if negb (is_configured telegram) then
          ret (1, [(ERROR, LogMonitorNotConfigured); (INFO, LogSeeBotDocs)])
        else
          let* monitor :=
            SiteMonitor_init E checker (args_interval args) (args_retries args)
              (args_retry_delay args) (args_cooldown args) (args_until args)
              (args_stop_after args) telegram in
          let* code := run E monitor fuel in
          ret (code, [])
  end.

(** [os.getenv(key, default)] *)
Definition getenv (key dflt : string) : string := default dflt (environ !! key).

(** [int(os.getenv(key, default))]; the [ValueError] is not caught. *)
Definition getenv_int (key dflt : string) : M Z :=
  match PyInt.int (getenv key dflt) with
  | Some n => ret n
  | None => fun w => Raise ValueError w
  end.

Inductive AppLog := LogAppNotConfigured | LogAppStarted.

(** [run_monitor] of app.py, the body of the monitor thread. *)
Definition run_monitor (fuel : nat) : M (list (Level * AppLog)) :=
  let token := Str.strip (default "" (environ !! "TG_BOT_TOKEN")) in
  let chat_id := Str.strip (default "" (environ !! "TG_CHAT_ID")) in
  let url := getenv "CHECK_URL" DEFAULT_URL in
  let* interval := getenv_int "INTERVAL" "45" in
  let* retries := getenv_int "RETRIES" "1" in
  let* cooldown := getenv_int "COOLDOWN" "600" in
  let until :=
    if truthy (environ !! "UNTIL") then environ !! "UNTIL" else None in
  let* spam := getenv_int "SPAM" "3" in
  let ok_codes : gset Z := {[200; 302; 303; 401]} in
  let telegram := TelegramHandler_init (Some token) (Some chat_id) spam in
  if negb (is_configured telegram) then ret [(ERROR, LogAppNotConfigured)]
  else
    let checker :=
      {| url := url; ok_codes := ok_codes; check_content := true |} in
    let* monitor :=
      SiteMonitor_init E checker interval retries 5 cooldown until None
        telegram in
    let* _ := run E monitor fuel in
    ret [(INFO, LogAppStarted)].

End Main.

(** * Vocabulary of the properties *)

(** [kw] occurs in [body] up to the case of letters: some contiguous part of
    [body] and [kw] have the same lower-case form. *)
Definition occurs_ci (kw body : string) : Prop :=
  exists pre mid post, body = pre ++ mid ++ post /\ Str.lower mid = Str.lower kw.

(** The HEAD request of a probe cannot be used: it raised a
    [RequestException] or was answered 405. *)
Definition head_unusable (o : HttpOutcome) : Prop :=
  match o with
  | Responded r => status_code r = 405
  | Failed _ => True
  | HttpInterrupted => False
  end.

(** A probe whose first request has number [k] classifies status code [code]
    and reads the body of [resp]: either HEAD answered [code] and the
    follow-up GET answered [resp], or HEAD was unusable and the fall-back GET
    answered [resp], with status [code]. *)
Inductive probed (E : Env) (k : nat) (code : Z) (resp : Response) : Prop :=
| probed_head (rh : Response) :
    http_at E k HEAD = Responded rh ->
    status_code rh = code ->
    http_at E (S k) GET = Responded resp ->
    probed E k code resp
| probed_fallback :
    head_unusable (http_at E k HEAD) ->
    http_at E (S k) GET = Responded resp ->
    status_code resp = code ->
    probed E k code resp.

(** No blocking call of the run is interrupted. *)
Definition uninterrupted (E : Env) : Prop :=
  (forall k, sleep_at E k = false) /\
  (forall k m, http_at E k m <> HttpInterrupted).

(** The wall clock never goes back. *)
Definition monotone_clock (E : Env) : Prop :=
  forall i j : nat, (i <= j)%nat -> now_at E i <= now_at E j.

(** Every probe starts with a HEAD request: the probes issued so far are the
    HEAD requests of the trace. *)
Fixpoint count_heads (t : list Event) : nat :=
  match t with
  | [] => O
  | EvRequest HEAD :: t' => S (count_heads t')
  | _ :: t' => count_heads t'
  end.

Definition probes_issued (w : World) : nat := count_heads (trace w).

Fixpoint notify_calls (t : list Event) : nat :=
  match t with
  | [] => O
  | EvNotify _ :: t' => S (notify_calls t')
  | _ :: t' => notify_calls t'
  end.

(** A world in which only the request counter matters. *)
Definition at_request (k : nat) : World :=
  {| n_now := 0; n_http := k; n_post := 0; n_sleep := 0;
     last_notification := None; trace := [] |}.

(** The outcomes of [n] successive probes, the first of which starts with
    request number [k]; the list stops short at an interrupted probe. *)
Fixpoint probes (E : Env) (self : SiteChecker) (n k : nat) : list CheckResult :=
  match n with
  | O => []
  | S n' =>
      match check_once E self (at_request k) with
      | Ret res w' => res :: probes E self n' (n_http w')
      | _ => []
      end
  end.

Definition up (r : CheckResult) : bool := fst (fst r).
Definition reason (r : CheckResult) : string := snd (fst r).

(** The consecutive-success counter: one more on UP, back to 0 on DOWN. *)
Definition counter_step (c : Z) (ok : bool) : Z := if ok then c + 1 else 0.

Definition counter_from (c : Z) (ups : list bool) : Z :=
  fold_left counter_step ups c.

(** The reason of the most recent probe, [dflt] when there was none. *)
Definition last_reason (dflt : string) (outs : list CheckResult) : string :=
  List.last (map reason outs) dflt.

(** [quiet P m]: whatever way [m] ends, it has only added events of class
    [P] to the trace and has left [last_notification] alone. *)
Definition quiet {A} (P : Event -> Prop) (m : M A) : Prop :=
  forall w, exists new,
    trace (world_of (m w)) = (new ++ trace w)%list /\
    Forall P new /\
    last_notification (world_of (m w)) = last_notification w.

(** [local m]: [m] reads nothing of the world but the request counter. *)
Definition same_outcome {A} (r1 r2 : Result A) : Prop :=
  match r1, r2 with
  | Ret a1 w1, Ret a2 w2 => a1 = a2 /\ n_http w1 = n_http w2
  | Raise e1 w1, Raise e2 w2 => e1 = e2 /\ n_http w1 = n_http w2
  | OutOfFuel w1, OutOfFuel w2 => n_http w1 = n_http w2
  | _, _ => False
  end.

Definition local {A} (m : M A) : Prop :=
  forall w1 w2, n_http w1 = n_http w2 -> same_outcome (m w1) (m w2).

(** [returns m]: [m] always ends with a value. *)
Definition returns {A} (m : M A) : Prop :=
  forall w, exists a w', m w = Ret a w'.

Definition is_get (e : Event) : Prop :=
  match e with EvRequest GET => True | _ => False end.

(** Classes of events: what the checker emits, what the notifier emits after
    its entry, and everything but a notifier entry or a cooldown skip. *)
Definition checker_event (e : Event) : Prop :=
  match e with
  | EvRequest _ | EvSleep _
  | EvLog _ (LogConfirm _ _ _ _ _) | EvLog _ (LogConfirmReset _ _) => True
  | _ => False
  end.

Definition telegram_event (e : Event) : Prop :=
  match e with
  | EvPost _ _ _ | EvSleep _
  | EvLog _ LogTelegramNotConfigured | EvLog _ (LogTelegramSent _ _)
  | EvLog _ (LogTelegramHttp _ _ _) | EvLog _ (LogTelegramExc _ _ _) => True
  | _ => False
  end.

Definition plain (e : Event) : Prop :=
  match e with
  | EvNotify _ | EvLog _ (LogSkippingNotify _) => False
  | _ => True
  end.

(** The four ways a run ends, read off the newest line of the log: the
    stop line names the time limit or the stop time, the interrupt handler
    logs its own line, and a run that returns after notifying logs neither. *)
Inductive Termination :=
| STOPPED_BY_TIME_LIMIT
| STOPPED_BY_DEADLINE
| NOTIFIED_SUCCESS
| INTERRUPTED.

Definition termination_logged (w : World) : Termination :=
  match trace w with
  | EvLog _ (LogStopping reason) :: _ =>
      if String.prefix "Time limit reached" reason
      then STOPPED_BY_TIME_LIMIT else STOPPED_BY_DEADLINE
  | EvLog _ LogStoppedByUser :: _ => INTERRUPTED
  | _ => NOTIFIED_SUCCESS
  end.

(** The return value of [run] on each of them. *)
Definition exit_code (t : Termination) : Z :=
  match t with
  | NOTIFIED_SUCCESS => 0
  | STOPPED_BY_TIME_LIMIT | STOPPED_BY_DEADLINE | INTERRUPTED => 1
  end.

(** The newest events are those of the notifier, back to its entry: the
    last thing the program did was to notify. *)
Fixpoint in_notifier (new : list Event) : bool :=
  match new with
  | EvNotify _ :: _ => true
  | (EvPost _ _ _ | EvSleep _
    | EvLog _ LogTelegramNotConfigured | EvLog _ (LogTelegramSent _ _)
    | EvLog _ (LogTelegramHttp _ _ _) | EvLog _ (LogTelegramExc _ _ _))
    :: rest => in_notifier rest
  | _ => false
  end.

(** The way a run ended, read off the events [new] it added: the stop line
    names the time limit or the stop time, the interrupt handler logs its
    own line, and a run that ended by notifying has just left the notifier.
    Events that end in no such way, as those of a run that is still going,
    have no termination. *)
Definition termination_of (new : list Event) : option Termination :=
  match new with
  | EvLog _ (LogStopping reason) :: _ =>
      Some (if String.prefix "Time limit reached" reason
            then STOPPED_BY_TIME_LIMIT else STOPPED_BY_DEADLINE)
  | EvLog _ LogStoppedByUser :: _ => Some INTERRUPTED
  | _ => if in_notifier new then Some NOTIFIED_SUCCESS else None
  end.

(** [closes m]: when [m] returns [c], the events it added end in a
    termination whose exit code is [c], and [last_notification] is set if
    that termination is the notification; however [m] ends, the trace has
    only grown. *)
Definition closes_post (w : World) (r : Result Z) : Prop :=
  exists new,
    trace (world_of r) = (new ++ trace w)%list /\
    match r with
    | Ret c w' =>
        exists t,
          termination_of new = Some t /\ c = exit_code t /\
          (t = NOTIFIED_SUCCESS -> last_notification w' <> None)
    | _ => True
    end.

Definition closes (m : M Z) : Prop := forall w, closes_post w (m w).


(** [safe m]: [m] neither runs out of fuel nor raises [ValueError]. *)
Definition safe {A} (m : M A) : Prop :=
  forall w,
    match m w with
    | OutOfFuel _ | Raise ValueError _ => False
    | _ => True
    end.

(** On a run that starts with [last_notification] unset: the events [new]
    added up to the result [r] hold no cooldown skip, and either the notifier
    was not entered, [last_notification] is still unset and [r] is not the
    return of 0, or the notifier was entered once and [r] is the return of 0
    with [last_notification] set, or the interrupt of the notifier with
    [last_notification] unset. *)
Definition one_shot_post (w : World) (r : Result Z) : Prop :=
  exists new,
    trace (world_of r) = (new ++ trace w)%list /\
    (forall lvl rem, ~ In (EvLog lvl (LogSkippingNotify rem)) new) /\
    ((notify_calls new = 0%nat /\ last_notification (world_of r) = None /\
      forall w', r <> Ret 0 w') \/
     (notify_calls new = 1%nat /\
      ((exists w', r = Ret 0 w' /\ last_notification w' <> None) \/
       (exists w', r = Raise KeyboardInterrupt w' /\
                   last_notification w' = None)))).

Definition one_shot (m : M Z) : Prop :=
  forall w, last_notification w = None -> one_shot_post w (m w).

(** The same for [run], which turns the interrupt into the return of 1:
    after the notifier was entered the run has returned. *)
Definition run_post (w : World) (r : Result Z) : Prop :=
  exists new,
    trace (world_of r) = (new ++ trace w)%list /\
    (forall lvl rem, ~ In (EvLog lvl (LogSkippingNotify rem)) new) /\
    (notify_calls new <= 1)%nat /\
    (last_notification (world_of r) = None \/
     (notify_calls new = 1%nat /\ exists w', r = Ret 0 w')) /\
    (notify_calls new = 1%nat -> exists c w', r = Ret c w') /\
    (forall w', r = Ret 0 w' -> notify_calls new = 1%nat).

(** A line of the log that records a granted confirmation: the "Confirm"
    line on which the counter of successes reaches its goal and, when
    [tries <= 0] leaves nothing to confirm, the "Confirming" line itself. *)
Definition is_confirmation (tries : Z) (e : Event) : bool :=
  match e with
  | EvLog _ (LogConfirm successes goal _ _ _) => (goal <=? successes)%Z
  | EvLog _ LogConfirming => (tries <=? 0)%Z
  | _ => false
  end.

(** An event that is neither a granted confirmation nor the entry of the
    notifier. *)
Definition idle (tries : Z) (e : Event) : Prop :=
  match e with
  | EvNotify _ => False
  | _ => is_confirmation tries e = false
  end.

(** The events [new] hold one granted confirmation, and the event that
    follows it is the entry of the notifier, the only one. *)
Definition announced (tries : Z) (new : list Event) : Prop :=
  exists tail msg g rest,
    new = (tail ++ EvNotify msg :: g :: rest)%list /\
    is_confirmation tries g = true /\
    Forall (idle tries) tail /\ Forall (idle tries) rest.

(** [grants tries m]: [m] logs a granted confirmation exactly when it
    returns [True], as its last event, and leaves [last_notification]
    alone. *)
Definition grant_post (tries : Z) (w : World) (r : Result (bool * string))
    : Prop :=
  exists new,
    trace (world_of r) = (new ++ trace w)%list /\
    last_notification (world_of r) = last_notification w /\
    match r with
    | Ret (true, _) _ =>
        exists g rest,
          new = g :: rest /\ is_confirmation tries g = true /\
          Forall (idle tries) rest
    | _ => Forall (idle tries) new
    end.

Definition grants (tries : Z) (m : M (bool * string)) : Prop :=
  forall w, grant_post tries w (m w).

(** [heralds tries m]: started with [last_notification] unset, either [m]
    grants no confirmation, does not notify and does not return 0, or it
    notifies right after the one confirmation it grants and then returns 0
    with [last_notification] set, unless the notifier is interrupted. *)
Definition heralds_post (tries : Z) (w : World) (r : Result Z) : Prop :=
  exists new,
    trace (world_of r) = (new ++ trace w)%list /\
    ((Forall (idle tries) new /\ forall w', r <> Ret 0 w') \/
     (announced tries new /\
      ((exists w', r = Ret 0 w' /\ last_notification w' <> None) \/
       (exists w', r = Raise KeyboardInterrupt w')))).

Definition heralds (tries : Z) (m : M Z) : Prop :=
  forall w, last_notification w = None -> heralds_post tries w (m w).

(** The same for [run], which turns the interrupt of the notifier into the
    return of 1 after the line of the interrupt handler. *)
Definition run_heralds_post (tries : Z) (w : World) (r : Result Z) : Prop :=
  exists new,
    trace (world_of r) = (new ++ trace w)%list /\
    ((Forall (idle tries) new /\ forall w', r <> Ret 0 w') \/
     (announced tries new /\
      ((exists w', r = Ret 0 w' /\ last_notification w' <> None) \/
       (exists w' rest,
           r = Ret 1 w' /\ new = EvLog INFO LogStoppedByUser :: rest)))).

(** The value a program returns is the exit code of the termination its log
    shows. *)
Definition exits_as_logged (m : M Z) : Prop :=
  forall w,
    match m w with
    | Ret c w' => c = exit_code (termination_logged w')
    | _ => True
    end.

(** A probe whose first request has number [k] classifies the status code
    [code]: HEAD answered it (and it is not 405), or HEAD was unusable and
    the fall-back GET answered it. *)
Inductive classifies (E : Env) (k : nat) (code : Z) : Prop :=
| classifies_head (rh : Response) :
    http_at E k HEAD = Responded rh ->
    status_code rh = code ->
    code <> 405 ->
    classifies E k code
| classifies_fallback (r : Response) :
    head_unusable (http_at E k HEAD) ->
    http_at E (S k) GET = Responded r ->
    status_code r = code ->
    classifies E k code.

(** The number of DOWN outcomes. *)
Definition downs (ups : list bool) : nat := length (List.filter negb ups).

(** Every sleep of the trace lasts [delay] seconds. *)
Definition sleeps_for (delay : Z) (e : Event) : Prop :=
  match e with
  | EvSleep s => s = delay
  | _ => True
  end.


(** No post and no sleep of the notifier is interrupted. *)
Definition posts_complete (E : Env) : Prop :=
  (forall k, sleep_at E k = false) /\
  (forall k, post_at E k <> PostInterrupted).

(** Telegram answers the post number [k] with HTTP 200. *)
Definition accepted_post (E : Env) (k : nat) : Prop :=
  post_at E k = PostStatus 200.

(** [advances m]: [m] ends without running out of fuel and without a
    [ValueError], and takes back no reading of the clock. *)
Definition advances {A} (m : M A) : Prop :=
  forall w,
    match m w with
    | OutOfFuel _ => False
    | Raise ValueError _ => False
    | r => (n_now w <= n_now (world_of r))%nat
    end.

(** [ends_from n m]: started after [n] readings of the clock or more, [m]
    ends without running out of fuel and without a [ValueError]. *)
Definition ends_from {A} (n : nat) (m : M A) : Prop :=
  forall w,
    (n <= n_now w)%nat ->
    match m w with
    | OutOfFuel _ => False
    | Raise ValueError _ => False
    | _ => True
    end.

(** One of the stop conditions of [self] holds at the time [now]. *)
Definition stop_due (self : SiteMonitor) (now : Z) : bool :=
  time_limit_reached self now || stop_time_reached self now.

(** The site never answers with a code of [ok_codes]: every request fails
    or is answered with another code. *)
Definition never_accepted (E : Env) (self : SiteChecker) : Prop :=
  forall k m,
    match http_at E k m with
    | Responded r => status_code r ∉ ok_codes self
    | Failed _ => True
    | HttpInterrupted => False
    end.

(** Every probe finds the site up, whatever the number of its first
    request. *)
Definition steadily_up (E : Env) (self : SiteChecker) : Prop :=
  forall k, exists info code w',
    check_once E self (at_request k) = Ret (true, info, code) w'.
(** ** Example environments *)

Module Ex.

Definition site : SiteChecker :=
  {| url := "https://example.org/login";
     ok_codes := {[200; 302; 303; 401]};
     check_content := true |}.

Definition bot : TelegramHandler :=
  TelegramHandler_init (Some "token") (Some "42") 1.

Definition answer (code : Z) (body : string) : HttpOutcome :=
  Responded {| status_code := code; text := Some body |}.

(** A clock that advances one second per reading. *)
Definition clock (k : nat) : Z := Z.of_nat k * Datetime.SECOND.

(** The k-th request is answered 302 when the k-th entry of [ups] is
    [true], and 503 otherwise; Telegram accepts every post. *)
Definition scripted (ups : list bool) : Env :=
  {| now_at := clock;
     http_at := fun k _ => answer (if nth k ups false then 302 else 503) "";
     post_at := fun _ => PostStatus 200;
     sleep_at := fun _ => false |}.

(** The site answers [code] with [body] to HEAD and GET alike. *)
Definition steady (code : Z) (body : string) (telegram_status : Z) : Env :=
  {| now_at := clock;
     http_at := fun _ _ => answer code body;
     post_at := fun _ => PostStatus telegram_status;
     sleep_at := fun _ => false |}.

(** The site rejects HEAD with 405 and answers GET with [code], [body]. *)
Definition no_head (code : Z) (body : string) : Env :=
  {| now_at := clock;
     http_at := fun _ m =>
       match m with HEAD => answer 405 "" | GET => answer code body end;
     post_at := fun _ => PostStatus 200;
     sleep_at := fun _ => false |}.

(** HEAD answers [code]; the GET that follows times out. *)
Definition get_times_out (code : Z) : Env :=
  {| now_at := clock;
     http_at := fun _ m =>
       match m with
       | HEAD => answer code ""
       | GET => Failed {| exc_class := ReadTimeout; exc_str := "timed out" |}
       end;
     post_at := fun _ => PostStatus 200;
     sleep_at := fun _ => false |}.

(** The site is down (503) and the first sleep is interrupted. *)
Definition interrupted : Env :=
  {| now_at := clock;
     http_at := fun _ _ => answer 503 "";
     post_at := fun _ => PostStatus 200;
     sleep_at := fun _ => true |}.

Definition monitor (retries : Z) (stop_after stop_at : option Z)
    : SiteMonitor :=
  {| checker := site; interval := 60; retries := retries;
     retry_delay := 5; cooldown := 600; telegram := bot;
     start_time := 0; stop_after_minutes := stop_after;
     stop_at_time := stop_at |}.

(** HEAD answers [head_code]; GET answers [get_code] with [body]. *)
Definition head_then_get (head_code get_code : Z) (body : string) : Env :=
  {| now_at := clock;
     http_at := fun _ m =>
       match m with
       | HEAD => answer head_code ""
       | GET => answer get_code body
       end;
     post_at := fun _ => PostStatus 200;
     sleep_at := fun _ => false |}.

(** The checker of [--no-content-check]. *)
Definition site_unfiltered : SiteChecker :=
  {| url := "https://example.org/login";
     ok_codes := {[200; 302; 303; 401]};
     check_content := false |}.


(** The site is up; Telegram accepts the post number [k] only. *)
Definition telegram_accepts_only (k : nat) : Env :=
  {| now_at := clock;
     http_at := fun _ _ => answer 302 "";
     post_at := fun i => PostStatus (if (i =? k)%nat then 200 else 500);
     sleep_at := fun _ => false |}.

(** A handler that sends [n] messages. *)
Definition bot_spam (n : Z) : TelegramHandler :=
  TelegramHandler_init (Some "token") (Some "42") n.

(** [--test] against the default codes, and [--test-telegram]. *)
Definition args_of (ok_codes : string) (test test_telegram : bool) : Args :=
  {| args_url := "https://example.org/login"; args_interval := 60;
     args_retries := 3; args_retry_delay := 5; args_cooldown := 600;
     args_until := None; args_stop_after := None;
     args_ok_codes := ok_codes; args_no_content_check := false;
     args_spam := 1; args_test := test;
     args_test_telegram := test_telegram |}.

Definition credentials : gmap string string :=
  {[ "TG_BOT_TOKEN" := "token"; "TG_CHAT_ID" := "42" ]}.

(** A token of white space only. *)
Definition blank_credentials : gmap string string :=
  {[ "TG_BOT_TOKEN" := "   "; "TG_CHAT_ID" := "42" ]}.
End Ex.

(** * Properties *)

(** ** The model on concrete inputs *)

Example int_plain : PyInt.int "10" = Some 10.
Proof. reflexivity. Qed.

Example int_spaces_sign_underscore : PyInt.int " +1_0 " = Some 10.
Proof. reflexivity. Qed.

Example int_separators :
  PyInt.int (String (ascii_of_nat 28) "10") = None /\
  Str.strip (String (ascii_of_nat 28) "10") = "10" /\
  PyInt.int (String (ascii_of_nat 11) "10") = Some 10.
Proof. repeat split. Qed.

Example int_rejects : map PyInt.int [""; "-"; "1__0"; "_1"; "1_"; "1 0"; "ten"]
                      = [None; None; None; None; None; None; None].
Proof. reflexivity. Qed.

Example parse_hh_mm_ok : parse_hh_mm "10:00" = Some (10, 0).
Proof. reflexivity. Qed.

Example parse_hh_mm_parts : map parse_hh_mm ["10"; "10:00:00"; "10:"; "a:b"]
                            = [None; None; None; None].
Proof. reflexivity. Qed.

Example strftime_pads :
  Datetime.strftime_HM (7 * Datetime.HOUR + 5 * Datetime.MINUTE) = "07:05".
Proof. reflexivity. Qed.

Example probe_unaccepted_code :
  check_once (Ex.steady 503 "" 200) Ex.site world0
  = Ret (false, "HTTP 503 (treated as DOWN)", Some 503)
        (after_request HEAD world0).
Proof. vm_compute. reflexivity. Qed.

Example probe_healthy_page :
  check_once (Ex.steady 200 "Welcome" 200) Ex.site world0
  = Ret (true, "HTTP 200", Some 200)
        (after_request GET (after_request HEAD world0)).
Proof. vm_compute. reflexivity. Qed.

(** The reason names the first keyword of the list that occurs, here
    "unavailable" rather than "temporarily unavailable". *)
Example probe_first_keyword :
  check_once (Ex.steady 401 "Temporarily Unavailable" 200) Ex.site world0
  = Ret (false, "HTTP 401 but Page contains 'unavailable'", Some 401)
        (after_request GET (after_request HEAD world0)).
Proof. vm_compute. reflexivity. Qed.

Example confirmation_never_reached :
  exists w',
    check_with_confirmation
      (Ex.scripted [true; false; true; false; true; false]) Ex.site 3 5 world0
    = Ret (false, "HTTP 503 (treated as DOWN)") w' /\
    probes_issued w' = 6%nat.
Proof. eexists. split; vm_compute; reflexivity. Qed.

(** ** Strings *)

Lemma prefix_app (a post : string) : String.prefix a (a ++ post) = true.
Proof.
  induction a as [|c a IH]; simpl.
  - now destruct post.
  - destruct (ascii_dec c c); [exact IH | congruence].
Qed.

Lemma prefix_inv (a b : string) :
  String.prefix a b = true -> exists post, b = a ++ post.
Proof.
  revert b; induction a as [|c a IH]; intros b H.
  - now exists b.
  - destruct b as [|d b]; simpl in H; [discriminate|].
    destruct (ascii_dec c d) as [->|]; [|discriminate].
    destruct (IH _ H) as [post ->]. now exists post.
Qed.

Lemma contains_prefix (kw body : string) :
  String.prefix kw body = true -> Str.contains kw body = true.
Proof. intros H. destruct body; cbn [Str.contains]; now rewrite H. Qed.

Lemma contains_app (kw pre post : string) :
  Str.contains kw (pre ++ kw ++ post) = true.
Proof.
  induction pre as [|c pre IH].
  - apply contains_prefix. exact (prefix_app kw post).
  - change (String c pre ++ kw ++ post) with (String c (pre ++ kw ++ post)).
    cbn [Str.contains]. rewrite IH. apply orb_true_r.
Qed.

Lemma contains_inv (kw body : string) :
  Str.contains kw body = true -> exists pre post, body = pre ++ kw ++ post.
Proof.
  induction body as [|c body IH]; cbn [Str.contains]; intros H.
  - rewrite orb_false_r in H. destruct (prefix_inv _ _ H) as [post ->].
    now exists EmptyString, post.
  - apply orb_true_iff in H as [H|H].
    + destruct (prefix_inv _ _ H) as [post ->]. now exists EmptyString, post.
    + destruct (IH H) as (pre & post & ->). now exists (String c pre), post.
Qed.

Lemma lower_app (a b : string) :
  Str.lower (a ++ b) = Str.lower a ++ Str.lower b.
Proof. induction a as [|c a IH]; simpl; [reflexivity | now rewrite IH]. Qed.

Lemma keywords_lowercase (kw : string) :
  In kw DOWN_KEYWORDS -> Str.lower kw = kw.
Proof.
  unfold DOWN_KEYWORDS; simpl; intros H.
  repeat (destruct H as [<-|H]; [reflexivity|]). contradiction.
Qed.

Lemma occurs_ci_contains (kw body : string) :
  In kw DOWN_KEYWORDS -> occurs_ci kw body ->
  Str.contains kw (Str.lower body) = true.
Proof.
  intros Hin (pre & mid & post & -> & Hmid).
  rewrite !lower_app, Hmid, (keywords_lowercase _ Hin). apply contains_app.
Qed.

Lemma append_nil (s : string) : "" ++ s = s.
Proof. reflexivity. Qed.

Lemma append_cons (c : ascii) (a b : string) :
  String c a ++ b = String c (a ++ b).
Proof. reflexivity. Qed.

Lemma lower_split (body a b : string) :
  Str.lower body = a ++ b ->
  exists a' b', body = a' ++ b' /\ Str.lower a' = a /\ Str.lower b' = b.
Proof.
  revert a; induction body as [|c body IH]; intros a H; cbn [Str.lower] in H.
  - destruct a; [rewrite append_nil in H | discriminate]. subst b.
    now exists EmptyString, EmptyString.
  - destruct a as [|d a].
    + rewrite append_nil in H. exists EmptyString, (String c body). now subst b.
    + rewrite append_cons in H. injection H as <- H.
      destruct (IH _ H) as (a' & b' & -> & <- & <-).
      now exists (String c a'), b'.
Qed.

Lemma contains_occurs_ci (kw body : string) :
  In kw DOWN_KEYWORDS -> Str.contains kw (Str.lower body) = true ->
  occurs_ci kw body.
Proof.
  intros Hin H. destruct (contains_inv _ _ H) as (pre & post & Heq).
  destruct (lower_split _ _ _ Heq) as (pre' & rest & -> & _ & Hrest).
  destruct (lower_split _ _ _ Hrest) as (mid & post' & -> & Hmid & _).
  exists pre', mid, post'. now rewrite (keywords_lowercase _ Hin).
Qed.

Lemma first_keyword_some (kws : list string) (lowered kw : string) :
  In kw kws -> Str.contains kw lowered = true ->
  exists kw', first_keyword kws lowered = Some kw'.
Proof.
  induction kws as [|k kws IH]; simpl; [contradiction|].
  intros [->|Hin] Hc.
  - rewrite Hc. now exists kw.
  - destruct (Str.contains k lowered); [now exists k | now apply IH].
Qed.

Lemma first_keyword_sound (kws : list string) (lowered kw : string) :
  first_keyword kws lowered = Some kw ->
  In kw kws /\ Str.contains kw lowered = true.
Proof.
  induction kws as [|k kws IH]; simpl; [discriminate|].
  destruct (Str.contains k lowered) eqn:Hc.
  - intros [= <-]. auto.
  - intros H. destruct (IH H). auto.
Qed.

(** ** The monad *)

Lemma bind_Ret {A B} (m : M A) (k : A -> M B) (w w' : World) (a : A) :
  m w = Ret a w' -> bind m k w = k a w'.
Proof. unfold bind. now intros ->. Qed.

Lemma bind_Raise {A B} (m : M A) (k : A -> M B) (e : Exception)
    (w w' : World) :
  m w = Raise e w' -> bind m k w = Raise e w'.
Proof. unfold bind. now intros ->. Qed.

Lemma bind_OutOfFuel {A B} (m : M A) (k : A -> M B) (w w' : World) :
  m w = OutOfFuel w' -> bind m k w = OutOfFuel w'.
Proof. unfold bind. now intros ->. Qed.

(** ** [check_once] *)

Section CheckOnce.
Variable E : Env.
Variable self : SiteChecker.

Lemma try_head_responded (w : World) (r : Response) :
  http_at E (n_http w) HEAD = Responded r -> status_code r <> 405 ->
  _try_head E w = Ret (true, Some r, "") (after_request HEAD w).
Proof.
  intros H Hc. unfold _try_head, bind, session_request. rewrite H.
  now destruct (Z.eqb_spec (status_code r) 405).
Qed.

Lemma try_head_unusable (w : World) :
  head_unusable (http_at E (n_http w) HEAD) ->
  exists err, _try_head E w = Ret (false, None, err) (after_request HEAD w).
Proof.
  unfold _try_head, bind, session_request, head_unusable.
  destruct (http_at E (n_http w) HEAD) as [r|e|]; intros H.
  - rewrite H. now eexists.
  - now eexists.
  - contradiction.
Qed.

Lemma try_get_responded (w : World) (r : Response) :
  http_at E (n_http w) GET = Responded r ->
  _try_get E w = Ret (true, Some r, "") (after_request GET w).
Proof. intros H. unfold _try_get, bind, session_request. now rewrite H. Qed.

Lemma try_get_failed (w : World) (e : RequestException) :
  http_at E (n_http w) GET = Failed e ->
  exists err, _try_get E w = Ret (false, None, err) (after_request GET w).
Proof.
  intros H. unfold _try_get, bind, session_request. rewrite H.
  destruct (is_Timeout (exc_class e)); [now eexists|].
  destruct (is_ConnectionError (exc_class e)); [now eexists|].
  destruct (is_SSLError (exc_class e)); now eexists.
Qed.

Lemma in_ok_codes_true (code : Z) :
  code ∈ ok_codes self -> in_ok_codes self code = true.
Proof. intros H. unfold in_ok_codes. now apply bool_decide_eq_true. Qed.

Lemma body_check_needed_true (code : Z) :
  code = 200 \/ code = 401 -> body_check_needed code = true.
Proof. now intros [->| ->]. Qed.

Lemma content_keyword (resp : Response) (body kw : string) :
  check_content self = true -> text resp = Some body ->
  In kw DOWN_KEYWORDS -> occurs_ci kw body ->
  exists kw', In kw' DOWN_KEYWORDS /\ occurs_ci kw' body /\
    _content_has_down_keywords self resp
    = (true, "Page contains '" ++ kw' ++ "'").
Proof.
  intros Hc Ht Hin Hocc. unfold _content_has_down_keywords.
  rewrite Hc, Ht. cbn [negb].
  destruct (first_keyword_some _ _ _ Hin (occurs_ci_contains _ _ Hin Hocc))
    as [kw' Hkw'].
  rewrite Hkw'. destruct (first_keyword_sound _ _ _ Hkw') as [Hin' Hc'].
  exists kw'. repeat split; auto using contains_occurs_ci.
Qed.

(** On the HEAD path an accepted code other than 200 and 401 is UP, and no
    GET is issued: the body is never read. *)
Lemma check_once_head_path_no_body (w : World) (rh : Response) :
  http_at E (n_http w) HEAD = Responded rh ->
  status_code rh <> 405 ->
  status_code rh ∈ ok_codes self ->
  body_check_needed (status_code rh) = false ->
  check_once E self w
  = Ret (true, "HTTP " ++ Str.of_Z (status_code rh), Some (status_code rh))
        (after_request HEAD w).
Proof.
  intros Hh H405 Hok Hb. unfold check_once.
  rewrite (bind_Ret _ _ _ _ _ (try_head_responded _ _ Hh H405)).
  now rewrite (in_ok_codes_true _ Hok), Hb, andb_false_r.
Qed.

End CheckOnce.

(** C7. A probe that classifies a status code 200 or 401 accepted by
    [ok_codes], with content filtering enabled, and whose body contains one
    of [DOWN_KEYWORDS] up to the case of letters, is DOWN, and its reason
    names a keyword that occurs in the body (the first one of the list that
    does). *)
Theorem check_once_keyword_is_down (E : Env) (self : SiteChecker) (w : World)
    (code : Z) (resp : Response) (body kw : string) :
  check_content self = true ->
  code = 200 \/ code = 401 ->
  code ∈ ok_codes self ->
  probed E (n_http w) code resp ->
  text resp = Some body ->
  In kw DOWN_KEYWORDS -> occurs_ci kw body ->
  exists kw' w',
    In kw' DOWN_KEYWORDS /\ occurs_ci kw' body /\
    check_once E self w
    = Ret (false,
           "HTTP " ++ Str.of_Z code ++ " but " ++
           "Page contains '" ++ kw' ++ "'",
           Some code) w'.
Proof.
  intros Hc Hcode Hok Hp Ht Hin Hocc.
  destruct (content_keyword self resp body kw Hc Ht Hin Hocc)
    as (kw' & Hin' & Hocc' & Hscan).
  exists kw'. eexists. split; [exact Hin'|]. split; [exact Hocc'|].
  unfold check_once.
  destruct Hp as [rh Hh Hrh Hg | Hu Hg Hr].
  - assert (H405 : status_code rh <> 405) by (destruct Hcode; lia).
    rewrite (bind_Ret _ _ _ _ _ (try_head_responded E _ _ Hh H405)).
    rewrite Hrh, (in_ok_codes_true _ _ Hok), Hc,
      (body_check_needed_true _ Hcode).
    cbn [negb andb].
    rewrite (bind_Ret _ _ _ _ _
               (try_get_responded E (after_request HEAD w) _ Hg)).
    rewrite Hscan. reflexivity.
  - destruct (try_head_unusable E _ Hu) as [err Herr].
    rewrite (bind_Ret _ _ _ _ _ Herr).
    rewrite (bind_Ret _ _ _ _ _
               (try_get_responded E (after_request HEAD w) _ Hg)).
    rewrite Hr, (in_ok_codes_true _ _ Hok). cbn [negb].
    rewrite Hscan. reflexivity.
Qed.

(** C10. When HEAD answers 200 or 401 (accepted by [ok_codes]), content
    checking is enabled and the follow-up GET raises a [RequestException],
    the probe is DOWN with no status code: the code of the HEAD response is
    dropped. *)
Theorem check_once_get_failure_drops_code (E : Env) (self : SiteChecker)
    (w : World) (rh : Response) (e : RequestException) :
  check_content self = true ->
  http_at E (n_http w) HEAD = Responded rh ->
  status_code rh = 200 \/ status_code rh = 401 ->
  status_code rh ∈ ok_codes self ->
  http_at E (S (n_http w)) GET = Failed e ->
  exists reason,
    check_once E self w
    = Ret (false, reason, None) (after_request GET (after_request HEAD w)).
Proof.
  intros Hc Hh Hcode Hok Hg.
  assert (H405 : status_code rh <> 405) by (destruct Hcode; lia).
  destruct (try_get_failed E (after_request HEAD w) e Hg) as [err Herr].
  exists err. unfold check_once.
  rewrite (bind_Ret _ _ _ _ _ (try_head_responded E _ _ Hh H405)).
  rewrite (in_ok_codes_true _ _ Hok), Hc, (body_check_needed_true _ Hcode).
  cbn [negb andb].
  now rewrite (bind_Ret _ _ _ _ _ Herr).
Qed.

(** ** What a program does to the world *)

Section Combinators.
Context {A B : Type}.
Variable P : Event -> Prop.

Lemma quiet_ret (a : A) : quiet P (ret a).
Proof. intros w. exists []. now repeat split. Qed.

Lemma quiet_bind (m : M A) (k : A -> M B) :
  quiet P m -> (forall a, quiet P (k a)) -> quiet P (bind m k).
Proof.
  intros Hm Hk w. destruct (Hm w) as (new1 & Ht1 & HP1 & Hl1).
  unfold bind. destruct (m w) as [a w1|e w1|w1]; cbn [world_of] in *.
  - destruct (Hk a w1) as (new2 & Ht2 & HP2 & Hl2).
    exists (new2 ++ new1)%list. rewrite Ht2, Ht1, Hl2, Hl1.
    repeat split; [apply app_assoc | now apply Forall_app].
  - now exists new1.
  - now exists new1.
Qed.

Lemma quiet_weaken (Q : Event -> Prop) (m : M A) :
  (forall e, Q e -> P e) -> quiet Q m -> quiet P m.
Proof.
  intros HQ Hm w. destruct (Hm w) as (new & Ht & HP & Hl).
  exists new. repeat split; auto. eapply Forall_impl; eauto.
Qed.

Lemma local_ret (a : A) : local (ret a).
Proof. intros w1 w2 H. now split. Qed.

Lemma local_bind (m : M A) (k : A -> M B) :
  local m -> (forall a, local (k a)) -> local (bind m k).
Proof.
  intros Hm Hk w1 w2 H. specialize (Hm w1 w2 H). unfold bind.
  destruct (m w1) as [a1 v1|v1|v1], (m w2) as [a2 v2|v2|v2];
    cbn in Hm; try contradiction; auto.
  destruct Hm as [<- Hv]. now apply Hk.
Qed.

End Combinators.

Section Primitive_facts.
Variable E : Env.
Variable P : Event -> Prop.

Lemma quiet_record (e : Event) : P e -> quiet P (record e).
Proof. intros He w. exists [e]. repeat split. now constructor. Qed.

Lemma quiet_log (lvl : Level) (msg : LogMsg) :
  P (EvLog lvl msg) -> quiet P (log lvl msg).
Proof. apply quiet_record. Qed.

Lemma quiet_out_of_fuel {A} : quiet P (fun w => @OutOfFuel A w).
Proof. intros w. exists []. now repeat split. Qed.

Lemma quiet_now : quiet P (datetime_now E).
Proof. intros w. exists []. now repeat split. Qed.

Lemma quiet_get_last : quiet P get_last_notification.
Proof. intros w. exists []. now repeat split. Qed.

Lemma quiet_sleep (s : Z) : P (EvSleep s) -> quiet P (time_sleep E s).
Proof.
  intros He w. unfold time_sleep. destruct (s <? 0)%Z.
  - exists []. now repeat split.
  - exists [EvSleep s].
    destruct (sleep_at E (n_sleep w)); repeat split; now constructor.
Qed.

Lemma quiet_request (m : Method) :
  P (EvRequest m) -> quiet P (session_request E m).
Proof.
  intros He w. exists [EvRequest m]. unfold session_request.
  destruct (http_at E (n_http w) m); repeat split; now constructor.
Qed.

Lemma quiet_post (c : string) (h : TelegramHeader) (msg : string) :
  P (EvPost c h msg) -> quiet P (requests_post E c h msg).
Proof.
  intros He w. exists [EvPost c h msg]. unfold requests_post.
  destruct (post_at E (n_post w)); repeat split; now constructor.
Qed.

Lemma local_request (m : Method) : local (session_request E m).
Proof.
  intros w1 w2 H. unfold session_request. rewrite H.
  destruct (http_at E (n_http w2) m); cbn; auto using f_equal.
Qed.

End Primitive_facts.

(** Case analysis on the value a program branches on. *)
Ltac branch :=
  match goal with
  | |- quiet _ (match ?x with _ => _ end) => destruct x
  | |- quiet _ (fun w => match ?x with _ => _ end w) => destruct x
  | |- local (match ?x with _ => _ end) => destruct x
  | |- returns (match ?x with _ => _ end) => destruct x
  end.

Ltac quiet_step :=
  first
    [ apply quiet_ret
    | apply quiet_now
    | apply quiet_get_last
    | apply quiet_out_of_fuel
    | apply quiet_log; cbn; solve [auto]
    | apply quiet_record; cbn; solve [auto]
    | apply quiet_sleep; cbn; solve [auto]
    | apply quiet_request; cbn; solve [auto]
    | apply quiet_post; cbn; solve [auto]
    | apply quiet_bind; [|intros ?]
    | branch ].

Ltac local_step :=
  first
    [ apply local_ret
    | apply local_request
    | apply local_bind; [|intros ?]
    | branch ].


Section Returns.
Context {A B : Type}.

Lemma returns_ret (a : A) : returns (ret a).
Proof. intros w. now exists a, w. Qed.

Lemma returns_bind (m : M A) (k : A -> M B) :
  returns m -> (forall a, returns (k a)) -> returns (bind m k).
Proof.
  intros Hm Hk w. destruct (Hm w) as (a & w1 & H).
  rewrite (bind_Ret _ _ _ _ _ H). apply Hk.
Qed.

End Returns.

Lemma returns_request (E : Env) (m : Method) :
  (forall k m, http_at E k m <> HttpInterrupted) ->
  returns (session_request E m).
Proof.
  intros H w. unfold session_request. specialize (H (n_http w) m).
  destruct (http_at E (n_http w) m); [now eexists; eexists ..|contradiction].
Qed.

Lemma count_heads_app (t1 t2 : list Event) :
  count_heads (t1 ++ t2) = (count_heads t1 + count_heads t2)%nat.
Proof.
  induction t1 as [|e t1 IH]; [reflexivity|].
  cbn [app count_heads]. destruct e as [[]| | | |]; cbn; now rewrite IH.
Qed.

Lemma count_heads_get (t : list Event) : Forall is_get t -> count_heads t = O.
Proof.
  induction 1 as [|e t He _ IH]; [reflexivity|].
  destruct e as [[]| | | |]; cbn in *; auto; contradiction.
Qed.

Section ProbeWorld.
Variable E : Env.
Variable self : SiteChecker.

Lemma local_check_once : local (check_once E self).
Proof. unfold check_once, _try_head, _try_get. repeat local_step. Qed.

Lemma quiet_try_get : quiet is_get (_try_get E).
Proof. unfold _try_get. repeat quiet_step. Qed.

Lemma try_head_world (w : World) :
  world_of (_try_head E w) = after_request HEAD w.
Proof.
  unfold _try_head, bind, session_request.
  destruct (http_at E (n_http w) HEAD) as [r| |]; try reflexivity.
  now destruct (status_code r =? 405)%Z.
Qed.

(** A probe issues exactly one HEAD request, however it ends. *)
Lemma check_once_one_head (w : World) :
  probes_issued (world_of (check_once E self w)) = S (probes_issued w).
Proof.
  unfold check_once, bind, probes_issued.
  pose proof (try_head_world w) as Hw.
  destruct (_try_head E w) as [[[head_ok head_resp] err] w1|e w1|w1];
    cbn [world_of] in *; subst w1; try reflexivity.
  assert (Hq : forall (m : M CheckResult), quiet is_get m ->
            count_heads (trace (world_of (m (after_request HEAD w))))
            = S (count_heads (trace w))).
  { intros m Hm. destruct (Hm (after_request HEAD w)) as (new & -> & Hn & _).
    rewrite count_heads_app, (count_heads_get _ Hn). reflexivity. }
  apply Hq. pose proof quiet_try_get.
  repeat first [ apply quiet_ret | apply quiet_bind; [assumption|intros ?]
               | branch ].
Qed.

Lemma check_once_returns :
  (forall k m, http_at E k m <> HttpInterrupted) ->
  returns (check_once E self).
Proof.
  intros H. unfold check_once, _try_head, _try_get.
  repeat first [ apply returns_ret | apply returns_request; assumption
               | apply returns_bind; [|intros ?]
               | branch ].
Qed.

Lemma probes_step (n : nat) (w w1 : World) (res : CheckResult) :
  check_once E self w = Ret res w1 ->
  probes E self (S n) (n_http w) = res :: probes E self n (n_http w1).
Proof.
  intros H. cbn [probes].
  pose proof (local_check_once (at_request (n_http w)) w eq_refl) as Hl.
  rewrite H in Hl.
  destruct (check_once E self (at_request (n_http w))); cbn in Hl;
    try contradiction.
  now destruct Hl as [-> ->].
Qed.

Lemma probes_length (n k : nat) :
  (forall k m, http_at E k m <> HttpInterrupted) ->
  length (probes E self n k) = n.
Proof.
  intros H. revert k; induction n as [|n IH]; intros k; [reflexivity|].
  cbn [probes]. destruct (check_once_returns H (at_request k)) as (a & w' & ->).
  cbn. now rewrite IH.
Qed.

Lemma probes_firstn (n m k : nat) :
  (n <= m)%nat -> probes E self n k = firstn n (probes E self m k).
Proof.
  revert m k; induction n as [|n IH]; intros m k Hle; [reflexivity|].
  destruct m as [|m]; [lia|]. cbn [probes].
  destruct (check_once E self (at_request k)); [|reflexivity..].
  cbn [firstn]. f_equal. apply IH. lia.
Qed.

End ProbeWorld.

(** ** [check_with_confirmation] *)

Lemma last_cons {A} (a d : A) (l : list A) : List.last (a :: l) d = List.last l a.
Proof.
  revert a d; induction l as [|b l IH]; intros a d; [reflexivity|].
  change (List.last (a :: b :: l) d) with (List.last (b :: l) d).
  now rewrite !IH.
Qed.

Section Confirmation.
Variable E : Env.
Variable self : SiteChecker.
Variables retries delay max_attempts : Z.
Hypothesis Hrun : uninterrupted E.
Hypothesis Hdelay : 0 <= delay.

Lemma confirm_loop_spec (fuel : nat) :
  forall (attempts successes : Z) (last_info : string) (w : World),
    (Z.to_nat (max_attempts - attempts) <= fuel)%nat ->
    exists (n : nat) (w' : World),
      let outs := probes E self n (n_http w) in
      let ups := map up outs in
      confirm_loop E self fuel retries delay max_attempts attempts successes
        last_info w
      = Ret ((retries <=? counter_from successes ups)%Z,
             last_reason last_info outs) w'
      /\ (n <= Z.to_nat (max_attempts - attempts))%nat
      /\ (forall j, (j < n)%nat ->
            counter_from successes (firstn j ups) < retries)
      /\ (retries <= counter_from successes ups \/
          n = Z.to_nat (max_attempts - attempts))
      /\ probes_issued w' = (probes_issued w + n)%nat.
Proof.
  destruct Hrun as [Hsleep Hhttp].
  assert (Hnonneg : (delay <? 0)%Z = false) by lia.
  induction fuel as [|fuel' IH]; intros attempts successes last_info w Hfuel;
    cbn [confirm_loop];
    destruct ((attempts <? max_attempts)%Z && (successes <? retries)%Z)
      eqn:Hguard.
  - apply andb_true_iff in Hguard as [Ha _]. apply Z.ltb_lt in Ha. lia.
  - exists O, w. cbn. repeat split; lia.
  - apply andb_true_iff in Hguard as [Ha Hs].
    apply Z.ltb_lt in Ha. apply Z.ltb_lt in Hs.
    destruct (check_once_returns E self Hhttp w) as ([[ok info] code] & w1 & Hc).
    pose proof (check_once_one_head E self w) as Hheads.
    rewrite Hc in Hheads. cbn [world_of] in Hheads.
    rewrite (bind_Ret _ _ _ _ _ Hc).
    set (s' := counter_step successes ok).
    assert (Hloop : forall w2 : World,
      n_http w2 = n_http w1 -> probes_issued w2 = probes_issued w1 ->
      exists (n : nat) (w' : World),
        let outs := probes E self n (n_http w) in
        let ups := map up outs in
        confirm_loop E self fuel' retries delay max_attempts (attempts + 1) s'
          info w2
        = Ret ((retries <=? counter_from successes ups)%Z,
               last_reason last_info outs) w'
        /\ (n <= Z.to_nat (max_attempts - attempts))%nat
        /\ (forall j, (j < n)%nat ->
              counter_from successes (firstn j ups) < retries)
        /\ (retries <= counter_from successes ups \/
            n = Z.to_nat (max_attempts - attempts))
        /\ probes_issued w' = (probes_issued w + n)%nat).
    { intros w2 Hk Hp.
      destruct (IH (attempts + 1) s' info w2 ltac:(lia))
        as (n & w' & Heq & Hn & Hmin & Hend & Hcount).
      exists (S n), w'. cbn zeta in *.
      rewrite (probes_step E self n w w1 _ Hc), <- Hk.
      cbn [map up fst firstn]. unfold last_reason. cbn [map reason fst snd].
      rewrite last_cons. fold (last_reason info (probes E self n (n_http w2))).
      change (counter_from successes (ok :: ?l)) with (counter_from s' l).
      repeat split.
      - exact Heq.
      - lia.
      - intros [|j] Hj; [cbn; lia|].
        cbn [firstn]. change (counter_from successes (ok :: ?l))
          with (counter_from s' l). apply Hmin. lia.
      - destruct Hend as [H|H]; [now left | right; lia].
      - rewrite Hcount, Hp, Hheads. lia. }
    cbn beta iota. unfold bind, log, record, ret, time_sleep.
    rewrite Hnonneg.
    destruct ok; [|destruct (successes =? 0)%Z]; cbn beta iota;
      match goal with
      | |- context [(?s <? retries)%Z] =>
          change s with s'; destruct (s' <? retries)%Z
      end;
      cbn beta iota; rewrite ?Hsleep; apply Hloop; reflexivity.
  - exists O, w. cbn. repeat split; lia.
Qed.

End Confirmation.

Lemma counter_from_app (c : Z) (l1 l2 : list bool) :
  counter_from c (l1 ++ l2) = counter_from (counter_from c l1) l2.
Proof. apply fold_left_app. Qed.

(** The counter grows by at most one per probe: if it stayed below [retries]
    before each of the probes, it is at most [retries] after the last. *)
Lemma counter_from_bound (retries : Z) (ups : list bool) :
  0 <= retries ->
  (forall j, (j < length ups)%nat -> counter_from 0 (firstn j ups) < retries) ->
  counter_from 0 ups <= retries.
Proof.
  intros Hr Hmin. destruct (length ups) as [|m] eqn:Hlen.
  - destruct ups; [cbn; lia | discriminate].
  - rewrite <- (firstn_skipn m ups), counter_from_app.
    specialize (Hmin m ltac:(lia)).
    assert (Hs : length (skipn m ups) = 1%nat) by (rewrite length_skipn; lia).
    destruct (skipn m ups) as [|x [|y l]]; try discriminate.
    cbn. destruct x; cbn; lia.
Qed.

(** C4. With [retries >= 1], a delay that [time.sleep] accepts and no
    interrupt, [check_with_confirmation]
    issues [n] probes, [1 <= n <= 2 * retries], where the
    consecutive-success counter (0 at the start, one more on UP, 0 again on
    DOWN) stays below [retries] before each of them; it stops either with the
    counter at [retries], returning [True], or after [2 * retries] probes
    with the counter below [retries], returning [False]; and it returns the
    reason of the last probe.  With [retries = 3], the outcomes
    UP,UP,DOWN,UP,UP,UP confirm at the 6th probe and the outcomes
    UP,DOWN,UP,DOWN,UP,DOWN do not confirm. *)
Theorem check_with_confirmation_counts (E : Env) (self : SiteChecker)
    (retries delay : Z) (w : World) :
  1 <= retries ->
  0 <= delay ->
  uninterrupted E ->
  exists (n : nat) (w' : World),
    let outs := probes E self n (n_http w) in
    let c := counter_from 0 (map up outs) in
    check_with_confirmation E self retries delay w
    = Ret ((c =? retries)%Z, last_reason "" outs) w'
    /\ probes_issued w' = (probes_issued w + n)%nat
    /\ length outs = n
    /\ (1 <= n)%nat /\ Z.of_nat n <= 2 * retries
    /\ (forall j, (j < n)%nat ->
          counter_from 0 (firstn j (map up outs)) < retries)
    /\ (c = retries \/ (Z.of_nat n = 2 * retries /\ c < retries))
    /\ (retries = 3 ->
        map up (probes E self 6 (n_http w))
        = [true; true; false; true; true; true] ->
        n = 6%nat /\ c = 3)
    /\ (retries = 3 ->
        map up (probes E self 6 (n_http w))
        = [true; false; true; false; true; false] ->
        n = 6%nat /\ c < 3).
Proof.
  intros Hr Hdelay Hrun. unfold check_with_confirmation.
  destruct (confirm_loop_spec E self retries delay (retries * 2) Hrun Hdelay
              (Z.to_nat (retries * 2)) 0 0 "" w)
    as (n & w' & Heq & Hn & Hmin & Hend & Hcount).
  { rewrite Z.sub_0_r. lia. }
  cbn zeta in *. rewrite Z.sub_0_r in *.
  exists n, w'.
  assert (Hlen : length (probes E self n (n_http w)) = n)
    by (apply probes_length, Hrun).
  remember (probes E self n (n_http w)) as outs eqn:Houts.
  remember (counter_from 0 (map up outs)) as c eqn:Hcdef.
  assert (Hc : c <= retries).
  { subst c. apply counter_from_bound; [lia|].
    rewrite length_map, Hlen. exact Hmin. }
  assert (Hn1 : (1 <= n)%nat).
  { destruct n; [|lia]. subst c outs. cbn in Hend. lia. }
  assert (Hex : forall ups6 : list bool,
            retries = 3 -> map up (probes E self 6 (n_http w)) = ups6 ->
            (n <= 6)%nat /\ c = counter_from 0 (firstn n ups6)).
  { intros ups6 -> <-. split; [lia|]. subst c outs.
    rewrite (probes_firstn E self n 6) by lia. now rewrite firstn_map. }
  assert (Hex1 : retries = 3 ->
            map up (probes E self 6 (n_http w))
            = [true; true; false; true; true; true] -> n = 6%nat /\ c = 3).
  { intros H3 H6. destruct (Hex _ H3 H6) as [Hle Hcv]. subst retries.
    do 7 (destruct n as [|n]; [cbn in Hcv; lia|]). lia. }
  assert (Hex2 : retries = 3 ->
            map up (probes E self 6 (n_http w))
            = [true; false; true; false; true; false] -> n = 6%nat /\ c < 3).
  { intros H3 H6. destruct (Hex _ H3 H6) as [Hle Hcv]. subst retries.
    do 7 (destruct n as [|n]; [cbn in Hcv; lia|]). lia. }
  replace ((c =? retries)%Z) with ((retries <=? c)%Z) by lia.
  repeat apply conj; try assumption; lia.
Qed.

Lemma scripted_uninterrupted (ups : list bool) : uninterrupted (Ex.scripted ups).
Proof. split; [reflexivity | intros k m; discriminate]. Qed.

Lemma check_with_confirmation_counts_witness :
  1 <= 3 /\ 0 <= 5 /\
  uninterrupted (Ex.scripted [true; true; false; true; true; true]) /\
  exists (n : nat) (w' : World),
    n = 6%nat /\
    probes_issued w' = 6%nat /\
    check_with_confirmation
      (Ex.scripted [true; true; false; true; true; true]) Ex.site 3 5 world0
    = Ret (true, "HTTP 302") w'.
Proof.
  split; [lia|]. split; [lia|]. split; [apply scripted_uninterrupted|].
  destruct (check_with_confirmation_counts
              (Ex.scripted [true; true; false; true; true; true]) Ex.site 3 5
              world0 ltac:(lia) ltac:(lia) (scripted_uninterrupted _))
    as (n & w' & Heq & Hcount & _ & _ & _ & _ & _ & Hex & _).
  destruct (Hex eq_refl eq_refl) as [Hn Hc].
  exists n, w'. split; [exact Hn|]. split; [now rewrite Hcount, Hn|].
  rewrite Heq, Hc. subst n. reflexivity.
Defined.

(** C9. With [retries = 0] the loop body never runs:
    [check_with_confirmation] returns [(True, "")] and leaves the world as
    it was, so no probe is issued. *)
Theorem check_with_confirmation_zero_retries (E : Env) (self : SiteChecker)
    (delay : Z) (w : World) :
  check_with_confirmation E self 0 delay w = Ret (true, "") w.
Proof.
  unfold check_with_confirmation.
  (* max_attempts = 0 * 2 = 0: the guard 0 < 0 fails before any iteration *)
  change (Z.to_nat (0 * 2)) with O. cbn [confirm_loop].
  change ((0 <? 0 * 2)%Z && (0 <? 0)%Z) with false.
  reflexivity.
Qed.

Lemma check_once_keyword_is_down_witness :
  exists kw' w',
    In kw' DOWN_KEYWORDS /\
    occurs_ci kw' "Site en cours de MAINTENANCE" /\
    check_once (Ex.steady 200 "Site en cours de MAINTENANCE" 200) Ex.site world0
    = Ret (false,
           "HTTP " ++ Str.of_Z 200 ++ " but " ++
           "Page contains '" ++ kw' ++ "'",
           Some 200) w'.
Proof.
  apply (check_once_keyword_is_down
           (Ex.steady 200 "Site en cours de MAINTENANCE" 200) Ex.site world0
           200 {| status_code := 200;
                  text := Some "Site en cours de MAINTENANCE" |}
           "Site en cours de MAINTENANCE" "en cours de maintenance").
  - reflexivity.
  - now left.
  - vm_compute. reflexivity.
  - eapply probed_head; reflexivity.
  - reflexivity.
  - cbn. tauto.
  - exists "Site ", "en cours de MAINTENANCE", "". split; reflexivity.
Defined.

Lemma check_once_get_failure_drops_code_witness :
  exists reason,
    check_once (Ex.get_times_out 401) Ex.site world0
    = Ret (false, reason, None)
          (after_request GET (after_request HEAD world0)).
Proof.
  apply (check_once_get_failure_drops_code (Ex.get_times_out 401) Ex.site
           world0 {| status_code := 401; text := Some "" |}
           {| exc_class := ReadTimeout; exc_str := "timed out" |}).
  - reflexivity.
  - reflexivity.
  - now right.
  - vm_compute. reflexivity.
  - reflexivity.
Defined.

(** C2 (the code departs from the claim).  The site rejects HEAD with 405
    and answers GET with 302, an accepted code other than 200 and 401, and a
    body that mentions maintenance: on the fall-back path the body is
    scanned and the probe is DOWN.  The same 302 answered to HEAD is UP,
    without any GET. *)
Theorem check_once_fallback_scans_redirect :
  check_once (Ex.no_head 302 "Moved to /maintenance.html") Ex.site world0
  = Ret (false, "HTTP 302 but Page contains 'maintenance'", Some 302)
        (after_request GET (after_request HEAD world0))
  /\
  check_once (Ex.steady 302 "Moved to /maintenance.html" 200) Ex.site world0
  = Ret (true, "HTTP 302", Some 302) (after_request HEAD world0).
Proof. split; vm_compute; reflexivity. Qed.

(** ** Events of the checker and of the notifier *)

Section Events.
Variable E : Env.

Lemma quiet_check_once (self : SiteChecker) :
  quiet checker_event (check_once E self).
Proof. unfold check_once, _try_head, _try_get. repeat quiet_step. Qed.

Lemma quiet_confirm_loop (self : SiteChecker) (fuel : nat) :
  forall retries delay max_attempts attempts successes last_info,
    quiet checker_event
      (confirm_loop E self fuel retries delay max_attempts attempts successes
         last_info).
Proof.
  induction fuel as [|fuel IH]; intros; cbn [confirm_loop].
  - repeat quiet_step.
  - pose proof (quiet_check_once self).
    repeat first [ apply IH | assumption | quiet_step ].
Qed.

Lemma quiet_check_with_confirmation (self : SiteChecker) (retries delay : Z) :
  quiet checker_event (check_with_confirmation E self retries delay).
Proof. apply quiet_confirm_loop. Qed.

Lemma quiet_notify_attempts (self : TelegramHandler) (todo : nat) :
  forall attempt retries msg_num header message success,
    quiet telegram_event
      (notify_attempts E self todo attempt retries msg_num header message
         success).
Proof.
  induction todo as [|todo IH]; intros; cbn [notify_attempts].
  - repeat quiet_step.
  - repeat first [ apply IH | quiet_step ].
Qed.

Lemma quiet_notify_messages (self : TelegramHandler) (todo : nat) :
  forall msg_num retries message success,
    quiet telegram_event
      (notify_messages E self todo msg_num retries message success).
Proof.
  induction todo as [|todo IH]; intros; cbn [notify_messages].
  - repeat quiet_step.
  - pose proof (quiet_notify_attempts self).
    repeat first [ apply IH | apply H | quiet_step ].
Qed.

End Events.

(** ** The notifier *)

Section Safe.
Context {A B : Type}.

Lemma safe_ret (a : A) : safe (ret a).
Proof. now intros w. Qed.

Lemma safe_bind (m : M A) (k : A -> M B) :
  safe m -> (forall a, safe (k a)) -> safe (bind m k).
Proof.
  intros Hm Hk w. specialize (Hm w). unfold bind.
  destruct (m w) as [a w1|[] w1|w1]; [apply Hk | exact I | contradiction..].
Qed.

End Safe.

Section Safe_primitives.
Variable E : Env.

Lemma safe_record (e : Event) : safe (record e).
Proof. now intros w. Qed.

Lemma safe_sleep (s : Z) : 0 <= s -> safe (time_sleep E s).
Proof.
  intros Hs w. unfold time_sleep. replace (s <? 0)%Z with false by lia.
  now destruct (sleep_at E (n_sleep w)).
Qed.

Lemma safe_request (m : Method) : safe (session_request E m).
Proof.
  intros w. unfold session_request. now destruct (http_at E (n_http w) m).
Qed.

Lemma safe_post (c : string) (h : TelegramHeader) (msg : string) :
  safe (requests_post E c h msg).
Proof.
  intros w. unfold requests_post. now destruct (post_at E (n_post w)).
Qed.

End Safe_primitives.

Ltac safe_step :=
  first
    [ apply safe_ret | apply safe_record | apply safe_sleep; lia
    | apply safe_request | apply safe_post | apply safe_bind; [|intros ?]
    | match goal with
      | |- safe (match ?x with _ => _ end) => destruct x
      end ].

(** The fuel given to the loop of [check_with_confirmation] is enough in
    every environment, and nothing but an interrupt can stop it when the
    delay is one that [time.sleep] accepts. *)
Section Safe_checker.
Variable E : Env.
Variable self : SiteChecker.

Lemma safe_check_once : safe (check_once E self).
Proof. unfold check_once, _try_head, _try_get. repeat safe_step. Qed.

Lemma safe_confirm_loop (retries delay max_attempts : Z) (fuel : nat) :
  0 <= delay ->
  forall attempts successes last_info,
    (Z.to_nat (max_attempts - attempts) <= fuel)%nat ->
    safe (confirm_loop E self fuel retries delay max_attempts attempts
            successes last_info).
Proof.
  intros Hdelay. induction fuel as [|fuel IH]; intros attempts successes
    last_info Hfuel; cbn [confirm_loop];
    destruct (attempts <? max_attempts)%Z eqn:Ha; cbn [andb];
    try (destruct (successes <? retries)%Z); try apply safe_ret.
  - lia.
  - pose proof safe_check_once. unfold log.
    repeat first [ apply IH; lia | assumption | safe_step ].
Qed.

Lemma safe_check_with_confirmation (retries delay : Z) :
  0 <= delay -> safe (check_with_confirmation E self retries delay).
Proof.
  intros Hdelay. unfold check_with_confirmation.
  apply safe_confirm_loop; [assumption|]. rewrite Z.sub_0_r. lia.
Qed.

End Safe_checker.

Section Notifier.
Variable E : Env.
Variable self : TelegramHandler.

Lemma safe_notify_attempts (todo : nat) :
  forall attempt retries msg_num header message success,
    safe (notify_attempts E self todo attempt retries msg_num header
              message success).
Proof.
  induction todo as [|todo IH]; intros; cbn [notify_attempts]; unfold log.
  - repeat safe_step.
  - repeat first [ apply IH | safe_step ].
Qed.

Lemma safe_notify_messages (todo : nat) :
  forall msg_num retries message success,
    safe (notify_messages E self todo msg_num retries message success).
Proof.
  induction todo as [|todo IH]; intros; cbn [notify_messages].
  - repeat safe_step.
  - pose proof safe_notify_attempts.
    repeat first [ apply IH | apply H | safe_step ].
Qed.

(** [notify] records its entry, then only emits events of the notifier; it
    leaves [last_notification] alone and does not run out of fuel. *)
Lemma notify_trace (message : string) (retries : Z) (w : World) :
  exists new,
    trace (world_of (notify E self message retries w))
    = (new ++ EvNotify message :: trace w)%list /\
    Forall telegram_event new /\
    last_notification (world_of (notify E self message retries w))
    = last_notification w /\
    match notify E self message retries w with
    | OutOfFuel _ | Raise ValueError _ => False
    | _ => True
    end.
Proof.
  set (body := if negb (is_configured self)
               then do log ERROR LogTelegramNotConfigured then ret false
               else notify_messages E self (Z.to_nat (spam_count self)) 0
                      retries message false).
  change (notify E self message retries w)
    with (body (emit (EvNotify message) w)).
  assert (Hq : quiet telegram_event body).
  { subst body. pose proof (quiet_notify_messages E self).
    repeat first [ apply H | quiet_step ]. }
  assert (Hf : safe body).
  { subst body. pose proof safe_notify_messages. unfold log.
    repeat first [ apply H | safe_step ]. }
  destruct (Hq (emit (EvNotify message) w)) as (new & Ht & HP & Hl).
  exists new. repeat split; try assumption.
  exact (Hf (emit (EvNotify message) w)).
Qed.

End Notifier.

Lemma telegram_event_plain (e : Event) : telegram_event e -> plain e.
Proof. destruct e as [| | | |lvl []]; cbn; auto. Qed.

Lemma checker_event_plain (e : Event) : checker_event e -> plain e.
Proof. destruct e as [| | | |lvl []]; cbn; auto. Qed.

Lemma notify_calls_app (t1 t2 : list Event) :
  notify_calls (t1 ++ t2) = (notify_calls t1 + notify_calls t2)%nat.
Proof.
  induction t1 as [|e t1 IH]; [reflexivity|].
  cbn [app notify_calls]. destruct e; cbn; now rewrite IH.
Qed.

Lemma notify_calls_plain (t : list Event) :
  Forall plain t -> notify_calls t = O.
Proof.
  induction 1 as [|e t He _ IH]; [reflexivity|].
  destruct e; cbn in *; auto; contradiction.
Qed.

Lemma no_skip_plain (t : list Event) :
  Forall plain t -> forall lvl rem, ~ In (EvLog lvl (LogSkippingNotify rem)) t.
Proof.
  intros H lvl rem Hin. exact (proj1 (List.Forall_forall _ _) H _ Hin).
Qed.

(** ** One notification per run *)

Lemma telegram_events_plain (t : list Event) :
  Forall telegram_event t -> Forall plain t.
Proof. induction 1; constructor; auto using telegram_event_plain. Qed.

Section OneShot.
Variable E : Env.
Variable self : SiteMonitor.

Lemma one_shot_bind_quiet {A} (m : M A) (k : A -> M Z) :
  quiet plain m -> (forall a, one_shot (k a)) -> one_shot (bind m k).
Proof.
  intros Hm Hk w Hnone. destruct (Hm w) as (new1 & Ht1 & HP1 & Hl1).
  unfold bind. destruct (m w) as [a w1|e w1|w1]; cbn [world_of] in *.
  - destruct (Hk a w1) as (new2 & Ht2 & Hskip & Hcases); [congruence|].
    exists (new2 ++ new1)%list. split; [now rewrite Ht2, Ht1, app_assoc|].
    split.
    + intros lvl rem Hin. apply in_app_or in Hin as [Hin|Hin].
      * exact (Hskip _ _ Hin).
      * exact (no_skip_plain _ HP1 _ _ Hin).
    + now rewrite notify_calls_app, (notify_calls_plain _ HP1), Nat.add_0_r.
  - exists new1. split; [exact Ht1|]. split; [now apply no_skip_plain|].
    left. rewrite (notify_calls_plain _ HP1).
    repeat split; cbn [world_of]; congruence.
  - exists new1. split; [exact Ht1|]. split; [now apply no_skip_plain|].
    left. rewrite (notify_calls_plain _ HP1).
    repeat split; cbn [world_of]; congruence.
Qed.

Lemma one_shot_ret_1 : one_shot (ret 1).
Proof.
  intros w Hnone. exists []. split; [reflexivity|]. split; [now intros|].
  left. repeat split; [assumption | discriminate].
Qed.

Lemma one_shot_out_of_fuel : one_shot (fun w => OutOfFuel w).
Proof.
  intros w Hnone. exists []. split; [reflexivity|]. split; [now intros|].
  left. repeat split; [assumption | discriminate].
Qed.

(** With [last_notification] unset the cooldown check passes: the block
    notifies, sets [last_notification] and returns 0. *)
Lemma on_confirmed_unset (cinfo : string) (continue : M Z) (w : World) :
  last_notification w = None ->
  on_confirmed E self cinfo continue w
  = (let* now := datetime_now E in
     let* _ := notify E (telegram self) (reachable_message self cinfo) 3 in
     do set_last_notification (Some now) then ret 0) w.
Proof.
  intros Hnone. unfold on_confirmed, bind at 1 3, datetime_now.
  unfold bind at 1, get_last_notification.
  change (last_notification (after_now w)) with (last_notification w).
  now rewrite Hnone.
Qed.

Lemma one_shot_on_confirmed (cinfo : string) (continue : M Z) :
  one_shot (on_confirmed E self cinfo continue).
Proof.
  intros w Hnone. rewrite (on_confirmed_unset _ _ _ Hnone).
  unfold bind at 1, datetime_now.
  destruct (notify_trace E (telegram self) (reachable_message self cinfo) 3
              (after_now w)) as (new & Ht & HP & Hl & Hfuel).
  unfold bind at 1.
  destruct (notify E (telegram self) (reachable_message self cinfo) 3
              (after_now w)) as [b w1|e w1|w1]; cbn [world_of] in *.
  - exists (new ++ [EvNotify (reachable_message self cinfo)])%list.
    cbn. rewrite Ht, <- app_assoc. split; [reflexivity|]. split.
    + intros lvl rem Hin. apply in_app_or in Hin as [Hin|[Hin|[]]].
      * exact (no_skip_plain _ (telegram_events_plain _ HP)
                 _ _ Hin).
      * discriminate.
    + right. rewrite notify_calls_app.
      rewrite (notify_calls_plain new)
        by exact (telegram_events_plain _ HP).
      split; [reflexivity|]. left. eexists. split; [reflexivity|].
      cbn. discriminate.
  - destruct e; [|contradiction].
    exists (new ++ [EvNotify (reachable_message self cinfo)])%list.
    cbn [world_of]. rewrite Ht, <- app_assoc. split; [reflexivity|]. split.
    + intros lvl rem Hin. apply in_app_or in Hin as [Hin|[Hin|[]]].
      * exact (no_skip_plain _ (telegram_events_plain _ HP)
                 _ _ Hin).
      * discriminate.
    + right. rewrite notify_calls_app.
      rewrite (notify_calls_plain new)
        by exact (telegram_events_plain _ HP).
      split; [reflexivity|]. right. eexists. split; [reflexivity|].
      rewrite Hl. exact Hnone.
  - contradiction.
Qed.

Lemma quiet_should_stop : quiet plain (_should_stop E self).
Proof. unfold _should_stop. repeat quiet_step. Qed.

Lemma one_shot_run_loop (fuel : nat) :
  forall last_state check_count,
    one_shot (run_loop E self fuel last_state check_count).
Proof.
  induction fuel as [|fuel IH]; intros; cbn [run_loop].
  - apply one_shot_out_of_fuel.
  - pose proof quiet_should_stop as Hstop.
    pose proof (quiet_weaken plain checker_event _ checker_event_plain
                  (quiet_check_once E (checker self))) as Hprobe.
    pose proof (quiet_weaken plain checker_event _ checker_event_plain
                  (quiet_check_with_confirmation E (checker self)
                     (retries self) (retry_delay self))) as Hconfirm.
    repeat first
      [ apply IH | apply one_shot_ret_1 | apply one_shot_on_confirmed
      | apply one_shot_bind_quiet;
          [first [assumption | solve [repeat quiet_step]] | intros ?]
      | match goal with
        | |- one_shot (match ?x with _ => _ end) => destruct x
        end ].
Qed.

End OneShot.

Section RunPost.
Variable E : Env.
Variable self : SiteMonitor.

Lemma run_post_bind_quiet {A} (m : M A) (k : A -> M Z) :
  quiet plain m ->
  (forall a w, last_notification w = None -> run_post w (k a w)) ->
  forall w, last_notification w = None -> run_post w (bind m k w).
Proof.
  intros Hm Hk w Hnone. destruct (Hm w) as (new1 & Ht1 & HP1 & Hl1).
  pose proof (notify_calls_plain _ HP1) as H0.
  unfold bind. destruct (m w) as [a w1|e w1|w1]; cbn [world_of] in *.
  - destruct (Hk a w1) as (new2 & Ht2 & Hskip & Hle & Hlast & Hret & Hzero);
      [congruence|].
    exists (new2 ++ new1)%list.
    rewrite notify_calls_app, H0, Nat.add_0_r.
    split; [now rewrite Ht2, Ht1, app_assoc|].
    split; [|now repeat split].
    intros lvl rem Hin. apply in_app_or in Hin as [Hin|Hin].
    + exact (Hskip _ _ Hin).
    + exact (no_skip_plain _ HP1 _ _ Hin).
  - exists new1. rewrite H0. cbn [world_of].
    split; [exact Ht1|]. split; [now apply no_skip_plain|].
    split; [lia|]. split; [left; congruence|]. split; [lia|discriminate].
  - exists new1. rewrite H0. cbn [world_of].
    split; [exact Ht1|]. split; [now apply no_skip_plain|].
    split; [lia|]. split; [left; congruence|]. split; [lia|discriminate].
Qed.

Lemma run_post_catch (body : M Z) (w : World) :
  one_shot_post w (body w) ->
  run_post w
    (catch_KeyboardInterrupt body
       (do log INFO LogStoppedByUser then ret 1) w).
Proof.
  intros (new & Ht & Hskip & Hcases). unfold catch_KeyboardInterrupt.
  destruct (body w) as [c w1|e w1|w1]; cbn [world_of] in *.
  - exists new. split; [exact Ht|]. split; [exact Hskip|].
    destruct Hcases as [(H0 & Hl & Hne)|(H1 & [(w' & Hr & Hl)|(w' & Hr & _)])];
      [| |discriminate].
    + rewrite H0. split; [lia|]. split; [now left|]. split; [lia|].
      intros w' Hw'. now destruct (Hne w').
    + rewrite H1. split; [lia|]. split; [right; eauto|]. split; eauto.
  - destruct e.
    + exists (EvLog INFO LogStoppedByUser :: new). cbn. rewrite Ht.
      split; [reflexivity|]. split.
      { intros lvl rem [Hin|Hin]; [discriminate | exact (Hskip _ _ Hin)]. }
      destruct Hcases
        as [(H0 & Hl & _)|(H1 & [(w' & Hr & _)|(w' & Hr & Hl)])];
        [| discriminate |].
      * rewrite H0.
        split; [lia|]. split; [now left|]. split; [lia|discriminate].
      * injection Hr as <-. rewrite H1.
        split; [lia|]. split; [now left|]. split; [eauto|discriminate].
    + exists new. split; [exact Ht|]. split; [exact Hskip|].
      destruct Hcases as [(H0 & Hl & _)|(H1 & [(w' & Hr & _)|(w' & Hr & _)])];
        [| discriminate | discriminate].
      rewrite H0. split; [lia|]. split; [now left|]. split; [lia|discriminate].
  - exists new. split; [exact Ht|]. split; [exact Hskip|].
    destruct Hcases as [(H0 & Hl & _)|(H1 & [(w' & Hr & _)|(w' & Hr & _)])];
      [| discriminate | discriminate].
    rewrite H0. split; [lia|]. split; [now left|]. split; [lia|discriminate].
Qed.

Lemma run_post_run (fuel : nat) (w : World) :
  last_notification w = None -> run_post w (run E self fuel w).
Proof.
  unfold run. revert w.
  repeat (apply run_post_bind_quiet; [solve [repeat quiet_step]|intros _]).
  intros w Hnone. apply run_post_catch. now apply one_shot_run_loop.
Qed.

End RunPost.

(** ** A granted confirmation is notified *)

Lemma telegram_event_idle (tries : Z) (e : Event) :
  telegram_event e -> idle tries e.
Proof. destruct e as [| | | |lvl []]; cbn; intros H; now try contradiction. Qed.

Lemma telegram_events_idle (tries : Z) (t : list Event) :
  Forall telegram_event t -> Forall (idle tries) t.
Proof. induction 1; constructor; auto using telegram_event_idle. Qed.

Lemma grant_post_prefix (tries : Z) (w w1 : World) (new1 : list Event)
    (r : Result (bool * string)) :
  trace w1 = (new1 ++ trace w)%list ->
  Forall (idle tries) new1 ->
  last_notification w1 = last_notification w ->
  grant_post tries w1 r -> grant_post tries w r.
Proof.
  intros Ht1 HP1 Hl1 (new2 & Ht2 & Hl2 & Hr).
  exists (new2 ++ new1)%list.
  split; [now rewrite Ht2, Ht1, app_assoc|]. split; [congruence|].
  destruct r as [[[] info] w2| |]; try (apply Forall_app; now split).
  destruct Hr as (g & rest & -> & Hg & Hrest).
  exists g, (rest ++ new1)%list. split; [reflexivity|].
  split; [exact Hg|]. apply Forall_app. now split.
Qed.

Section Grants.
Variable E : Env.
Variable self : SiteChecker.
Variables tries delay max_attempts : Z.
Hypothesis Htries : 1 <= tries.

Lemma grants_bind {A} (m : M A) (k : A -> M (bool * string)) :
  quiet (idle tries) m -> (forall a, grants tries (k a)) ->
  grants tries (bind m k).
Proof.
  intros Hm Hk w. destruct (Hm w) as (new1 & Ht1 & HP1 & Hl1).
  unfold bind. destruct (m w) as [a w1|e w1|w1]; cbn [world_of] in *.
  - exact (grant_post_prefix tries w w1 new1 _ Ht1 HP1 Hl1 (Hk a w1)).
  - exists new1. now repeat split.
  - exists new1. now repeat split.
Qed.

Lemma grants_bind_ret {A B} (m : M A) (v : B) (k : B -> M (bool * string)) :
  quiet (idle tries) m -> grants tries (k v) ->
  grants tries (bind (bind m (fun _ => ret v)) k).
Proof.
  intros Hm Hk w. destruct (Hm w) as (new1 & Ht1 & HP1 & Hl1).
  unfold bind, ret. destruct (m w) as [a w1|e w1|w1]; cbn [world_of] in *.
  - exact (grant_post_prefix tries w w1 new1 _ Ht1 HP1 Hl1 (Hk w1)).
  - exists new1. now repeat split.
  - exists new1. now repeat split.
Qed.

Lemma quiet_idle_check_once : quiet (idle tries) (check_once E self).
Proof. unfold check_once, _try_head, _try_get. repeat quiet_step. Qed.

Lemma confirm_loop_granted (fuel : nat) (attempts successes : Z)
    (last_info : string) (w : World) :
  tries <= successes ->
  confirm_loop E self fuel tries delay max_attempts attempts successes
    last_info w = Ret (true, last_info) w.
Proof.
  intros Hs.
  destruct fuel; cbn [confirm_loop];
    replace (successes <? tries)%Z with false by lia;
    rewrite andb_false_r; unfold ret;
    now replace (tries <=? successes)%Z with true by lia.
Qed.

Lemma confirm_loop_grants (fuel : nat) :
  forall attempts successes last_info,
    0 <= successes < tries ->
    grants tries
      (confirm_loop E self fuel tries delay max_attempts attempts successes
         last_info).
Proof.
  induction fuel as [|fuel IH]; intros attempts successes last_info Hs;
    cbn [confirm_loop];
    destruct ((attempts <? max_attempts)%Z && (successes <? tries)%Z)
      eqn:Hguard;
    try (intros w; exists []; unfold ret; cbn;
         replace (tries <=? successes)%Z with false by lia;
         now repeat split).
  apply grants_bind; [apply quiet_idle_check_once|].
  intros [[ok info] code]. destruct ok.
  - destruct (Z.lt_ge_cases (successes + 1) tries) as [Hlt|Hge].
    + apply grants_bind_ret.
      { apply quiet_log. cbn. lia. }
      replace (successes + 1 <? tries)%Z with true by lia.
      apply grants_bind; [apply quiet_sleep; reflexivity|].
      intros _. apply IH. lia.
    + intros w. unfold bind at 1 2. unfold log, record, ret.
      replace (successes + 1 <? tries)%Z with false by lia.
      unfold bind, ret. rewrite confirm_loop_granted by lia.
      eexists [_]. cbn. split; [reflexivity|]. split; [reflexivity|].
      eexists _, []. split; [reflexivity|]. split; [|constructor].
      cbn. lia.
  - apply grants_bind_ret.
    { destruct (successes =? 0)%Z; [apply quiet_ret|].
      apply quiet_log. reflexivity. }
    replace (0 <? tries)%Z with true by lia.
    apply grants_bind; [apply quiet_sleep; reflexivity|].
    intros _. apply IH. lia.
Qed.

End Grants.

Lemma check_with_confirmation_grants (E : Env) (self : SiteChecker)
    (tries delay : Z) :
  1 <= tries -> grants tries (check_with_confirmation E self tries delay).
Proof.
  intros Htries. unfold check_with_confirmation.
  apply confirm_loop_grants; lia.
Qed.

Lemma check_with_confirmation_nothing_to_confirm (E : Env)
    (self : SiteChecker) (tries delay : Z) (w : World) :
  tries <= 0 ->
  check_with_confirmation E self tries delay w = Ret (true, "") w.
Proof.
  intros Hle. unfold check_with_confirmation.
  destruct (Z.to_nat (tries * 2)); cbn [confirm_loop];
    replace (0 <? tries)%Z with false by lia;
    rewrite andb_false_r; unfold ret;
    now replace (tries <=? 0)%Z with true by lia.
Qed.

Section Heralds.
Variable E : Env.
Variable self : SiteMonitor.

Lemma announced_prefix (t pre : list Event) :
  announced (retries self) t -> Forall (idle (retries self)) pre ->
  announced (retries self) (t ++ pre).
Proof.
  intros (tail & msg & g & rest & -> & Hg & Htail & Hrest) Hpre.
  exists tail, msg, g, (rest ++ pre)%list. rewrite <- app_assoc.
  repeat split; auto. apply Forall_app. now split.
Qed.

Lemma heralds_post_prefix (w w1 : World) (pre : list Event) (r : Result Z) :
  trace w1 = (pre ++ trace w)%list ->
  Forall (idle (retries self)) pre ->
  heralds_post (retries self) w1 r -> heralds_post (retries self) w r.
Proof.
  intros Ht1 Hpre (new & Ht & Hcases). exists (new ++ pre)%list.
  split; [now rewrite Ht, Ht1, app_assoc|].
  destruct Hcases as [[Hidle Hne]|[Hann Hr]].
  - left. split; [apply Forall_app; now split|exact Hne].
  - right. split; [now apply announced_prefix|exact Hr].
Qed.

Lemma heralds_bind {A} (m : M A) (k : A -> M Z) :
  quiet (idle (retries self)) m ->
  (forall a, heralds (retries self) (k a)) ->
  heralds (retries self) (bind m k).
Proof.
  intros Hm Hk w Hnone. destruct (Hm w) as (new1 & Ht1 & HP1 & Hl1).
  unfold bind. destruct (m w) as [a w1|e w1|w1]; cbn [world_of] in *.
  - apply (heralds_post_prefix w w1 new1 _ Ht1 HP1).
    apply Hk. congruence.
  - exists new1. split; [exact Ht1|]. left. split; [exact HP1|discriminate].
  - exists new1. split; [exact Ht1|]. left. split; [exact HP1|discriminate].
Qed.

Lemma heralds_ret_1 : heralds (retries self) (ret 1).
Proof.
  intros w _. exists []. split; [reflexivity|]. left.
  split; [constructor|discriminate].
Qed.

Lemma heralds_out_of_fuel : heralds (retries self) (fun w => OutOfFuel w).
Proof.
  intros w _. exists []. split; [reflexivity|]. left.
  split; [constructor|discriminate].
Qed.

(** With [last_notification] unset, the block under [if confirmed:] enters
    the notifier first, and returns 0 with [last_notification] set unless
    the notifier is interrupted. *)
Lemma on_confirmed_notifies (cinfo : string) (continue : M Z) (w : World) :
  last_notification w = None ->
  exists tel,
    trace (world_of (on_confirmed E self cinfo continue w))
    = (tel ++ EvNotify (reachable_message self cinfo) :: trace w)%list /\
    Forall telegram_event tel /\
    ((exists w', on_confirmed E self cinfo continue w = Ret 0 w' /\
                 last_notification w' <> None) \/
     (exists w', on_confirmed E self cinfo continue w
                 = Raise KeyboardInterrupt w')).
Proof.
  intros Hnone. rewrite (on_confirmed_unset _ _ _ _ _ Hnone).
  unfold bind, datetime_now, set_last_notification, ret.
  destruct (notify_trace E (telegram self) (reachable_message self cinfo) 3
              (after_now w)) as (tel & Ht & HP & _ & Hsafe).
  destruct (notify E (telegram self) (reachable_message self cinfo) 3
              (after_now w)) as [b w1|[] w1|w1]; cbn [world_of] in *;
    try contradiction.
  - exists tel. cbn. split; [exact Ht|]. split; [exact HP|].
    left. eexists. split; [reflexivity|]. discriminate.
  - exists tel. split; [exact Ht|]. split; [exact HP|].
    right. now eexists.
Qed.

Lemma heralds_confirming (continue : M Z) :
  heralds (retries self) continue ->
  heralds (retries self)
    (do log INFO LogConfirming then
     let* '(confirmed, cinfo) :=
       check_with_confirmation E (checker self) (retries self)
         (retry_delay self) in
     if confirmed : bool then on_confirmed E self cinfo continue
     else continue).
Proof.
  intros Hcont w Hnone.
  rewrite (bind_Ret (log INFO LogConfirming) _ w
             (emit (EvLog INFO LogConfirming) w) tt eq_refl).
  destruct (Z.le_gt_cases (retries self) 0) as [Hle|Hgt].
  - rewrite (bind_Ret _ _ _ _ _
               (check_with_confirmation_nothing_to_confirm E (checker self)
                  (retries self) (retry_delay self)
                  (emit (EvLog INFO LogConfirming) w) Hle)).
    destruct (on_confirmed_notifies "" continue
                (emit (EvLog INFO LogConfirming) w) Hnone)
      as (tel & Ht & HP & Hr).
    exists (tel ++ [EvNotify (reachable_message self "");
                    EvLog INFO LogConfirming])%list.
    split; [rewrite Ht, <- app_assoc; reflexivity|].
    right. split; [|exact Hr].
    exists tel, (reachable_message self ""), (EvLog INFO LogConfirming), [].
    split; [reflexivity|]. split; [cbn; lia|].
    split; [now apply telegram_events_idle|constructor].
  - assert (Hlog : Forall (idle (retries self)) [EvLog INFO LogConfirming]).
    { constructor; [cbn; lia|constructor]. }
    destruct (check_with_confirmation_grants E (checker self) (retries self)
                (retry_delay self) ltac:(lia)
                (emit (EvLog INFO LogConfirming) w))
      as (newc & Htc & Hlc & Hrc).
    unfold bind.
    destruct (check_with_confirmation E (checker self) (retries self)
                (retry_delay self) (emit (EvLog INFO LogConfirming) w))
      as [[[] cinfo] w2|e w2|w2]; cbn [world_of] in *.
    + destruct Hrc as (g & rest & -> & Hg & Hrest).
      assert (Hn2 : last_notification w2 = None)
        by (rewrite Hlc; exact Hnone).
      destruct (on_confirmed_notifies cinfo continue w2 Hn2)
        as (tel & Ht & HP & Hr).
      exists (tel ++ EvNotify (reachable_message self cinfo) :: g ::
              rest ++ [EvLog INFO LogConfirming])%list.
      split.
      { rewrite Ht, Htc. cbn [trace emit app]. rewrite <- ?app_assoc.
        cbn [app]. rewrite <- ?app_assoc. reflexivity. }
      right. split; [|exact Hr].
      exists tel, (reachable_message self cinfo), g,
        (rest ++ [EvLog INFO LogConfirming])%list.
      split; [reflexivity|]. split; [exact Hg|].
      split; [now apply telegram_events_idle|].
      apply Forall_app. now split.
    + apply (heralds_post_prefix w w2 (newc ++ [EvLog INFO LogConfirming])).
      * rewrite Htc. cbn [trace emit]. now rewrite <- app_assoc.
      * apply Forall_app. now split.
      * apply Hcont. rewrite Hlc. exact Hnone.
    + exists (newc ++ [EvLog INFO LogConfirming])%list.
      split; [cbn [world_of]; rewrite Htc; cbn [trace emit];
              now rewrite <- app_assoc|].
      left. split; [apply Forall_app; now split|discriminate].
    + exists (newc ++ [EvLog INFO LogConfirming])%list.
      split; [cbn [world_of]; rewrite Htc; cbn [trace emit];
              now rewrite <- app_assoc|].
      left. split; [apply Forall_app; now split|discriminate].
Qed.

Lemma heralds_run_loop (fuel : nat) :
  forall last_state check_count,
    heralds (retries self) (run_loop E self fuel last_state check_count).
Proof.
  induction fuel as [|fuel IH]; intros; cbn [run_loop].
  - apply heralds_out_of_fuel.
  - pose proof (quiet_idle_check_once E (checker self) (retries self))
      as Hprobe.
    assert (Hstop : quiet (idle (retries self)) (_should_stop E self))
      by (unfold _should_stop; repeat quiet_step).
    repeat first
      [ apply IH | apply heralds_ret_1 | apply heralds_confirming
      | apply heralds_bind;
          [first [assumption | solve [repeat quiet_step]] | intros ?]
      | match goal with
        | |- heralds _ (match ?x with _ => _ end) => destruct x
        end ].
Qed.

Lemma run_heralds_catch (body : M Z) (w : World) :
  heralds_post (retries self) w (body w) ->
  run_heralds_post (retries self) w
    (catch_KeyboardInterrupt body
       (do log INFO LogStoppedByUser then ret 1) w).
Proof.
  intros (new & Ht & Hcases). unfold catch_KeyboardInterrupt.
  destruct Hcases as [[Hidle Hne]|[Hann [(w' & Hr & Hl)|(w' & Hr)]]].
  - destruct (body w) as [c w1|[] w1|w1]; cbn [world_of] in *.
    + exists new. split; [exact Ht|]. left. now split.
    + exists (EvLog INFO LogStoppedByUser :: new). cbn. rewrite Ht.
      split; [reflexivity|]. left.
      split; [constructor; [reflexivity|exact Hidle]|discriminate].
    + exists new. split; [exact Ht|]. left. now split.
    + exists new. split; [exact Ht|]. left. now split.
  - rewrite Hr in *. exists new. split; [exact Ht|]. right.
    split; [exact Hann|]. left. now exists w'.
  - rewrite Hr in *. cbn [world_of] in Ht.
    exists (EvLog INFO LogStoppedByUser :: new). cbn. rewrite Ht.
    split; [reflexivity|]. right. split.
    + destruct Hann as (tail & msg & g & rest & -> & Hg & Htail & Hrest).
      exists (EvLog INFO LogStoppedByUser :: tail), msg, g, rest.
      split; [reflexivity|]. split; [exact Hg|].
      split; [constructor; [reflexivity|exact Htail]|exact Hrest].
    + right. now eexists _, new.
Qed.

Lemma run_heralds_bind {A} (m : M A) (k : A -> M Z) :
  quiet (idle (retries self)) m ->
  returns m ->
  (forall a w1,
      last_notification w1 = None ->
      run_heralds_post (retries self) w1 (k a w1)) ->
  forall w,
    last_notification w = None ->
    run_heralds_post (retries self) w (bind m k w).
Proof.
  intros Hm Hret Hk w Hnone. destruct (Hret w) as (a & w1 & Heq).
  destruct (Hm w) as (new1 & Ht1 & HP1 & Hl1).
  rewrite (bind_Ret _ _ _ _ _ Heq). rewrite Heq in Ht1, Hl1.
  cbn [world_of] in *.
  destruct (Hk a w1 ltac:(congruence)) as (new2 & Ht2 & Hcases).
  exists (new2 ++ new1)%list. split; [now rewrite Ht2, Ht1, app_assoc|].
  destruct Hcases as [[Hidle Hne]|[Hann Hr]].
  - left. split; [apply Forall_app; now split|exact Hne].
  - right. split; [now apply announced_prefix|].
    destruct Hr as [Hr|(w' & rest & Hr & ->)]; [now left|right].
    now exists w', (rest ++ new1)%list.
Qed.

Lemma run_heralds (fuel : nat) (w : World) :
  last_notification w = None ->
  run_heralds_post (retries self) w (run E self fuel w).
Proof.
  unfold run. revert w.
  repeat (apply run_heralds_bind;
          [ solve [repeat quiet_step]
          | first [ intros w; now eexists _, _
                  | intros w; destruct (stop_at_time self); now eexists _, _
                  | intros w; destruct (stop_after_minutes self);
                    now eexists _, _ ]
          | intros _ ]).
  intros w Hnone. apply run_heralds_catch. now apply heralds_run_loop.
Qed.

End Heralds.

(** C8. In a run that starts with [last_notification] unset, as [__init__]
    leaves it: whenever the block under [if confirmed:] is reached with
    [last_notification] unset, the cooldown check passes, the notifier is
    called and the loop returns 0; no cooldown skip is logged; the notifier
    is entered at most once; [last_notification] is still unset in the last
    world of the run (for any bound on the number of iterations, hence at
    the start of every iteration) unless the run has notified and returned 0;
    once the notifier is entered the run returns; and it returns 0 only
    after entering it.  The first confirmed UP triggers the notification and
    the end of the run: either the run has granted no confirmation, has not
    entered the notifier and has not returned 0, or it has granted exactly
    one, the very next event is the entry of the notifier, and the run has
    returned, with 0 and [last_notification] set, or with 1 after the line
    of the interrupt handler when the notifier was interrupted. *)
Theorem run_notifies_at_most_once (E : Env) (self : SiteMonitor) (fuel : nat)
    (w : World) :
  last_notification w = None ->
  (forall cinfo continue w1,
      last_notification w1 = None ->
      on_confirmed E self cinfo continue w1
      = (let* now := datetime_now E in
         let* _ := notify E (telegram self) (reachable_message self cinfo) 3 in
         do set_last_notification (Some now) then ret 0) w1)
  /\
  exists new,
    trace (world_of (run E self fuel w)) = (new ++ trace w)%list /\
    (forall lvl rem, ~ In (EvLog lvl (LogSkippingNotify rem)) new) /\
    (notify_calls new <= 1)%nat /\
    (last_notification (world_of (run E self fuel w)) = None \/
     (notify_calls new = 1%nat /\ exists w', run E self fuel w = Ret 0 w')) /\
    (notify_calls new = 1%nat -> exists c w', run E self fuel w = Ret c w') /\
    (forall w', run E self fuel w = Ret 0 w' -> notify_calls new = 1%nat) /\
    ((Forall (idle (retries self)) new /\
      forall w', run E self fuel w <> Ret 0 w') \/
     (announced (retries self) new /\
      ((exists w', run E self fuel w = Ret 0 w' /\
                   last_notification w' <> None) \/
       (exists w' rest,
           run E self fuel w = Ret 1 w' /\
           new = EvLog INFO LogStoppedByUser :: rest)))).
Proof.
  intros Hnone. split.
  - intros cinfo continue w1 H1. now apply on_confirmed_unset.
  - destruct (run_post_run E self fuel w Hnone)
      as (new & Ht & Hskip & Hle & Hlast & Hret & Hzero).
    destruct (run_heralds E self fuel w Hnone) as (new' & Ht' & Hcases).
    assert (Hsame : new' = new).
    { apply (app_inv_tail (trace w)). now rewrite <- Ht, <- Ht'. }
    subst new'. exists new. repeat split; assumption.
Qed.

Lemma run_notifies_at_most_once_witness :
  last_notification world0 = None /\
  exists new,
    trace (world_of (run (Ex.steady 302 "" 200) (Ex.monitor 1 None None) 2
                       world0))
    = (new ++ trace world0)%list /\
    (notify_calls new <= 1)%nat /\
    (notify_calls new = 1%nat ->
     exists c w',
       run (Ex.steady 302 "" 200) (Ex.monitor 1 None None) 2 world0 = Ret c w')
    /\
    ((Forall (idle (retries (Ex.monitor 1 None None))) new /\
      forall w',
        run (Ex.steady 302 "" 200) (Ex.monitor 1 None None) 2 world0
        <> Ret 0 w') \/
     (announced (retries (Ex.monitor 1 None None)) new /\
      ((exists w',
           run (Ex.steady 302 "" 200) (Ex.monitor 1 None None) 2 world0
           = Ret 0 w' /\
           last_notification w' <> None) \/
       (exists w' rest,
           run (Ex.steady 302 "" 200) (Ex.monitor 1 None None) 2 world0
           = Ret 1 w' /\
           new = EvLog INFO LogStoppedByUser :: rest)))).
Proof.
  split; [reflexivity|].
  destruct (run_notifies_at_most_once (Ex.steady 302 "" 200)
              (Ex.monitor 1 None None) 2 world0 eq_refl)
    as (_ & new & Ht & _ & Hle & _ & Hret & _ & Hcases).
  exists new. auto.
Defined.

(** ** The exit code *)

Section ExitCode.
Variable E : Env.
Variable self : SiteMonitor.

Lemma exits_bind {A} (m : M A) (k : A -> M Z) :
  (forall a, exits_as_logged (k a)) -> exits_as_logged (bind m k).
Proof.
  intros Hk w. unfold bind. destruct (m w) as [a w1|e w1|w1]; [|exact I..].
  apply Hk.
Qed.

Lemma exits_stop (reason : string) :
  exits_as_logged (do log INFO (LogStopping reason) then ret 1).
Proof.
  intros w. cbn. unfold termination_logged. cbn [trace emit].
  now destruct (String.prefix "Time limit reached" reason).
Qed.

Lemma exits_out_of_fuel : exits_as_logged (fun w => OutOfFuel w).
Proof. now intros w. Qed.

(** After the notifier the newest event is its entry or one of its own
    events, not a stop line. *)
Lemma notified_logged (new : list Event) (msg : string) (w w' : World) :
  trace w' = (new ++ EvNotify msg :: trace w)%list ->
  Forall telegram_event new ->
  termination_logged w' = NOTIFIED_SUCCESS.
Proof.
  intros Ht HP. unfold termination_logged. rewrite Ht.
  destruct HP as [|e new He _]; [reflexivity|].
  now destruct e as [| | | |lvl []].
Qed.

Lemma exits_on_confirmed (cinfo : string) (continue : M Z) :
  exits_as_logged continue ->
  exits_as_logged (on_confirmed E self cinfo continue).
Proof.
  intros Hc. unfold on_confirmed.
  apply exits_bind; intros now. apply exits_bind; intros last.
  destruct (cooldown_elapsed self last now).
  - intros w.
    destruct (notify_trace E (telegram self) (reachable_message self cinfo) 3
                w) as (new & Ht & HP & _).
    unfold bind at 1.
    destruct (notify E (telegram self) (reachable_message self cinfo) 3 w)
      as [b w1|e w1|w1]; [|exact I..].
    cbn [world_of] in Ht. unfold bind, set_last_notification, ret.
    now rewrite (notified_logged new _ w
                   (with_last_notification (Some now) w1) Ht HP).
  - now apply exits_bind.
Qed.

Lemma exits_run_loop (fuel : nat) :
  forall last_state check_count,
    exits_as_logged (run_loop E self fuel last_state check_count).
Proof.
  induction fuel as [|fuel IH]; intros; cbn [run_loop].
  - apply exits_out_of_fuel.
  - repeat first
      [ apply IH | apply exits_stop | apply exits_on_confirmed
      | apply exits_bind; intros ?
      | match goal with
        | |- exits_as_logged (match ?x with _ => _ end) => destruct x
        end ].
Qed.

Lemma run_exits_as_logged (fuel : nat) (w : World) :
  match run E self fuel w with
  | Ret c w' => c = exit_code (termination_logged w')
  | Raise KeyboardInterrupt _ => False
  | Raise ValueError _ => True
  | OutOfFuel _ => True
  end.
Proof.
  unfold run, bind, log, record, ret, catch_KeyboardInterrupt.
  destruct (stop_at_time self), (stop_after_minutes self);
    match goal with
    | |- context [run_loop E self fuel ?ls ?cc ?w1] =>
        pose proof (exits_run_loop fuel ls cc w1) as H;
        destruct (run_loop E self fuel ls cc w1) as [c w2|[] w2|w2]
    end; auto.
Qed.

End ExitCode.

(** The termination of a run, from the events it added. *)
Lemma in_notifier_app (l l' : list Event) :
  in_notifier l = true -> in_notifier (l ++ l') = true.
Proof.
  induction l as [|e l IH]; [discriminate|].
  destruct e as [| | | |lvl []]; cbn; auto.
Qed.

Lemma termination_of_app (l l' : list Event) (t : Termination) :
  termination_of l = Some t -> termination_of (l ++ l') = Some t.
Proof.
  destruct l as [|e l]; [discriminate|].
  pose proof (in_notifier_app (e :: l) l') as Happ. cbn [app] in *.
  destruct e as [| | | |lvl []]; cbn [termination_of]; auto;
    (destruct (in_notifier (_ :: l)); [|discriminate]);
    rewrite Happ by reflexivity; auto.
Qed.

Lemma in_notifier_telegram (tel rest : list Event) (msg : string) :
  Forall telegram_event tel ->
  in_notifier (tel ++ EvNotify msg :: rest) = true.
Proof.
  induction 1 as [|e tel He _ IH]; [reflexivity|].
  destruct e as [| | | |lvl []]; cbn in *; auto; contradiction.
Qed.

Lemma termination_of_telegram (tel rest : list Event) (msg : string) :
  Forall telegram_event tel ->
  termination_of (tel ++ EvNotify msg :: rest) = Some NOTIFIED_SUCCESS.
Proof.
  intros H. pose proof (in_notifier_telegram tel rest msg H) as Hin.
  destruct H as [|e tel He Htel]; [reflexivity|].
  cbn [app] in *. destruct e as [| | | |lvl []]; cbn in He; try contradiction;
    cbn [termination_of]; now rewrite Hin.
Qed.

Lemma termination_of_notified (new : list Event) :
  termination_of new = Some NOTIFIED_SUCCESS -> in_notifier new = true.
Proof.
  destruct new as [|e l]; [discriminate|].
  destruct e as [| | | |lvl []]; cbn [termination_of];
    try (destruct (in_notifier (_ :: l)); [reflexivity|discriminate]);
    try discriminate.
  match goal with
  | |- context [String.prefix ?p ?r] => now destruct (String.prefix p r)
  end.
Qed.

Lemma quiet_any {A} (P : Event -> Prop) (m : M A) :
  quiet P m -> quiet (fun _ => True) m.
Proof. apply quiet_weaken. auto. Qed.

Section Closes.
Variable E : Env.
Variable self : SiteMonitor.

Lemma closes_bind {A} (m : M A) (k : A -> M Z) :
  quiet (fun _ => True) m -> (forall a, closes (k a)) -> closes (bind m k).
Proof.
  intros Hm Hk w. destruct (Hm w) as (new1 & Ht1 & _ & _).
  unfold bind. destruct (m w) as [a w1|e w1|w1]; cbn [world_of] in *.
  - destruct (Hk a w1) as (new2 & Ht2 & Hr).
    exists (new2 ++ new1)%list. split; [now rewrite Ht2, Ht1, app_assoc|].
    destruct (k a w1) as [c w2| |]; [|exact I..].
    destruct Hr as (t & Hterm & Hc & Hl). exists t.
    split; [now apply termination_of_app|]. now split.
  - now exists new1.
  - now exists new1.
Qed.

Lemma closes_stop (reason : string) :
  closes (do log INFO (LogStopping reason) then ret 1).
Proof.
  intros w. exists [EvLog INFO (LogStopping reason)]. split; [reflexivity|].
  cbn. eexists. split; [reflexivity|].
  destruct (String.prefix "Time limit reached" reason);
    (split; [reflexivity|discriminate]).
Qed.

Lemma closes_out_of_fuel : closes (fun w => OutOfFuel w).
Proof. intros w. now exists []. Qed.

Lemma closes_on_confirmed (cinfo : string) (continue : M Z) :
  closes continue -> closes (on_confirmed E self cinfo continue).
Proof.
  intros Hcont w. unfold on_confirmed, bind at 1, datetime_now.
  unfold bind at 1, get_last_notification.
  destruct (cooldown_elapsed self (last_notification (after_now w))
              (now_at E (n_now w))).
  - destruct (notify_trace E (telegram self) (reachable_message self cinfo) 3
                (after_now w)) as (tel & Ht & HP & _ & Hsafe).
    unfold bind at 1.
    destruct (notify E (telegram self) (reachable_message self cinfo) 3
                (after_now w)) as [b w1|e w1|w1]; cbn [world_of] in *.
    + exists (tel ++ [EvNotify (reachable_message self cinfo)])%list.
      cbn. rewrite Ht, <- app_assoc. split; [reflexivity|].
      exists NOTIFIED_SUCCESS.
      split; [now apply termination_of_telegram|].
      split; [reflexivity|]. intros _. discriminate.
    + exists (tel ++ [EvNotify (reachable_message self cinfo)])%list.
      cbn [world_of]. rewrite Ht, <- app_assoc. now split.
    + contradiction.
  - lazymatch goal with
    | |- context [bind ?m ?k (after_now w)] =>
        change (closes_post (after_now w) (bind m k (after_now w)));
        apply (closes_bind m k)
    end; [solve [repeat quiet_step] | intros _; exact Hcont].
Qed.

Lemma closes_run_loop (fuel : nat) :
  forall last_state check_count,
    closes (run_loop E self fuel last_state check_count).
Proof.
  induction fuel as [|fuel IH]; intros; cbn [run_loop].
  - apply closes_out_of_fuel.
  - pose proof (quiet_any _ _ (quiet_should_stop E self)) as Hstop.
    pose proof (quiet_any _ _ (quiet_check_once E (checker self))) as Hprobe.
    pose proof (quiet_any _ _
                  (quiet_check_with_confirmation E (checker self)
                     (retries self) (retry_delay self))) as Hconfirm.
    repeat first
      [ apply IH | apply closes_stop | apply closes_on_confirmed
      | apply closes_bind;
          [first [assumption | solve [repeat quiet_step]] | intros ?]
      | match goal with
        | |- closes (match ?x with _ => _ end) => destruct x
        end ].
Qed.

Lemma closes_catch (body : M Z) (w : World) :
  closes_post w (body w) ->
  closes_post w
    (catch_KeyboardInterrupt body
       (do log INFO LogStoppedByUser then ret 1) w) /\
  forall w',
    catch_KeyboardInterrupt body
      (do log INFO LogStoppedByUser then ret 1) w
    <> Raise KeyboardInterrupt w'.
Proof.
  intros (new & Ht & Hr). unfold catch_KeyboardInterrupt.
  destruct (body w) as [c w1|[] w1|w1]; cbn [world_of] in *.
  - split; [now exists new|discriminate].
  - split; [|discriminate].
    exists (EvLog INFO LogStoppedByUser :: new). cbn. rewrite Ht.
    split; [reflexivity|]. exists INTERRUPTED.
    split; [reflexivity|]. split; [reflexivity|discriminate].
  - split; [now exists new|discriminate].
  - split; [now exists new|discriminate].
Qed.

Lemma closes_post_bind {A} (m : M A) (k : A -> M Z) (w : World) :
  quiet (fun _ => True) m ->
  (forall a w1,
      closes_post w1 (k a w1) /\
      forall w', k a w1 <> Raise KeyboardInterrupt w') ->
  (forall w', m w <> Raise KeyboardInterrupt w') ->
  closes_post w (bind m k w) /\
  forall w', bind m k w <> Raise KeyboardInterrupt w'.
Proof.
  intros Hm Hk Hno. destruct (Hm w) as (new1 & Ht1 & _ & _).
  unfold bind. destruct (m w) as [a w1|e w1|w1]; cbn [world_of] in *.
  - destruct (Hk a w1) as [(new2 & Ht2 & Hr) Hne]. split; [|exact Hne].
    exists (new2 ++ new1)%list. split; [now rewrite Ht2, Ht1, app_assoc|].
    destruct (k a w1) as [c w2| |]; [|exact I..].
    destruct Hr as (t & Hterm & Hc & Hl). exists t.
    split; [now apply termination_of_app|]. now split.
  - split; [now exists new1|]. intros w' H. injection H as -> ->.
    exact (Hno w' eq_refl).
  - split; [now exists new1|discriminate].
Qed.

Lemma closes_run (fuel : nat) (w : World) :
  closes_post w (run E self fuel w) /\
  forall w', run E self fuel w <> Raise KeyboardInterrupt w'.
Proof.
  unfold run. revert w.
  repeat (intro; apply closes_post_bind;
          [ solve [repeat quiet_step]
          | intros _
          | first [ discriminate
                  | destruct (stop_at_time self); discriminate
                  | destruct (stop_after_minutes self); discriminate ] ]).
  intro. apply closes_catch. apply closes_run_loop.
Qed.

End Closes.

(** C5 (as amended).  [run] never lets the interrupt escape (only the
    [ValueError] of a negative delay does), and the value it returns tells
    only two cases apart.  The events a returning run has added end in one
    of the four terminations: the stop line of the time limit, the stop line
    of the stop time, the line of the interrupt handler, or the events of
    the notifier.  The run returns 0 exactly when it ended by notifying (it
    has just left [notify], and [last_notification] is set), and 1 when it
    was stopped by the time limit, stopped by the stop time, or
    interrupted.  Which of the last three happened is in the log only. *)
Theorem run_exit_code (E : Env) (self : SiteMonitor) (fuel : nat) (w : World) :
  match run E self fuel w with
  | Ret c w' =>
      exists new t,
        trace w' = (new ++ trace w)%list /\
        termination_of new = Some t /\
        c = exit_code t /\
        (c = 0 <-> t = NOTIFIED_SUCCESS) /\
        (c = 1 <-> t <> NOTIFIED_SUCCESS) /\
        (c = 0 -> in_notifier new = true /\ last_notification w' <> None)
  | Raise KeyboardInterrupt _ => False
  | Raise ValueError _ => True
  | OutOfFuel _ => True
  end.
Proof.
  destruct (closes_run E self fuel w) as [(new & Ht & Hr) Hno].
  destruct (run E self fuel w) as [c w'|[] w'|w']; auto.
  - destruct Hr as (t & Hterm & Hc & Hl). exists new, t.
    split; [exact Ht|]. split; [exact Hterm|]. split; [exact Hc|].
    subst c. destruct t; cbn;
      (split; [split; congruence|]); (split; [split; congruence|]);
      try discriminate.
    intros _. split; [now apply termination_of_notified|now apply Hl].
  - exact (Hno w' eq_refl).
Qed.

(** C5 (as stated) fails: a run stopped by the time limit, a run stopped by
    the stop time and an interrupted run all return 1. *)
Lemma run_stop_reasons_share_exit_code :
  exists wa wb wc,
    run (Ex.steady 503 "" 200) (Ex.monitor 3 (Some 0) None) 1 world0
    = Ret 1 wa /\
    termination_of (trace wa) = Some STOPPED_BY_TIME_LIMIT /\
    run (Ex.steady 503 "" 200) (Ex.monitor 3 None (Some 0)) 1 world0
    = Ret 1 wb /\
    termination_of (trace wb) = Some STOPPED_BY_DEADLINE /\
    run Ex.interrupted (Ex.monitor 3 None None) 1 world0 = Ret 1 wc /\
    termination_of (trace wc) = Some INTERRUPTED.
Proof.
  eexists; eexists; eexists.
  repeat split; vm_compute; reflexivity.
Qed.

(** ** Start-up and the stop conditions *)

Section StartUp.
Variable E : Env.

(** [_parse_until] always returns; it may read the clock and log the
    warning, and does nothing else. *)
Lemma parse_until_world (until : option string) (w : World) :
  exists v w',
    _parse_until E until w = Ret v w' /\
    (n_now w <= n_now w')%nat /\
    n_http w' = n_http w /\
    probes_issued w' = probes_issued w.
Proof.
  unfold _parse_until, bind, log, record, ret, datetime_now.
  destruct (truthy until); cbn [negb].
  - destruct (parse_hh_mm (default "" until)) as [[hh mm]|].
    + destruct (Datetime.replace_hm (now_at E (n_now w)) hh mm);
        eexists; eexists; (split; [reflexivity|]); cbn; auto with arith.
    + eexists; eexists; (split; [reflexivity|]); cbn; auto.
  - eexists; eexists; (split; [reflexivity|]); cbn; auto.
Qed.

(** A run whose time limit is 0 minutes stops at the first check of the
    stop conditions, if the clock has not gone back since the start. *)
Lemma run_time_limit_zero (self : SiteMonitor) (fuel : nat) (w : World) :
  stop_after_minutes self = Some 0 ->
  start_time self <= now_at E (n_now w) ->
  exists w' rest,
    run E self (S fuel) w = Ret 1 w' /\
    trace w'
    = EvLog INFO (LogStopping "Time limit reached (0 minutes)") :: rest /\
    probes_issued w' = probes_issued w /\
    n_http w' = n_http w.
Proof.
  intros Hzero Hclock.
  assert (Hstop : forall w1, n_now w1 = n_now w ->
            _should_stop E self w1
            = Ret (true, "Time limit reached (0 minutes)") (after_now w1)).
  { intros w1 Hn. unfold _should_stop, bind, datetime_now, time_limit_reached.
    rewrite Hzero, Hn.
    replace (0 * Datetime.MINUTE <=? now_at E (n_now w) - start_time self)%Z
      with true by lia.
    reflexivity. }
  unfold run, bind at 1 2 3 4, log, record, ret.
  rewrite Hzero.
  destruct (stop_at_time self); cbn beta iota;
    unfold catch_KeyboardInterrupt; cbn [run_loop];
    eexists; eexists;
    match goal with
    | |- context [bind (_should_stop E self) _ ?w1] =>
        rewrite (bind_Ret _ _ w1 _ _ (Hstop w1 eq_refl))
    end;
    (split; [reflexivity|]); (split; [reflexivity|]); split; reflexivity.
Qed.

End StartUp.

(** C6. A monitor constructed with [stop_after = 0] and run under a clock
    that never goes back returns 1 in its first iteration, logging the time
    limit as the reason, and issues no probe. *)
Theorem stop_after_zero_stops_before_probing (E : Env) (ck : SiteChecker)
    (interval retries retry_delay cooldown : Z) (until : option string)
    (tg : TelegramHandler) (fuel : nat) (w : World) :
  monotone_clock E ->
  exists self w1 w2 rest,
    SiteMonitor_init E ck interval retries retry_delay cooldown until (Some 0)
      tg w = Ret self w1 /\
    run E self (S fuel) w1 = Ret 1 w2 /\
    trace w2
    = EvLog INFO (LogStopping "Time limit reached (0 minutes)") :: rest /\
    termination_logged w2 = STOPPED_BY_TIME_LIMIT /\
    probes_issued w2 = probes_issued w /\
    n_http w2 = n_http w.
Proof.
  intros Hmono. unfold SiteMonitor_init, bind at 1 2, datetime_now.
  unfold set_last_notification.
  destruct (parse_until_world E until
              (with_last_notification None (after_now w)))
    as (v & w1 & Hp & Hn & Hh & Hi).
  rewrite (bind_Ret _ _ _ _ _ Hp). unfold ret.
  set (self := {| checker := ck; stop_at_time := v |}).
  destruct (run_time_limit_zero E self fuel w1 eq_refl)
    as (w2 & rest & Hrun & Ht & Hprobes & Hhttp).
  { cbn [start_time self]. apply Hmono. cbn in Hn. lia. }
  exists self, w1, w2, rest. repeat split; try assumption.
  - unfold termination_logged. now rewrite Ht.
  - now rewrite Hprobes, Hi.
  - now rewrite Hhttp, Hh.
Qed.

Lemma clock_monotone : monotone_clock (Ex.steady 200 "" 200).
Proof. intros i j H. cbn. unfold Ex.clock, Datetime.SECOND. nia. Qed.

Lemma stop_after_zero_stops_before_probing_witness :
  monotone_clock (Ex.steady 200 "" 200) /\
  exists self w1 w2 rest,
    SiteMonitor_init (Ex.steady 200 "" 200) Ex.site 60 3 5 600 (Some "10:00")
      (Some 0) Ex.bot world0 = Ret self w1 /\
    run (Ex.steady 200 "" 200) self 1 w1 = Ret 1 w2 /\
    trace w2
    = EvLog INFO (LogStopping "Time limit reached (0 minutes)") :: rest /\
    termination_logged w2 = STOPPED_BY_TIME_LIMIT /\
    probes_issued w2 = probes_issued world0 /\
    n_http w2 = n_http world0.
Proof.
  split; [exact clock_monotone|].
  exact (stop_after_zero_stops_before_probing (Ex.steady 200 "" 200) Ex.site
           60 3 5 600 (Some "10:00") Ex.bot 0 world0 clock_monotone).
Defined.




(** C1 (the code departs from the claim).  Telegram answers 500 to every
    post, so [notify] returns [False]; the site is up and confirmed.  [run]
    still sets [last_notification] and returns 0. *)
Theorem run_succeeds_when_notify_fails :
  (forall msg w, exists w',
      notify (Ex.steady 302 "" 500) Ex.bot msg 3 w = Ret false w') /\
  exists w',
    run (Ex.steady 302 "" 500) (Ex.monitor 1 None None) 1 world0 = Ret 0 w' /\
    last_notification w' = Some (Ex.clock 1) /\
    notify_calls (trace w') = 1%nat /\
    forall lvl k n, ~ In (EvLog lvl (LogTelegramSent k n)) (trace w').
Proof.
  split.
  - intros msg w. eexists. lazy. reflexivity.
  - eexists. split; [vm_compute; reflexivity|].
    split; [reflexivity|]. split; [reflexivity|].
    intros lvl k n Hin. cbn in Hin.
    repeat (destruct Hin as [Hin|Hin]; [discriminate|]). exact Hin.
Qed.

(** * More of the code *)

(** ** The probe *)

(** Case analysis on the values a program branches on, innermost first. *)
Ltac split_goal_step :=
  match goal with
  | |- context [match ?x with _ => _ end] =>
      lazymatch x with
      | context [match _ with _ => _ end] => fail
      | _ => destruct x eqn:?
      end
  end.

Ltac split_in_step H :=
  match type of H with
  | context [match ?x with _ => _ end] =>
      lazymatch x with
      | context [match _ with _ => _ end] => fail
      | _ => destruct x eqn:?
      end
  end.

Ltac unfold_check_once :=
  unfold check_once, _try_head, _try_get, bind, ret, session_request.

Lemma in_ok_codes_elem (self : SiteChecker) (code : Z) :
  in_ok_codes self code = true <-> code ∈ ok_codes self.
Proof. unfold in_ok_codes. apply bool_decide_eq_true. Qed.

Lemma check_once_world (E : Env) (self : SiteChecker) (w : World) :
  world_of (check_once E self w) = after_request HEAD w \/
  world_of (check_once E self w) = after_request GET (after_request HEAD w).
Proof.
  unfold_check_once. cbn [n_http after_request].
  repeat (split_goal_step; cbn beta iota; cbn [n_http after_request]);
    cbn [world_of]; auto.
Qed.

Lemma in_ok_codes_false (self : SiteChecker) (code : Z) :
  code ∉ ok_codes self -> in_ok_codes self code = false.
Proof. intros H. unfold in_ok_codes. now apply bool_decide_eq_false. Qed.

(** X1. A probe that classifies a status code outside [ok_codes] is DOWN and
    reports that code, on the HEAD path and on the fall-back path alike. *)
Theorem check_once_unaccepted_is_down (E : Env) (self : SiteChecker)
    (w : World) (code : Z) :
  classifies E (n_http w) code ->
  code ∉ ok_codes self ->
  exists w',
    check_once E self w
    = Ret (false, "HTTP " ++ Str.of_Z code ++ " (treated as DOWN)", Some code)
          w'.
Proof.
  intros Hc Hno. pose proof (in_ok_codes_false self code Hno) as Hf.
  unfold check_once. destruct Hc as [rh Hh Hrh H405 | r Hu Hg Hr].
  - subst code.
    rewrite (bind_Ret _ _ _ _ _ (try_head_responded E _ _ Hh H405)).
    rewrite Hf. cbn [negb]. now eexists.
  - destruct (try_head_unusable E _ Hu) as [err Herr].
    rewrite (bind_Ret _ _ _ _ _ Herr).
    rewrite (bind_Ret _ _ _ _ _
               (try_get_responded E (after_request HEAD w) _ Hg)).
    rewrite Hr, Hf. cbn [negb]. now eexists.
Qed.

Lemma check_once_unaccepted_is_down_witness :
  exists w',
    check_once (Ex.no_head 500 "") Ex.site world0
    = Ret (false, "HTTP " ++ Str.of_Z 500 ++ " (treated as DOWN)", Some 500)
          w'.
Proof.
  apply (check_once_unaccepted_is_down (Ex.no_head 500 "") Ex.site world0 500).
  - eapply classifies_fallback; [exact eq_refl| |]; reflexivity.
  - vm_compute. intros H. discriminate H.
Defined.

Lemma head_405_unusable (r : Response) :
  (status_code r =? 405)%Z = true -> head_unusable (Responded r).
Proof. intros H. now apply Z.eqb_eq in H. Qed.

(** X2. A probe is UP only for an accepted code: when [check_once] returns
    UP, the status code is present, is the code the probe classified, lies
    in [ok_codes], and the reason is "HTTP <code>". *)
Theorem check_once_up_is_accepted (E : Env) (self : SiteChecker) (w w' : World)
    (info : string) (code : option Z) :
  check_once E self w = Ret (true, info, code) w' ->
  exists c,
    code = Some c /\ c ∈ ok_codes self /\
    info = "HTTP " ++ Str.of_Z c /\
    classifies E (n_http w) c.
Proof.
  intros H. revert H. unfold_check_once. cbn [n_http after_request].
  intros H.
  repeat (split_in_step H; cbn beta iota in H; cbn [n_http after_request] in H);
    try discriminate H;
    injection H as <- <- <-;
    repeat match goal with
           | Hn : negb _ = false |- _ => apply negb_false_iff in Hn
           | Hn : in_ok_codes _ _ = true |- _ => apply in_ok_codes_elem in Hn
           | Hn : (_ =? 405)%Z = false |- _ => apply Z.eqb_neq in Hn
           | Hn : (_ =? 405)%Z = true |- _ => apply head_405_unusable in Hn
           end;
    eexists; (split; [reflexivity|]); (split; [eassumption|]);
    (split; [reflexivity|]).
  all: try (eapply classifies_head; [eassumption|reflexivity|assumption]).
  all: try (eapply classifies_fallback; [|eassumption|reflexivity];
            match goal with
            | Hh : http_at _ _ HEAD = _ |- _ => rewrite Hh
            end; solve [assumption | exact I]).
Qed.

Lemma check_once_up_is_accepted_witness :
  exists c,
    Some 302 = Some c /\ c ∈ ok_codes Ex.site /\
    "HTTP 302" = "HTTP " ++ Str.of_Z c /\
    classifies (Ex.steady 302 "" 200) (n_http world0) c.
Proof.
  apply (check_once_up_is_accepted (Ex.steady 302 "" 200) Ex.site world0
           (after_request HEAD world0) "HTTP 302" (Some 302)).
  vm_compute. reflexivity.
Defined.

(** X3. [check_once] returns no status code only when a GET was made and
    raised a [RequestException]; the probe is then DOWN, after exactly two
    requests.  (A HEAD that raises is retried as a GET, so a failed HEAD
    alone never ends a probe.) *)
Theorem check_once_no_code_is_failed_get (E : Env) (self : SiteChecker)
    (w w' : World) (ok : bool) (info : string) :
  check_once E self w = Ret (ok, info, None) w' ->
  ok = false /\
  w' = after_request GET (after_request HEAD w) /\
  exists e, http_at E (S (n_http w)) GET = Failed e.
Proof.
  intros H. revert H. unfold_check_once. cbn [n_http after_request].
  intros H.
  repeat (split_in_step H; cbn beta iota in H; cbn [n_http after_request] in H);
    try discriminate H;
    injection H as <- <- <-; repeat split; eauto.
Qed.

Lemma check_once_no_code_is_failed_get_witness :
  false = false /\
  after_request GET (after_request HEAD world0)
  = after_request GET (after_request HEAD world0) /\
  exists e, http_at (Ex.get_times_out 200) (S (n_http world0)) GET = Failed e.
Proof.
  apply (check_once_no_code_is_failed_get (Ex.get_times_out 200) Ex.site
           world0 _ false "Connection timeout").
  vm_compute. reflexivity.
Defined.

Lemma first_keyword_none (kws : list string) (lowered : string) :
  (forall kw, In kw kws -> Str.contains kw lowered = false) ->
  first_keyword kws lowered = None.
Proof.
  induction kws as [|k kws IH]; intros H; [reflexivity|].
  cbn [first_keyword]. rewrite (H k) by now left.
  apply IH. intros kw Hin. apply H. now right.
Qed.

(** X6. [_content_has_down_keywords] answers yes exactly when content
    checking is enabled, the body can be read, and one of [DOWN_KEYWORDS]
    occurs in it up to the case of letters. *)
Theorem content_has_down_keywords_iff (self : SiteChecker) (resp : Response) :
  fst (_content_has_down_keywords self resp) = true <->
  check_content self = true /\
  exists body kw,
    text resp = Some body /\ In kw DOWN_KEYWORDS /\ occurs_ci kw body.
Proof.
  unfold _content_has_down_keywords. split.
  - destruct (check_content self); cbn [negb fst]; [|discriminate].
    destruct (text resp) as [body|]; [|discriminate].
    destruct (first_keyword DOWN_KEYWORDS (Str.lower body)) as [kw|] eqn:Hk;
      [|discriminate].
    intros _. split; [reflexivity|].
    destruct (first_keyword_sound _ _ _ Hk) as [Hin Hc].
    exists body, kw. auto using contains_occurs_ci.
  - intros (-> & body & kw & -> & Hin & Hocc). cbn [negb].
    destruct (first_keyword_some _ _ _ Hin (occurs_ci_contains _ _ Hin Hocc))
      as [kw' ->].
    reflexivity.
Qed.

Lemma content_clean (self : SiteChecker) (resp : Response) :
  (forall body kw,
      text resp = Some body -> In kw DOWN_KEYWORDS -> ~ occurs_ci kw body) ->
  _content_has_down_keywords self resp = (false, "").
Proof.
  intros Hclean. unfold _content_has_down_keywords.
  destruct (negb (check_content self)); [reflexivity|].
  destruct (text resp) as [body|]; [|reflexivity].
  rewrite first_keyword_none; [reflexivity|].
  intros kw Hin. destruct (Str.contains kw (Str.lower body)) eqn:Hc; [|reflexivity].
  destruct (Hclean body kw eq_refl Hin). now apply contains_occurs_ci.
Qed.

(** X4. On the HEAD path the status of the follow-up GET is never looked at:
    when HEAD answers an accepted 200 or 401 and the GET answers anything at
    all with a body free of the keywords, the probe is UP with the code of
    the HEAD response. *)
Theorem check_once_ignores_get_status (E : Env) (self : SiteChecker)
    (w : World) (rh rg : Response) :
  check_content self = true ->
  http_at E (n_http w) HEAD = Responded rh ->
  status_code rh = 200 \/ status_code rh = 401 ->
  status_code rh ∈ ok_codes self ->
  http_at E (S (n_http w)) GET = Responded rg ->
  (forall body kw,
      text rg = Some body -> In kw DOWN_KEYWORDS -> ~ occurs_ci kw body) ->
  check_once E self w
  = Ret (true, "HTTP " ++ Str.of_Z (status_code rh), Some (status_code rh))
        (after_request GET (after_request HEAD w)).
Proof.
  intros Hc Hh Hcode Hok Hg Hclean.
  assert (H405 : status_code rh <> 405) by (destruct Hcode; lia).
  unfold check_once.
  rewrite (bind_Ret _ _ _ _ _ (try_head_responded E _ _ Hh H405)).
  rewrite (in_ok_codes_true _ _ Hok), Hc, (body_check_needed_true _ Hcode).
  cbn [negb andb].
  rewrite (bind_Ret _ _ _ _ _
             (try_get_responded E (after_request HEAD w) _ Hg)).
  now rewrite (content_clean self rg Hclean).
Qed.

Lemma check_once_ignores_get_status_witness :
  check_once (Ex.head_then_get 200 503 "Service is back") Ex.site world0
  = Ret (true, "HTTP " ++ Str.of_Z 200, Some 200)
        (after_request GET (after_request HEAD world0)).
Proof.
  apply (check_once_ignores_get_status
           (Ex.head_then_get 200 503 "Service is back") Ex.site world0
           {| status_code := 200; text := Some "" |}
           {| status_code := 503; text := Some "Service is back" |}).
  - reflexivity.
  - reflexivity.
  - now left.
  - vm_compute. reflexivity.
  - reflexivity.
  - intros body kw [= <-] Hin Hocc.
    pose proof (occurs_ci_contains _ _ Hin Hocc) as Hc.
    cbn in Hin.
    repeat (destruct Hin as [<-|Hin]; [vm_compute in Hc; discriminate Hc|]).
    exact Hin.
Defined.

(** X5. With content checking disabled ([--no-content-check]) every accepted
    code is UP, whatever the body says. *)
Theorem check_once_without_content_check (E : Env) (self : SiteChecker)
    (w : World) (code : Z) :
  check_content self = false ->
  classifies E (n_http w) code ->
  code ∈ ok_codes self ->
  exists w',
    check_once E self w = Ret (true, "HTTP " ++ Str.of_Z code, Some code) w'.
Proof.
  intros Hc Hcl Hok. unfold check_once.
  destruct Hcl as [rh Hh Hrh H405 | r Hu Hg Hr].
  - subst code.
    rewrite (bind_Ret _ _ _ _ _ (try_head_responded E _ _ Hh H405)).
    rewrite (in_ok_codes_true _ _ Hok), Hc. cbn [negb andb]. now eexists.
  - destruct (try_head_unusable E _ Hu) as [err Herr].
    rewrite (bind_Ret _ _ _ _ _ Herr).
    rewrite (bind_Ret _ _ _ _ _
               (try_get_responded E (after_request HEAD w) _ Hg)).
    rewrite Hr, (in_ok_codes_true _ _ Hok). cbn [negb].
    unfold _content_has_down_keywords. rewrite Hc. cbn [negb]. now eexists.
Qed.

Lemma check_once_without_content_check_witness :
  exists w',
    check_once (Ex.no_head 200 "Site en maintenance") Ex.site_unfiltered world0
    = Ret (true, "HTTP " ++ Str.of_Z 200, Some 200) w'.
Proof.
  apply (check_once_without_content_check (Ex.no_head 200 "Site en maintenance")
           Ex.site_unfiltered world0 200).
  - reflexivity.
  - eapply classifies_fallback; [exact eq_refl| |]; reflexivity.
  - vm_compute. reflexivity.
Defined.

(** X7. A probe issues one HEAD request and at most one GET, and does
    nothing else: it does not read the clock, sleep, post to Telegram, log,
    or touch [last_notification], however it ends. *)
Theorem check_once_only_requests (E : Env) (self : SiteChecker) (w : World) :
  let w' := world_of (check_once E self w) in
  (trace w' = EvRequest HEAD :: trace w /\ n_http w' = S (n_http w) \/
   trace w' = EvRequest GET :: EvRequest HEAD :: trace w /\
   n_http w' = S (S (n_http w))) /\
  n_now w' = n_now w /\ n_post w' = n_post w /\ n_sleep w' = n_sleep w /\
  last_notification w' = last_notification w.
Proof.
  cbn zeta. destruct (check_once_world E self w) as [-> | ->]; cbn; auto.
Qed.

Lemma length_take (n : nat) (s : string) :
  String.length (Str.take n s) = Nat.min n (String.length s).
Proof.
  unfold Str.take. revert s; induction n as [|n IH]; intros s.
  - now destruct s.
  - destruct s as [|c s]; [reflexivity|]. cbn. now rewrite IH.
Qed.

Lemma length_append (a b : string) :
  String.length (a ++ b) = (String.length a + String.length b)%nat.
Proof.
  induction a as [|c a IH]; [reflexivity|].
  rewrite append_cons. cbn [String.length]. now rewrite IH.
Qed.

Lemma take_take_append (n : nat) (s rest : string) :
  (n <= String.length s)%nat -> Str.take n (Str.take n s ++ rest) = Str.take n s.
Proof.
  unfold Str.take. revert s; induction n as [|n IH]; intros s Hn.
  - destruct s; now destruct rest.
  - destruct s as [|c s]; [cbn in Hn; lia|].
    cbn [String.substring]. rewrite append_cons. cbn [String.substring].
    f_equal. apply IH. cbn in Hn. lia.
Qed.

(** X8. [_simplify_error] bounds the text of an exception: the result has at
    most 103 characters, a text of at most 100 characters is kept as it is,
    and the first 100 characters are always kept. *)
Theorem simplify_error_bounded (e : RequestException) :
  (String.length (_simplify_error e) <= 103)%nat /\
  ((String.length (exc_str e) <= 100)%nat -> _simplify_error e = exc_str e) /\
  Str.take 100 (_simplify_error e) = Str.take 100 (exc_str e).
Proof.
  unfold _simplify_error. cbn zeta.
  destruct (Nat.ltb_spec 100 (String.length (exc_str e))) as [Hlong|Hshort].
  - split; [|split].
    + rewrite length_append, length_take. cbn [String.length]. lia.
    + lia.
    + apply take_take_append. lia.
  - split; [|split]; [|reflexivity|reflexivity].
    transitivity 100%nat; [assumption|lia].
Qed.

(** X9. [requests] makes [SSLError] a [ConnectionError], and the handler of
    [ConnectionError] comes first: an SSL failure is reported as
    "Connection error: ...", and no reason of [_try_get] starts with
    "SSL error". *)
Theorem try_get_never_says_ssl (E : Env) (w : World) :
  match http_at E (n_http w) GET, _try_get E w with
  | Failed e, Ret (ok, resp, err) _ =>
      String.prefix "SSL error" err = false /\
      (exc_class e = SSLError ->
       err = "Connection error: " ++ _simplify_error e)
  | Failed _, _ => False
  | _, Ret (_, _, err) _ => err = ""
  | _, _ => True
  end.
Proof.
  unfold _try_get, bind, session_request, ret.
  destruct (http_at E (n_http w) GET) as [r|e|]; [reflexivity| |exact I].
  destruct (exc_class e); cbn; split; try reflexivity; discriminate.
Qed.

(** ** The confirmation loop *)

(** X10. With [retries <= 0] nothing is left to confirm:
    [check_with_confirmation] returns [(True, "")] at once and issues no
    probe, so every UP probe of the monitor counts as confirmed. *)
Theorem check_with_confirmation_nonpositive_retries (E : Env)
    (self : SiteChecker) (retries delay : Z) (w : World) :
  retries <= 0 ->
  check_with_confirmation E self retries delay w = Ret (true, "") w.
Proof.
  intros Hr. unfold check_with_confirmation.
  replace (Z.to_nat (retries * 2)) with O by lia. cbn [confirm_loop].
  replace (0 <? retries * 2)%Z with false by lia. cbn [andb].
  unfold ret. now replace (retries <=? 0)%Z with true by lia.
Qed.

Lemma check_with_confirmation_nonpositive_retries_witness :
  -1 <= 0 /\
  check_with_confirmation (Ex.steady 503 "" 200) Ex.site (-1) 5 world0
  = Ret (true, "") world0.
Proof.
  split; [lia|].
  apply (check_with_confirmation_nonpositive_retries (Ex.steady 503 "" 200)
           Ex.site (-1) 5 world0).
  lia.
Defined.

Lemma counter_from_nonneg (ups : list bool) :
  forall c, 0 <= c -> 0 <= counter_from c ups.
Proof.
  induction ups as [|x ups IH]; intros c Hc; [exact Hc|].
  cbn. apply IH. destruct x; cbn; lia.
Qed.

Lemma counter_from_all_up (m : nat) (c : Z) :
  counter_from c (List.repeat true m) = c + Z.of_nat m.
Proof.
  revert c; induction m as [|m IH]; intros c; [cbn; lia|].
  cbn [List.repeat]. change (counter_from c (true :: ?l))
    with (counter_from (c + 1) l).
  rewrite IH. lia.
Qed.

Lemma counter_from_snoc (c : Z) (ups : list bool) (x : bool) :
  counter_from c (ups ++ [x]) = counter_step (counter_from c ups) x.
Proof. now rewrite counter_from_app. Qed.

(** The counter counts the UP outcomes at the end of the list. *)
Lemma counter_from_tail (ups : list bool) :
  let c := Z.to_nat (counter_from 0 ups) in
  (c <= length ups)%nat /\
  skipn (length ups - c) ups = List.repeat true c.
Proof.
  induction ups as [|x ups IH] using rev_ind; [now split|].
  cbn zeta in *. rewrite counter_from_snoc, length_app. cbn [length].
  pose proof (counter_from_nonneg ups 0 ltac:(lia)) as Hpos.
  destruct IH as [Hle Htail]. destruct x; cbn [counter_step].
  - replace (Z.to_nat (counter_from 0 ups + 1))
      with (S (Z.to_nat (counter_from 0 ups))) by lia.
    split; [lia|].
    rewrite skipn_app.
    replace (length ups + 1 - S (Z.to_nat (counter_from 0 ups)))%nat
      with (length ups - Z.to_nat (counter_from 0 ups))%nat by lia.
    rewrite Htail.
    replace (length ups - Z.to_nat (counter_from 0 ups) - length ups)%nat
      with O by lia.
    cbn [skipn List.repeat]. now rewrite repeat_cons.
  - cbn. split; [lia|].
    rewrite Nat.sub_0_r, skipn_all2; [reflexivity|].
    rewrite length_app. cbn. lia.
Qed.

(** X13. A confirmation is never granted on fewer than [retries] probes, and
    when it is granted the last [retries] probes were all UP; when it is
    refused the whole budget of [2 * retries] probes was used. *)
Theorem confirmation_ends_with_successes (E : Env) (self : SiteChecker)
    (retries delay : Z) (w : World) :
  1 <= retries ->
  0 <= delay ->
  uninterrupted E ->
  exists (n : nat) (b : bool) (info : string) (w' : World),
    check_with_confirmation E self retries delay w = Ret (b, info) w' /\
    probes_issued w' = (probes_issued w + n)%nat /\
    (b = true ->
     (Z.to_nat retries <= n)%nat /\
     skipn (n - Z.to_nat retries) (map up (probes E self n (n_http w)))
     = List.repeat true (Z.to_nat retries)) /\
    (b = false -> n = Z.to_nat (2 * retries)).
Proof.
  intros Hr Hdelay Hrun. unfold check_with_confirmation.
  destruct (confirm_loop_spec E self retries delay (retries * 2) Hrun Hdelay
              (Z.to_nat (retries * 2)) 0 0 "" w)
    as (n & w' & Heq & Hn & Hmin & Hend & Hcount).
  { rewrite Z.sub_0_r. lia. }
  cbn zeta in *. rewrite Z.sub_0_r in *.
  assert (Hlen : length (map up (probes E self n (n_http w))) = n)
    by (rewrite length_map; apply probes_length, Hrun).
  remember (map up (probes E self n (n_http w))) as ups eqn:Hups.
  assert (Hc : counter_from 0 ups <= retries).
  { apply counter_from_bound; [lia|]. now rewrite Hlen. }
  pose proof (counter_from_tail ups) as Htail. cbn zeta in Htail.
  rewrite Hlen in Htail.
  exists n. eexists. eexists. exists w'. split; [exact Heq|].
  split; [exact Hcount|]. split.
  - intros Hb. apply Z.leb_le in Hb.
    replace (counter_from 0 ups) with retries in Htail by lia.
    subst ups. exact Htail.
  - intros Hb. apply Z.leb_gt in Hb. destruct Hend as [H|H]; lia.
Qed.

Lemma confirmation_ends_with_successes_witness :
  1 <= 3 /\ 0 <= 5 /\
  uninterrupted (Ex.scripted [true; false; true; true; true]) /\
  exists (n : nat) (b : bool) (info : string) (w' : World),
    check_with_confirmation (Ex.scripted [true; false; true; true; true])
      Ex.site 3 5 world0 = Ret (b, info) w' /\
    probes_issued w' = (probes_issued world0 + n)%nat.
Proof.
  split; [lia|]. split; [lia|]. split; [apply scripted_uninterrupted|].
  destruct (confirmation_ends_with_successes
              (Ex.scripted [true; false; true; true; true]) Ex.site 3 5 world0
              ltac:(lia) ltac:(lia) (scripted_uninterrupted _))
    as (n & b & info & w' & Heq & Hcount & _).
  exists n, b, info, w'. auto.
Defined.

Lemma firstn_repeat_le {A} (x : A) (m n : nat) :
  (m <= n)%nat -> firstn m (List.repeat x n) = List.repeat x m.
Proof.
  revert n; induction m as [|m IH]; intros n Hle; [reflexivity|].
  destruct n as [|n]; [lia|]. cbn. f_equal. apply IH. lia.
Qed.

Lemma downs_zero (ups : list bool) :
  downs ups = O -> ups = List.repeat true (length ups).
Proof.
  unfold downs. induction ups as [|x ups IH]; [reflexivity|].
  destruct x; cbn; [|discriminate]. intros H. f_equal. now apply IH.
Qed.

Lemma downs_at_most_one (ups : list bool) :
  (downs ups <= 1)%nat ->
  ups = List.repeat true (length ups) \/
  exists a b, ups = (List.repeat true a ++ false :: List.repeat true b)%list.
Proof.
  induction ups as [|x ups IH]; [now left|].
  destruct x; unfold downs in *; cbn [List.filter negb length]; intros H.
  - destruct (IH H) as [Hall|(a & b & Hab)].
    + left. cbn. now f_equal.
    + right. exists (S a), b. cbn. now f_equal.
  - right. exists O, (length ups). cbn. f_equal. apply downs_zero.
    unfold downs. lia.
Qed.

(** With at most one DOWN among [2 * r] outcomes, the counter reaches [r]
    after some prefix. *)
Lemma one_down_has_streak (ups : list bool) (r : nat) :
  length ups = (2 * r)%nat ->
  (downs ups <= 1)%nat ->
  exists j, (j <= 2 * r)%nat /\
            Z.of_nat r <= counter_from 0 (firstn j ups).
Proof.
  intros Hlen Hd. destruct (downs_at_most_one ups Hd) as [Hall|(a & b & Hab)].
  - exists r. split; [lia|]. rewrite Hall, Hlen.
    rewrite firstn_repeat_le by lia. rewrite counter_from_all_up. lia.
  - assert (Hsum : (a + S b = 2 * r)%nat).
    { rewrite Hab, length_app in Hlen. cbn in Hlen.
      now rewrite !repeat_length in Hlen. }
    destruct (le_lt_dec r a) as [Hra|Hra].
    + exists r. split; [lia|]. rewrite Hab, firstn_app, repeat_length.
      replace (r - a)%nat with O by lia. cbn [firstn].
      rewrite app_nil_r, firstn_repeat_le by lia.
      rewrite counter_from_all_up. lia.
    + exists (a + S r)%nat. split; [lia|].
      rewrite Hab, firstn_app, repeat_length.
      rewrite firstn_all2 by (rewrite repeat_length; lia).
      replace (a + S r - a)%nat with (S r) by lia. cbn [firstn].
      rewrite firstn_repeat_le by lia.
      rewrite counter_from_app. cbn [counter_from fold_left counter_step].
      change (fold_left counter_step (List.repeat true r) 0)
        with (counter_from 0 (List.repeat true r)).
      rewrite counter_from_all_up. lia.
Qed.

(** X11. One flaky probe is forgiven: if at most one of the [2 * retries]
    probes that the budget allows is DOWN, the confirmation is granted. *)
Theorem check_with_confirmation_tolerates_one_failure (E : Env)
    (self : SiteChecker) (retries delay : Z) (w : World) :
  1 <= retries ->
  0 <= delay ->
  uninterrupted E ->
  (downs (map up (probes E self (Z.to_nat (2 * retries)) (n_http w))) <= 1)%nat ->
  exists info w',
    check_with_confirmation E self retries delay w = Ret (true, info) w'.
Proof.
  intros Hr Hdelay Hrun Hd. unfold check_with_confirmation.
  destruct (confirm_loop_spec E self retries delay (retries * 2) Hrun Hdelay
              (Z.to_nat (retries * 2)) 0 0 "" w)
    as (n & w' & Heq & Hn & Hmin & Hend & _).
  { rewrite Z.sub_0_r. lia. }
  cbn zeta in *. rewrite Z.sub_0_r in *.
  eexists. exists w'. rewrite Heq. f_equal. f_equal.
  apply Z.leb_le.
  destruct (Z_le_gt_dec retries
              (counter_from 0 (map up (probes E self n (n_http w)))))
    as [Hc|Hc]; [exact Hc|exfalso].
  assert (Hn2 : n = Z.to_nat (retries * 2)) by (destruct Hend; lia).
  set (full := map up (probes E self (Z.to_nat (2 * retries)) (n_http w)))
    in *.
  assert (Hfull : map up (probes E self n (n_http w)) = full).
  { unfold full. subst n. do 3 f_equal. lia. }
  rewrite Hfull in *.
  destruct (one_down_has_streak full (Z.to_nat retries)) as (j & Hj & Hstreak).
  - unfold full. rewrite length_map, probes_length by apply Hrun. lia.
  - exact Hd.
  - destruct (Nat.eq_dec j n) as [->|Hjn].
    + rewrite firstn_all2 in Hstreak
        by (unfold full; rewrite length_map, probes_length by apply Hrun; lia).
      lia.
    + specialize (Hmin j ltac:(lia)). lia.
Qed.

Lemma check_with_confirmation_tolerates_one_failure_witness :
  exists info w',
    check_with_confirmation
      (Ex.scripted [true; true; false; true; true; true]) Ex.site 3 5 world0
    = Ret (true, info) w'.
Proof.
  apply (check_with_confirmation_tolerates_one_failure
           (Ex.scripted [true; true; false; true; true; true]) Ex.site 3 5
           world0).
  - lia.
  - lia.
  - apply scripted_uninterrupted.
  - vm_compute. lia.
Defined.

Section Spacing.
Variable E : Env.
Variable self : SiteChecker.
Variables retries delay max_attempts : Z.
Hypothesis Hrun : uninterrupted E.
Hypothesis Hdelay : 0 <= delay.

Lemma confirm_loop_done (fuel : nat) (attempts successes : Z)
    (last_info : string) (w : World) :
  retries <= successes ->
  confirm_loop E self fuel retries delay max_attempts attempts successes
    last_info w = Ret (true, last_info) w.
Proof.
  intros Hs.
  destruct fuel; cbn [confirm_loop];
    replace (successes <? retries)%Z with false by lia;
    rewrite andb_false_r; unfold ret;
    now replace (retries <=? successes)%Z with true by lia.
Qed.

Lemma check_once_step (w : World) :
  exists ok info code w1,
    check_once E self w = Ret (ok, info, code) w1 /\
    n_sleep w1 = n_sleep w /\ probes_issued w1 = S (probes_issued w).
Proof.
  destruct Hrun as [_ Hhttp].
  destruct (check_once_returns E self Hhttp w) as ([[ok info] code] & w1 & Hc).
  exists ok, info, code, w1. split; [exact Hc|].
  pose proof (check_once_one_head E self w) as Hheads.
  destruct (check_once_world E self w) as [Hw|Hw];
    rewrite Hc in Hw, Hheads; cbn [world_of] in Hw, Hheads; subst w1;
    split; [reflexivity|exact Hheads|reflexivity|exact Hheads].
Qed.

(** The loop sleeps once after every probe but the confirming one. *)
Lemma confirm_loop_sleeps (fuel : nat) :
  forall (attempts successes : Z) (last_info : string) (w : World),
    (Z.to_nat (max_attempts - attempts) <= fuel)%nat ->
    exists (b : bool) (info : string) (w' : World),
      confirm_loop E self fuel retries delay max_attempts attempts successes
        last_info w = Ret (b, info) w' /\
      (probes_issued w <= probes_issued w')%nat /\
      (n_sleep w' + (if b && (successes <? retries)%Z then 1 else 0)
       = n_sleep w + (probes_issued w' - probes_issued w))%nat.
Proof.
  destruct Hrun as [Hsleep Hhttp].
  assert (Hnonneg : (delay <? 0)%Z = false) by lia.
  induction fuel as [|fuel' IH]; intros attempts successes last_info w Hfuel;
    cbn [confirm_loop];
    destruct ((attempts <? max_attempts)%Z && (successes <? retries)%Z)
      eqn:Hguard.
  - lia.
  - eexists; eexists; exists w. split; [reflexivity|]. split; [lia|].
    destruct (retries <=? successes)%Z eqn:Hb, (successes <? retries)%Z eqn:Hs;
      cbn [andb]; lia.
  - destruct (check_once_step w) as (ok & info & code & w1 & Hc & Hs1 & Hp1).
    rewrite (bind_Ret _ _ _ _ _ Hc). cbn beta iota.
    set (s' := counter_step successes ok).
    assert (Hrest : forall w2 : World,
      n_sleep w2 = n_sleep w -> probes_issued w2 = S (probes_issued w) ->
      exists (b : bool) (info' : string) (w' : World),
        (do (if (s' <? retries)%Z then time_sleep E delay else ret tt)
         then confirm_loop E self fuel' retries delay max_attempts
                (attempts + 1) s' info) w2 = Ret (b, info') w' /\
        (probes_issued w <= probes_issued w')%nat /\
        (n_sleep w' + (if b && (successes <? retries)%Z then 1 else 0)
         = n_sleep w + (probes_issued w' - probes_issued w))%nat).
    { intros w2 Hs2 Hp2. unfold bind, time_sleep, ret. rewrite Hnonneg.
      replace (successes <? retries)%Z with true by lia.
      destruct (s' <? retries)%Z eqn:Hlt.
      - rewrite Hsleep.
        destruct (IH (attempts + 1) s' info (after_sleep delay w2) ltac:(lia))
          as (b & info' & w' & Heq & Hle & Hsl).
        rewrite Hlt in Hsl. cbn [n_sleep after_sleep] in Hsl.
        change (probes_issued (after_sleep delay w2))
          with (probes_issued w2) in Hle, Hsl.
        exists b, info', w'. split; [exact Heq|]. split; [lia|].
        destruct b; cbn [andb] in *; lia.
      - rewrite confirm_loop_done by lia.
        exists true, info, w2. split; [reflexivity|]. split; [lia|].
        cbn [andb]. lia. }
    unfold bind at 1.
    destruct ok; [|destruct (successes =? 0)%Z];
      unfold bind at 1, log, record, ret; cbn beta iota;
      apply Hrest; assumption.
  - eexists; eexists; exists w. split; [reflexivity|]. split; [lia|].
    destruct (retries <=? successes)%Z eqn:Hb, (successes <? retries)%Z eqn:Hs;
      cbn [andb]; lia.
Qed.

Lemma quiet_confirm_loop_delay (fuel : nat) :
  forall attempts successes last_info,
    quiet (sleeps_for delay)
      (confirm_loop E self fuel retries delay max_attempts attempts successes
         last_info).
Proof.
  induction fuel as [|fuel IH]; intros; cbn [confirm_loop].
  - repeat quiet_step.
  - assert (Hprobe : quiet (sleeps_for delay) (check_once E self)).
    { unfold check_once, _try_head, _try_get. repeat quiet_step. }
    repeat first [ apply IH | assumption | quiet_step ].
Qed.

End Spacing.

Lemma trace_after_bind {A B} (P : Event -> Prop) (m : M A) (k : A -> M B)
    (w w1 : World) (a : A) :
  m w = Ret a w1 ->
  (forall a, quiet P (k a)) ->
  exists new,
    trace (world_of (bind m k w)) = (new ++ trace w1)%list /\ Forall P new.
Proof.
  intros Hm Hk. rewrite (bind_Ret _ _ _ _ _ Hm).
  destruct (Hk a w1) as (new & Ht & HP & _). now exists new.
Qed.

(** X12. The probes of a confirmation are spaced by [delay]: the first probe
    comes with no delay before it, every sleep lasts [delay] seconds, and
    there is one sleep after each probe, except after the probe that
    confirms. *)
Theorem check_with_confirmation_spacing (E : Env) (self : SiteChecker)
    (retries delay : Z) (w : World) :
  1 <= retries ->
  0 <= delay ->
  uninterrupted E ->
  exists (b : bool) (info : string) (w' : World) (new : list Event),
    check_with_confirmation E self retries delay w = Ret (b, info) w' /\
    trace w' = (new ++ EvRequest HEAD :: trace w)%list /\
    Forall (sleeps_for delay) new /\
    (n_sleep w' + (if b then 1 else 0)
     = n_sleep w + (probes_issued w' - probes_issued w))%nat.
Proof.
  intros Hr Hdelay Hrun.
  destruct (confirm_loop_sleeps E self retries delay (retries * 2) Hrun Hdelay
              (Z.to_nat (retries * 2)) 0 0 "" w)
    as (b & info & w' & Heq & _ & Hsl).
  { rewrite Z.sub_0_r. lia. }
  replace (0 <? retries)%Z with true in Hsl by lia. rewrite andb_true_r in Hsl.
  exists b, info, w'.
  assert (Htrace : exists new,
            trace (world_of (check_with_confirmation E self retries delay w))
            = (new ++ EvRequest HEAD :: trace w)%list /\
            Forall (sleeps_for delay) new).
  { unfold check_with_confirmation.
    destruct (Z.to_nat (retries * 2)) as [|fuel] eqn:Hfuel; [lia|].
    cbn [confirm_loop].
    replace ((0 <? retries * 2)%Z && (0 <? retries)%Z) with true by lia.
    destruct (check_once_step E self Hrun w)
      as (ok & info1 & code & w1 & Hc & _ & _).
    lazymatch goal with
    | |- context [bind (check_once E self) ?K w] =>
        destruct (trace_after_bind (sleeps_for delay) (check_once E self) K
                    w w1 _ Hc) as (new & Ht & HP)
    end.
    { intros [[ok' info'] code'].
      pose proof (quiet_confirm_loop_delay E self retries delay (retries * 2)
                    fuel) as Hloop.
      repeat first [ apply Hloop | quiet_step ]. }
    rewrite Ht.
    destruct (check_once_world E self w) as [Hw|Hw];
      rewrite Hc in Hw; cbn [world_of] in Hw; subst w1;
      cbn [trace after_request].
    - now exists new.
    - exists (new ++ [EvRequest GET])%list. rewrite <- app_assoc.
      split; [reflexivity|]. apply Forall_app. split; [exact HP|].
      now repeat constructor. }
  destruct Htrace as (new & Ht & HP). unfold check_with_confirmation in Ht.
  unfold check_with_confirmation in Heq. rewrite Heq in Ht.
  exists new. repeat split; assumption.
Qed.

Lemma check_with_confirmation_spacing_witness :
  exists (b : bool) (info : string) (w' : World) (new : list Event),
    check_with_confirmation (Ex.scripted [true; false; true; true; true])
      Ex.site 3 5 world0 = Ret (b, info) w' /\
    trace w' = (new ++ EvRequest HEAD :: trace world0)%list /\
    Forall (sleeps_for 5) new /\
    (n_sleep w' + (if b then 1 else 0)
     = n_sleep world0 + (probes_issued w' - probes_issued world0))%nat.
Proof.
  apply (check_with_confirmation_spacing
           (Ex.scripted [true; false; true; true; true]) Ex.site 3 5 world0).
  - lia.
  - lia.
  - apply scripted_uninterrupted.
Defined.

(** ** The notifier *)

Section Notifier.
Variable E : Env.
Variable self : TelegramHandler.
Hypothesis Hposts : posts_complete E.

Lemma sleep_if_completes (c : bool) (s : Z) (w : World) :
  0 <= s ->
  exists w1,
    (if c then time_sleep E s else ret tt) w = Ret tt w1 /\
    n_post w1 = n_post w /\
    n_sleep w1 = (n_sleep w + (if c then 1 else 0))%nat.
Proof.
  intros Hs. destruct c.
  - unfold time_sleep. replace (s <? 0)%Z with false by lia.
    rewrite (proj1 Hposts). eexists. split; [reflexivity|]. cbn. lia.
  - exists w. cbn. split; [reflexivity|]. lia.
Qed.

Lemma notify_attempts_spec (todo : nat) :
  forall attempt retries msg_num header message success w,
  exists b w',
    notify_attempts E self todo attempt retries msg_num header message
      success w = Ret b w' /\
    (n_post w <= n_post w' <= n_post w + todo)%nat /\
    (b = true <->
     success = true \/
     exists k, (n_post w <= k < n_post w')%nat /\ accepted_post E k) /\
    (forall k, (n_post w <= k < n_post w')%nat -> accepted_post E k ->
               n_post w' = S k).
Proof.
  induction todo as [|todo IH];
    intros attempt tries msg_num header message success w;
    cbn [notify_attempts].
  - exists success, w. split; [reflexivity|]. split; [lia|]. split.
    + split; [now left|]. intros [H|(k & Hk & _)]; [exact H|lia].
    + intros k Hk. lia.
  - assert (Hretry : forall (m : M unit) w1,
              post_at E (n_post w) <> PostStatus 200 ->
              m (after_post (EvPost (default "" (chat_id self)) header message)
                   w) = Ret tt w1 ->
              n_post w1 = S (n_post w) ->
              exists b w',
                bind m (fun _ =>
                  do (if (attempt <? tries - 1)%Z then time_sleep E 2
                      else ret tt)
                  then notify_attempts E self todo (attempt + 1) tries
                         msg_num header message success)
                  (after_post (EvPost (default "" (chat_id self)) header
                                 message) w) = Ret b w' /\
                (n_post w <= n_post w' <= n_post w + S todo)%nat /\
                (b = true <->
                 success = true \/
                 exists k, (n_post w <= k < n_post w')%nat /\
                           accepted_post E k) /\
                (forall k, (n_post w <= k < n_post w')%nat ->
                           accepted_post E k -> n_post w' = S k)).
    { intros m w1 Hno Hm Hn1. rewrite (bind_Ret _ _ _ _ _ Hm).
      destruct (sleep_if_completes (attempt <? tries - 1)%Z 2 w1)
        as (w2 & Hs & Hn2 & _); [lia|].
      rewrite (bind_Ret _ _ _ _ _ Hs).
      destruct (IH (attempt + 1) tries msg_num header message success w2)
        as (b & w' & Heq & Hrange & Hb & Hlast).
      exists b, w'. split; [exact Heq|]. split; [lia|]. split.
      - rewrite Hb. split; (intros [H|(k & Hk & Hacc)]; [now left|right]).
        + exists k. split; [lia|exact Hacc].
        + exists k. split; [|exact Hacc].
          assert (k <> n_post w) by (intros ->; now apply Hno). lia.
      - intros k Hk Hacc. apply Hlast; [|exact Hacc].
        assert (k <> n_post w) by (intros ->; now apply Hno). lia. }
    unfold bind at 1. unfold requests_post.
    destruct (post_at E (n_post w)) as [c|err|] eqn:Hp.
    + destruct (c =? 200)%Z eqn:Hc.
      * eexists _, _. split; [reflexivity|]. cbn. split; [lia|]. split.
        -- split; [|reflexivity]. intros _. right. exists (n_post w).
           split; [lia|]. unfold accepted_post. rewrite Hp. f_equal. lia.
        -- intros k Hk _. f_equal. lia.
      * apply (Hretry (log WARNING (LogTelegramHttp (attempt + 1) tries c))
                 (emit (EvLog WARNING (LogTelegramHttp (attempt + 1) tries c))
                    (after_post (EvPost (default "" (chat_id self)) header
                                   message) w))).
        -- intros H. injection H as ->. discriminate.
        -- reflexivity.
        -- reflexivity.
    + apply (Hretry (log WARNING (LogTelegramExc (attempt + 1) tries err))
               (emit (EvLog WARNING (LogTelegramExc (attempt + 1) tries err))
                  (after_post (EvPost (default "" (chat_id self)) header
                                 message) w))).
      * discriminate.
      * reflexivity.
      * reflexivity.
    + now destruct (proj2 Hposts (n_post w)).
Qed.

Lemma notify_messages_spec (todo : nat) :
  forall msg_num retries message success w,
  exists b w',
    notify_messages E self todo msg_num retries message success w
      = Ret b w' /\
    (n_post w <= n_post w' <= n_post w + todo * Z.to_nat retries)%nat /\
    (b = true <->
     success = true \/
     exists k, (n_post w <= k < n_post w')%nat /\ accepted_post E k).
Proof.
  induction todo as [|todo IH];
    intros msg_num tries message success w; cbn [notify_messages].
  - exists success, w. split; [reflexivity|]. split; [lia|].
    split; [now left|]. intros [H|(k & Hk & _)]; [exact H|lia].
  - lazymatch goal with
    | |- context [notify_attempts E self ?t ?a ?r ?n ?h ?m ?s] =>
        destruct (notify_attempts_spec t a r n h m s w)
          as (b1 & w1 & Heq1 & Hr1 & Hb1 & _)
    end.
    rewrite (bind_Ret _ _ _ _ _ Heq1).
    lazymatch goal with
    | |- context [if ?c then time_sleep E 1 else ret tt] =>
        destruct (sleep_if_completes c 1 w1) as (w2 & Hs & Hn2 & _); [lia|]
    end.
    rewrite (bind_Ret _ _ _ _ _ Hs).
    destruct (IH (msg_num + 1) tries message b1 w2)
      as (b & w' & Heq & Hrange & Hb).
    exists b, w'. split; [exact Heq|]. split; [lia|].
    rewrite Hb, Hb1. split.
    + intros [[H|(k & Hk & Hacc)]|(k & Hk & Hacc)]; [now left|right..];
        exists k; (split; [lia|exact Hacc]).
    + intros [H|(k & Hk & Hacc)]; [now left; left|].
      destruct (Nat.lt_ge_cases k (n_post w1)).
      * left. right. exists k. split; [lia|exact Hacc].
      * right. exists k. split; [lia|exact Hacc].
Qed.

Lemma notify_messages_all_accepted (tries : Z) (message : string)
    (todo : nat) :
  (forall k, accepted_post E k) ->
  1 <= tries ->
  forall msg_num success w,
    0 <= msg_num ->
    msg_num + Z.of_nat todo = spam_count self ->
    exists w',
      notify_messages E self todo msg_num tries message success w
        = Ret (success || (0 <? todo)%nat) w' /\
      n_post w' = (n_post w + todo)%nat /\
      n_sleep w' = (n_sleep w + (todo - 1))%nat.
Proof.
  intros Hall Htries.
  induction todo as [|todo IH]; intros msg_num success w Hmsg Hspam;
    cbn [notify_messages].
  - exists w. rewrite orb_false_r. split; [reflexivity|]. lia.
  - destruct (Z.to_nat tries) as [|fuel] eqn:Hfuel; [lia|].
    assert (Hsent : forall header,
              notify_attempts E self (S fuel) 0 tries msg_num header message
                success w
              = Ret true
                  (emit (EvLog INFO
                           (LogTelegramSent (msg_num + 1) (spam_count self)))
                     (after_post
                        (EvPost (default "" (chat_id self)) header message)
                        w))).
    { intros header. cbn [notify_attempts]. unfold bind at 1.
      unfold requests_post. pose proof (Hall (n_post w)) as Hacc.
      unfold accepted_post in Hacc. rewrite Hacc. reflexivity. }
    rewrite (bind_Ret _ _ _ _ _ (Hsent _)).
    lazymatch goal with
    | |- context [bind (if ?c then time_sleep E 1 else ret tt) _ ?w1] =>
        destruct (sleep_if_completes c 1 w1) as (w2 & Hs & Hn2 & Hsl);
          [lia|]; rewrite (bind_Ret _ _ _ _ _ Hs);
          replace c with (0 <? todo)%nat in Hsl
            by (destruct (Nat.ltb_spec 0 todo); symmetry;
                [ apply andb_true_intro; split; apply Z.ltb_lt; lia
                | apply andb_false_iff; right; apply Z.ltb_ge; lia ])
    end.
    destruct (IH (msg_num + 1) true w2) as (w' & Heq & Hp & Hsl');
      [lia|lia|].
    exists w'. rewrite orb_true_r. split; [exact Heq|].
    cbn [n_post n_sleep emit after_post] in Hn2, Hsl.
    destruct (Nat.ltb_spec 0 todo); lia.
Qed.

Lemma notify_attempts_posts (todo : nat) :
  forall attempt tries msg_num header message success w,
    (n_post w
     < n_post (world_of (notify_attempts E self (S todo) attempt tries msg_num
                           header message success w)))%nat.
Proof.
  intros attempt tries msg_num header message success w.
  assert (Hretry : forall lvl line,
            (n_post w
             < n_post (world_of
                 ((do log lvl line then
                   do (if (attempt <? tries - 1)%Z then time_sleep E 2
                       else ret tt)
                   then notify_attempts E self todo (attempt + 1) tries
                          msg_num header message success)
                    (after_post
                       (EvPost (default "" (chat_id self)) header message)
                       w))))%nat).
  { intros lvl line.
    rewrite (bind_Ret (log lvl line) _ _ _ tt eq_refl).
    lazymatch goal with
    | |- context [bind (if ?c then time_sleep E 2 else ret tt) _ ?w1] =>
        destruct (sleep_if_completes c 2 w1) as (w2 & Hs & Hn2 & _); [lia|]
    end.
    rewrite (bind_Ret _ _ _ _ _ Hs).
    destruct (notify_attempts_spec todo (attempt + 1) tries msg_num header
                message success w2) as (b & w' & Heq & Hrange & _).
    rewrite Heq. cbn [world_of]. cbn [n_post emit after_post] in Hn2. lia. }
  cbn [notify_attempts]. unfold bind at 1. unfold requests_post.
  destruct (post_at E (n_post w)) as [c|err|].
  - destruct (c =? 200)%Z; [cbn; lia|apply Hretry].
  - apply Hretry.
  - cbn. lia.
Qed.

Lemma notify_messages_posts (todo : nat) :
  forall msg_num tries message success w,
    1 <= tries ->
    (n_post w
     < n_post (world_of (notify_messages E self (S todo) msg_num tries message
                           success w)))%nat.
Proof.
  intros msg_num tries message success w Htries. cbn [notify_messages].
  destruct (Z.to_nat tries) as [|fuel] eqn:Hfuel; [lia|].
  lazymatch goal with
  | |- context [notify_attempts E self (S fuel) ?a ?r ?n ?h ?m ?s] =>
      pose proof (notify_attempts_posts fuel a r n h m s w) as Hlt;
      destruct (notify_attempts_spec (S fuel) a r n h m s w)
        as (b1 & w1 & Heq1 & _)
  end.
  rewrite Heq1 in Hlt. cbn [world_of] in Hlt.
  rewrite (bind_Ret _ _ _ _ _ Heq1).
  lazymatch goal with
  | |- context [bind (if ?c then time_sleep E 1 else ret tt) _ ?w1] =>
      destruct (sleep_if_completes c 1 w1) as (w2 & Hs & Hn2 & _); [lia|]
  end.
  rewrite (bind_Ret _ _ _ _ _ Hs).
  destruct (notify_messages_spec todo (msg_num + 1) tries message b1 w2)
    as (b & w' & Heq & Hrange & _).
  rewrite Heq. cbn [world_of]. lia.
Qed.

End Notifier.

(** X14. [notify] reports whether Telegram accepted a post: it returns
    [True] exactly when some post of the call was answered with HTTP 200,
    so one accepted message out of several is reported as a success.  A
    handler that is not configured logs the error, posts nothing and
    returns [False]; a configured one, with a message to send and an
    attempt to make, posts at least once. *)
Theorem notify_true_iff_some_post_accepted (E : Env) (self : TelegramHandler)
    (message : string) (tries : Z) (w : World) :
  posts_complete E ->
  exists (b : bool) (w' : World),
    notify E self message tries w = Ret b w' /\
    (b = true <->
     exists k, (n_post w <= k < n_post w')%nat /\ accepted_post E k) /\
    (is_configured self = false ->
     b = false /\
     w' = emit (EvLog ERROR LogTelegramNotConfigured)
            (emit (EvNotify message) w)) /\
    (is_configured self = true -> 1 <= spam_count self -> 1 <= tries ->
     (n_post w < n_post w')%nat).
Proof.
  intros Hposts. unfold notify. unfold bind at 1. unfold record.
  destruct (is_configured self) eqn:Hconf; cbn [negb].
  - destruct (notify_messages_spec E self Hposts
                (Z.to_nat (spam_count self)) 0 tries message false
                (emit (EvNotify message) w))
      as (b & w' & Heq & _ & Hb).
    exists b, w'. split; [exact Heq|]. split; [|split; [discriminate|]].
    + rewrite Hb. cbn [n_post emit].
      split; [intros [H|H]; [discriminate|exact H]|now right].
    + intros _ Hspam Htries.
      destruct (Z.to_nat (spam_count self)) as [|todo] eqn:Htodo; [lia|].
      pose proof (notify_messages_posts E self Hposts todo 0 tries message
                    false (emit (EvNotify message) w) Htries) as Hlt.
      rewrite Heq in Hlt. exact Hlt.
  - eexists _, _. split; [reflexivity|]. cbn.
    split; [|split; [auto|discriminate]].
    split; [discriminate|]. intros (k & Hk & _). lia.
Qed.

Lemma notify_true_iff_some_post_accepted_witness :
  exists (b : bool) (w' : World),
    notify (Ex.telegram_accepts_only 4) (Ex.bot_spam 2) "up" 3 world0
      = Ret b w' /\
    (b = true <->
     exists k, (n_post world0 <= k < n_post w')%nat /\
               accepted_post (Ex.telegram_accepts_only 4) k) /\
    (is_configured (Ex.bot_spam 2) = false ->
     b = false /\
     w' = emit (EvLog ERROR LogTelegramNotConfigured)
            (emit (EvNotify "up") world0)) /\
    (is_configured (Ex.bot_spam 2) = true ->
     1 <= spam_count (Ex.bot_spam 2) -> 1 <= 3 ->
     (n_post world0 < n_post w')%nat).
Proof.
  apply (notify_true_iff_some_post_accepted (Ex.telegram_accepts_only 4)
           (Ex.bot_spam 2) "up" 3 world0).
  split; [reflexivity|discriminate].
Defined.

(** X15. [notify] posts at most [retries] times for each of its
    [spam_count] messages; with [retries <= 0] it posts nothing. *)
Theorem notify_post_budget (E : Env) (self : TelegramHandler)
    (message : string) (tries : Z) (w : World) :
  posts_complete E ->
  (n_post w <= n_post (world_of (notify E self message tries w))
   <= n_post w + Z.to_nat (spam_count self) * Z.to_nat tries)%nat.
Proof.
  intros Hposts. unfold notify, bind, record.
  destruct (is_configured self); cbn [negb].
  - destruct (notify_messages_spec E self Hposts
                (Z.to_nat (spam_count self)) 0 tries message false
                (emit (EvNotify message) w))
      as (b & w' & Heq & Hrange & _).
    rewrite Heq. cbn [world_of]. cbn [n_post emit] in Hrange. exact Hrange.
  - cbn. lia.
Qed.

Lemma notify_post_budget_witness :
  (n_post world0
   <= n_post (world_of (notify (Ex.steady 302 "" 500) (Ex.bot_spam 2) "up" 3
                          world0))
   <= n_post world0 + Z.to_nat (spam_count (Ex.bot_spam 2)) * Z.to_nat 3)%nat.
Proof.
  apply (notify_post_budget (Ex.steady 302 "" 500) (Ex.bot_spam 2) "up" 3
           world0).
  split; [reflexivity|discriminate].
Defined.

(** X16. When Telegram accepts every post, a configured handler built by
    [__init__] delivers each of its [max(1, spam_count)] messages with one
    post, pauses between two messages only, and returns [True]. *)
Theorem notify_all_accepted (E : Env) (tok chat : option string)
    (spam tries : Z) (message : string) (w : World) :
  (forall k, sleep_at E k = false) ->
  (forall k, accepted_post E k) ->
  truthy tok = true ->
  truthy chat = true ->
  1 <= tries ->
  exists w',
    notify E (TelegramHandler_init tok chat spam) message tries w
      = Ret true w' /\
    n_post w' = (n_post w + Z.to_nat (Z.max 1 spam))%nat /\
    n_sleep w' = (n_sleep w + (Z.to_nat (Z.max 1 spam) - 1))%nat.
Proof.
  intros Hsleep Hall Htok Hchat Htries.
  assert (Hposts : posts_complete E).
  { split; [exact Hsleep|]. intros k H. specialize (Hall k).
    unfold accepted_post in Hall. congruence. }
  unfold notify. unfold bind at 1. unfold record.
  unfold is_configured. cbn [token chat_id TelegramHandler_init].
  rewrite Htok, Hchat. cbn [andb negb].
  destruct (notify_messages_all_accepted E (TelegramHandler_init tok chat spam)
              Hposts tries message
              (Z.to_nat (spam_count (TelegramHandler_init tok chat spam)))
              Hall Htries 0 false (emit (EvNotify message) w))
    as (w' & Heq & Hp & Hs).
  - lia.
  - cbn [spam_count TelegramHandler_init]. lia.
  - cbn [spam_count TelegramHandler_init] in *.
    exists w'. split.
    + rewrite Heq. f_equal. cbn [orb].
      apply Nat.ltb_lt. lia.
    + cbn [n_post n_sleep emit] in Hp, Hs. split; assumption.
Qed.

Lemma notify_all_accepted_witness :
  exists w',
    notify (Ex.steady 302 "" 200)
      (TelegramHandler_init (Some "token") (Some "42") 3) "up" 3 world0
      = Ret true w' /\
    n_post w' = (n_post world0 + Z.to_nat (Z.max 1 3))%nat /\
    n_sleep w' = (n_sleep world0 + (Z.to_nat (Z.max 1 3) - 1))%nat.
Proof.
  apply (notify_all_accepted (Ex.steady 302 "" 200) (Some "token") (Some "42")
           3 3 "up" world0); try reflexivity.
  lia.
Defined.

(** ** The stop conditions *)

(** X17. A well-formed stop time is the next occurrence of that time of
    day: [_parse_until] reads the clock once and returns a time strictly
    after the reading and at most one day later, at hour [hh], minute [mm],
    second 0. *)
Theorem parse_until_next_occurrence (E : Env) (until : string) (hh mm : Z)
    (w : World) :
  parse_hh_mm until = Some (hh, mm) ->
  0 <= hh <= 23 ->
  0 <= mm <= 59 ->
  exists target,
    _parse_until E (Some until) w = Ret (Some target) (after_now w) /\
    now_at E (n_now w) < target <= now_at E (n_now w) + Datetime.DAY /\
    Datetime.hour target = hh /\
    Datetime.minute target = mm /\
    target mod Datetime.MINUTE = 0.
Proof.
  intros Hparse Hhh Hmm.
  destruct until as [|c until]; [vm_compute in Hparse; discriminate|].
  unfold _parse_until. cbn [truthy negb].
  change (default "" (Some (String c until))) with (String c until).
  rewrite Hparse. unfold bind, datetime_now, Datetime.replace_hm, ret.
  replace ((0 <=? hh)%Z && (hh <=? 23)%Z && (0 <=? mm)%Z && (mm <=? 59)%Z)
    with true by lia.
  remember (now_at E (n_now w)) as now eqn:Hnow. clear Hnow.
  eexists. split; [reflexivity|].
  unfold Datetime.hour, Datetime.minute, Datetime.DAY, Datetime.HOUR,
    Datetime.MINUTE, Datetime.SECOND.
  change (24 * (60 * (60 * 1000000))) with 86400000000.
  change (60 * (60 * 1000000)) with 3600000000.
  change (60 * 1000000) with 60000000.
  pose proof (Z.div_mod now 86400000000 ltac:(lia)) as Hdm.
  pose proof (Z.mod_pos_bound now 86400000000 ltac:(lia)) as Hd.
  remember (now / 86400000000) as q eqn:Hq. clear Hq.
  remember (now mod 86400000000) as d eqn:Hdd. clear Hdd.
  replace (now - d) with (86400000000 * q) by lia.
  destruct (86400000000 * q + hh * 3600000000 + mm * 60000000 <=? now)%Z
    eqn:Hle.
  - apply Z.leb_le in Hle.
    assert (Hmod : (86400000000 * q + hh * 3600000000 + mm * 60000000
                    + 86400000000) mod 86400000000
                   = hh * 3600000000 + mm * 60000000).
    { symmetry. apply Z.mod_unique with (q := q + 1); lia. }
    assert (Hmodh : (86400000000 * q + hh * 3600000000 + mm * 60000000
                     + 86400000000) mod 3600000000 = mm * 60000000).
    { symmetry. apply Z.mod_unique with (q := 24 * q + hh + 24); lia. }
    rewrite Hmod, Hmodh. repeat split; try lia.
    + symmetry. apply Z.div_unique with (r := mm * 60000000); lia.
    + symmetry. apply Z.div_unique with (r := 0); lia.
    + symmetry.
      apply Z.mod_unique with (q := 1440 * q + 60 * hh + mm + 1440); lia.
  - apply Z.leb_gt in Hle.
    assert (Hmod : (86400000000 * q + hh * 3600000000 + mm * 60000000)
                   mod 86400000000
                   = hh * 3600000000 + mm * 60000000).
    { symmetry. apply Z.mod_unique with (q := q); lia. }
    assert (Hmodh : (86400000000 * q + hh * 3600000000 + mm * 60000000)
                    mod 3600000000 = mm * 60000000).
    { symmetry. apply Z.mod_unique with (q := 24 * q + hh); lia. }
    rewrite Hmod, Hmodh. repeat split; try lia.
    + symmetry. apply Z.div_unique with (r := mm * 60000000); lia.
    + symmetry. apply Z.div_unique with (r := 0); lia.
    + symmetry.
      apply Z.mod_unique with (q := 1440 * q + 60 * hh + mm); lia.
Qed.

Lemma parse_until_next_occurrence_witness :
  exists target,
    _parse_until (Ex.steady 503 "" 200) (Some "08:30") world0
    = Ret (Some target) (after_now world0) /\
    now_at (Ex.steady 503 "" 200) (n_now world0) < target
    <= now_at (Ex.steady 503 "" 200) (n_now world0) + Datetime.DAY /\
    Datetime.hour target = 8 /\
    Datetime.minute target = 30 /\
    target mod Datetime.MINUTE = 0.
Proof.
  apply (parse_until_next_occurrence (Ex.steady 503 "" 200) "08:30" 8 30
           world0).
  - reflexivity.
  - lia.
  - lia.
Defined.

Lemma time_limit_latches (self : SiteMonitor) (t1 t2 : Z) :
  t1 <= t2 ->
  time_limit_reached self t1 = true -> time_limit_reached self t2 = true.
Proof.
  unfold time_limit_reached. destruct (stop_after_minutes self); [lia|easy].
Qed.

Lemma stop_time_latches (self : SiteMonitor) (t1 t2 : Z) :
  t1 <= t2 ->
  stop_time_reached self t1 = true -> stop_time_reached self t2 = true.
Proof.
  unfold stop_time_reached. destruct (stop_at_time self); [lia|easy].
Qed.

Lemma should_stop_value (E : Env) (self : SiteMonitor) (w : World) :
  exists reason,
    _should_stop E self w
    = Ret (time_limit_reached self (now_at E (n_now w))
           || stop_time_reached self (now_at E (n_now w)), reason)
        (after_now w).
Proof.
  unfold _should_stop, bind, datetime_now, ret.
  destruct (time_limit_reached self (now_at E (n_now w)));
    [now eexists|].
  destruct (stop_time_reached self (now_at E (n_now w))); now eexists.
Qed.

Lemma stop_condition_latches (E : Env) (self : SiteMonitor) (i j : nat) :
  monotone_clock E ->
  (i <= j)%nat ->
  time_limit_reached self (now_at E i) || stop_time_reached self (now_at E i)
  = true ->
  time_limit_reached self (now_at E j) || stop_time_reached self (now_at E j)
  = true.
Proof.
  intros Hmono Hij H. apply orb_true_iff in H. apply orb_true_iff.
  destruct H as [H|H]; [left|right].
  - exact (time_limit_latches self _ _ (Hmono i j Hij) H).
  - exact (stop_time_latches self _ _ (Hmono i j Hij) H).
Qed.

(** X18. The stop conditions latch: under a clock that never goes back,
    once [_should_stop] has said yes it says yes at every later check. *)
Theorem should_stop_latches (E : Env) (self : SiteMonitor) (w1 w2 w1' : World)
    (reason1 : string) :
  monotone_clock E ->
  (n_now w1 <= n_now w2)%nat ->
  _should_stop E self w1 = Ret (true, reason1) w1' ->
  exists reason2, _should_stop E self w2 = Ret (true, reason2) (after_now w2).
Proof.
  intros Hmono Hle H1.
  destruct (should_stop_value E self w1) as (r1 & Hv1).
  destruct (should_stop_value E self w2) as (r2 & Hv2).
  rewrite Hv1 in H1. injection H1 as Hb _ _.
  rewrite (stop_condition_latches E self _ _ Hmono Hle Hb) in Hv2.
  now exists r2.
Qed.

Lemma monotone_clock_steady (code : Z) (body : string) (status : Z) :
  monotone_clock (Ex.steady code body status).
Proof. intros i j H. cbn. unfold Ex.clock, Datetime.SECOND. nia. Qed.

Lemma should_stop_latches_witness :
  exists reason2,
    _should_stop (Ex.steady 503 "" 200) (Ex.monitor 3 (Some 1) None)
      {| n_now := 75; n_http := 0; n_post := 0; n_sleep := 0;
         last_notification := None; trace := [] |}
    = Ret (true, reason2)
        (after_now
           {| n_now := 75; n_http := 0; n_post := 0; n_sleep := 0;
              last_notification := None; trace := [] |}).
Proof.
  apply (should_stop_latches (Ex.steady 503 "" 200)
           (Ex.monitor 3 (Some 1) None)
           {| n_now := 60; n_http := 0; n_post := 0; n_sleep := 0;
              last_notification := None; trace := [] |}
           {| n_now := 75; n_http := 0; n_post := 0; n_sleep := 0;
              last_notification := None; trace := [] |}
           (after_now
              {| n_now := 60; n_http := 0; n_post := 0; n_sleep := 0;
                 last_notification := None; trace := [] |})
           "Time limit reached (1 minutes)").
  - apply monotone_clock_steady.
  - cbn. lia.
  - reflexivity.
Defined.

(** ** Termination of the monitor loop *)

Section Advances.
Context {A B : Type}.

Lemma advances_ret (a : A) : advances (ret a).
Proof. intros w. cbn. lia. Qed.

Lemma advances_bind (m : M A) (k : A -> M B) :
  advances m -> (forall a, advances (k a)) -> advances (bind m k).
Proof.
  intros Hm Hk w. specialize (Hm w). unfold bind.
  destruct (m w) as [a w1|[] w1|w1]; try contradiction.
  - specialize (Hk a w1). cbn [world_of] in Hm.
    destruct (k a w1) as [b w2|[] w2|w2]; try contradiction;
      cbn [world_of] in *; lia.
  - exact Hm.
Qed.

Lemma ends_ret (n : nat) (a : A) : ends_from n (ret a).
Proof. now intros w _. Qed.

Lemma ends_bind (n : nat) (m : M A) (k : A -> M B) :
  advances m -> (forall a, ends_from n (k a)) -> ends_from n (bind m k).
Proof.
  intros Hm Hk w Hn. specialize (Hm w). unfold bind.
  destruct (m w) as [a w1|[] w1|w1]; try contradiction.
  - apply Hk. cbn [world_of] in Hm. lia.
  - exact I.
Qed.

End Advances.

Section Advances_primitives.
Variable E : Env.

Lemma advances_record (e : Event) : advances (record e).
Proof. intros w. cbn. lia. Qed.

Lemma advances_now : advances (datetime_now E).
Proof. intros w. cbn. lia. Qed.

Lemma advances_get_last : advances get_last_notification.
Proof. intros w. cbn. lia. Qed.

Lemma advances_set_last (v : option Z) : advances (set_last_notification v).
Proof. intros w. cbn. lia. Qed.

Lemma advances_sleep (s : Z) : 0 <= s -> advances (time_sleep E s).
Proof.
  intros Hs w. unfold time_sleep. replace (s <? 0)%Z with false by lia.
  destruct (sleep_at E (n_sleep w)); cbn; lia.
Qed.

Lemma advances_request (m : Method) : advances (session_request E m).
Proof.
  intros w. unfold session_request.
  destruct (http_at E (n_http w) m); cbn; lia.
Qed.

Lemma advances_post (c : string) (h : TelegramHeader) (msg : string) :
  advances (requests_post E c h msg).
Proof.
  intros w. unfold requests_post. destruct (post_at E (n_post w)); cbn; lia.
Qed.

End Advances_primitives.

Ltac advances_step :=
  first
    [ apply advances_ret | apply advances_record | apply advances_now
    | apply advances_get_last | apply advances_set_last
    | apply advances_sleep; lia
    | apply advances_request | apply advances_post
    | apply advances_bind; [|intros ?]
    | match goal with
      | |- advances (match ?x with _ => _ end) => destruct x
      end ].

Section Advances_programs.
Variable E : Env.

Lemma advances_check_once (self : SiteChecker) : advances (check_once E self).
Proof. unfold check_once, _try_head, _try_get. repeat advances_step. Qed.

Lemma advances_confirm_loop (self : SiteChecker)
    (tries delay max_attempts : Z) (fuel : nat) :
  0 <= delay ->
  forall attempts successes last_info,
    (Z.to_nat (max_attempts - attempts) <= fuel)%nat ->
    advances (confirm_loop E self fuel tries delay max_attempts attempts
                successes last_info).
Proof.
  intros Hdelay. induction fuel as [|fuel IH]; intros attempts successes
    last_info Hfuel; cbn [confirm_loop];
    destruct (attempts <? max_attempts)%Z eqn:Ha; cbn [andb];
    try (destruct (successes <? tries)%Z); try apply advances_ret.
  - lia.
  - pose proof (advances_check_once self). unfold log.
    repeat first [ apply IH; lia | assumption | advances_step ].
Qed.

Lemma advances_check_with_confirmation (self : SiteChecker)
    (tries delay : Z) :
  0 <= delay -> advances (check_with_confirmation E self tries delay).
Proof.
  intros Hdelay. unfold check_with_confirmation.
  apply advances_confirm_loop; [assumption|]. rewrite Z.sub_0_r. lia.
Qed.

Lemma advances_notify_attempts (self : TelegramHandler) (todo : nat) :
  forall attempt tries msg_num header message success,
    advances (notify_attempts E self todo attempt tries msg_num header
                message success).
Proof.
  induction todo as [|todo IH]; intros; cbn [notify_attempts]; unfold log.
  - repeat advances_step.
  - repeat first [ apply IH | advances_step ].
Qed.

Lemma advances_notify_messages (self : TelegramHandler) (todo : nat) :
  forall msg_num tries message success,
    advances (notify_messages E self todo msg_num tries message success).
Proof.
  induction todo as [|todo IH]; intros; cbn [notify_messages].
  - repeat advances_step.
  - pose proof (advances_notify_attempts self).
    repeat first [ apply IH | apply H | advances_step ].
Qed.

Lemma advances_notify (self : TelegramHandler) (message : string)
    (tries : Z) :
  advances (notify E self message tries).
Proof.
  unfold notify, log. pose proof (advances_notify_messages self).
  repeat first [ apply H | advances_step ].
Qed.

Variable self : SiteMonitor.
Hypothesis Hinterval : 0 <= interval self.
Hypothesis Hdelay : 0 <= retry_delay self.

Lemma ends_on_confirmed (n : nat) (cinfo : string) (continue : M Z) :
  ends_from n continue -> ends_from n (on_confirmed E self cinfo continue).
Proof.
  intros Hc. unfold on_confirmed, log.
  pose proof (advances_notify (telegram self)).
  repeat first
    [ assumption | apply ends_ret
    | apply ends_bind; [solve [repeat first [apply H | advances_step]]
                       |intros ?]
    | match goal with
      | |- ends_from _ (match ?x with _ => _ end) => destruct x
      end ].
Qed.

Lemma ends_run_loop (K : nat) :
  (forall k, (K <= k)%nat -> stop_due self (now_at E k) = true) ->
  forall fuel last_state check_count,
    ends_from (K - fuel) (run_loop E self (S fuel) last_state check_count).
Proof.
  intros Hdue. induction fuel as [|fuel IH]; intros last_state check_count w Hw.
  - destruct (should_stop_value E self w) as (reason & Hstop).
    fold (stop_due self (now_at E (n_now w))) in Hstop.
    rewrite Hdue in Hstop by lia.
    cbn [run_loop]. now rewrite (bind_Ret _ _ _ _ _ Hstop).
  - destruct (should_stop_value E self w) as (reason & Hstop).
    fold (stop_due self (now_at E (n_now w))) in Hstop.
    remember (S fuel) as fuel1 eqn:Hfuel1.
    cbn [run_loop]. rewrite (bind_Ret _ _ _ _ _ Hstop). subst fuel1.
    destruct (stop_due self (now_at E (n_now w))); [exact I|].
    assert (Hcont : forall last_state check_count,
              ends_from (K - fuel)
                (do time_sleep E (interval self)
                 then run_loop E self (S fuel) last_state check_count)).
    { intros ls cc. apply ends_bind; [now apply advances_sleep|].
      intros _. apply IH. }
    pose proof (advances_check_once (checker self)) as Hprobe.
    pose proof (advances_check_with_confirmation (checker self)
                  (retries self) (retry_delay self) Hdelay) as Hconfirm.
    assert (Hbody : ends_from (K - fuel)
              (let* '(ok, info, _) := check_once E (checker self) in
               let state := if ok : bool then "UP" else "DOWN" in
               let* last_state :=
                 if negb (bool_decide (Some state = last_state)) then
                   do log INFO (LogStateChanged state info)
                   then ret (Some state)
                 else
                   do log DEBUG (LogCheck (check_count + 1) state info)
                   then ret last_state in
               let continue :=
                 do time_sleep E (interval self)
                 then run_loop E self (S fuel) last_state
                        (check_count + 1) in
               if ok then
                 do log INFO LogConfirming then
                 let* '(confirmed, cinfo) :=
                   check_with_confirmation E (checker self) (retries self)
                     (retry_delay self) in
                 if confirmed : bool then on_confirmed E self cinfo continue
                 else continue
               else continue)).
    { unfold log.
      repeat first
        [ apply Hcont | apply ends_on_confirmed | apply ends_ret
        | apply ends_bind;
          [solve [repeat first [assumption | advances_step]]|intros ?]
        | match goal with
          | |- ends_from _ (match ?x with _ => _ end) => destruct x
          | |- ends_from _ (let '(_, _) := ?x in _) => destruct x
          end ]. }
    apply Hbody. cbn [n_now after_now]. lia.
Qed.

End Advances_programs.

(** X19. A run ends once a stop condition is due: if the time limit or the
    stop time is reached at the [K]-th reading of a clock that never goes
    back, and [time.sleep] accepts the interval and the retry delay, then
    the run returns 0 or 1 within [K] more iterations, whatever the site and
    Telegram answer and whether or not a call is interrupted. *)
Theorem run_ends_once_stop_is_due (E : Env) (self : SiteMonitor) (K fuel : nat)
    (w : World) :
  monotone_clock E ->
  0 <= interval self ->
  0 <= retry_delay self ->
  stop_due self (now_at E K) = true ->
  (K <= n_now w + fuel)%nat ->
  exists c w', run E self (S fuel) w = Ret c w' /\ (c = 0 \/ c = 1).
Proof.
  intros Hmono Hinterval Hdelay HK Hfuel.
  assert (Hdue : forall k, (K <= k)%nat -> stop_due self (now_at E k) = true).
  { intros k Hk. exact (stop_condition_latches E self K k Hmono Hk HK). }
  assert (Hret : exists c w', run E self (S fuel) w = Ret c w').
  { unfold run, bind, log, record, ret, catch_KeyboardInterrupt.
    destruct (stop_at_time self), (stop_after_minutes self);
      match goal with
      | |- context [run_loop E self (S fuel) ?ls ?cc ?w1] =>
          pose proof (ends_run_loop E self Hinterval Hdelay K Hdue fuel ls cc
                        w1) as H;
          destruct (run_loop E self (S fuel) ls cc w1) as [c w2|[] w2|w2]
      end;
      try (now eexists; eexists); exfalso; apply H; cbn; lia. }
  destruct Hret as (c & w' & Hrun). exists c, w'. split; [exact Hrun|].
  pose proof (run_exits_as_logged E self (S fuel) w) as Hcode.
  rewrite Hrun in Hcode. subst c.
  destruct (termination_logged w'); cbn; auto.
Qed.

Lemma run_ends_once_stop_is_due_witness :
  exists c w',
    run (Ex.steady 503 "" 200) (Ex.monitor 3 (Some 1) None) 61 world0
    = Ret c w' /\ (c = 0 \/ c = 1).
Proof.
  apply (run_ends_once_stop_is_due (Ex.steady 503 "" 200)
           (Ex.monitor 3 (Some 1) None) 60 60 world0).
  - apply monotone_clock_steady.
  - cbn. lia.
  - cbn. lia.
  - reflexivity.
  - cbn. lia.
Defined.

(** ** The monitor while the site is down *)

Lemma check_once_never_accepted (E : Env) (self : SiteChecker) (w : World) :
  never_accepted E self ->
  exists info code w',
    check_once E self w = Ret (false, info, code) w' /\
    (w' = after_request HEAD w \/
     w' = after_request GET (after_request HEAD w)).
Proof.
  intros Hnever.
  pose proof (Hnever (n_http w) HEAD) as Hhead.
  pose proof (Hnever (S (n_http w)) GET) as Hget.
  unfold_check_once. cbn [n_http after_request].
  repeat (split_goal_step; cbn beta iota; cbn [n_http after_request]);
    repeat match goal with
           | Hh : http_at _ _ _ = _, Hm : match http_at _ _ _ with _ => _ end
             |- _ => rewrite Hh in Hm
           end;
    try contradiction;
    repeat match goal with
           | Hn : negb _ = false |- _ => apply negb_false_iff in Hn
           | Hn : in_ok_codes _ _ = true |- _ => apply in_ok_codes_elem in Hn
           end;
    try contradiction;
    eexists _, _, _; (split; [reflexivity|]); auto.
Qed.

Section WhileDown.
Variable E : Env.
Variable self : SiteMonitor.
Hypothesis Hnever : never_accepted E (checker self).
Hypothesis Hsleep : forall k, sleep_at E k = false.
Hypothesis Hinterval : 0 <= interval self.
Hypothesis Hafter : stop_after_minutes self = None.
Hypothesis Hat : stop_at_time self = None.

Lemma run_loop_while_down (fuel : nat) :
  forall last_state check_count w,
  exists w',
    run_loop E self fuel last_state check_count w = OutOfFuel w' /\
    probes_issued w' = (probes_issued w + fuel)%nat /\
    n_sleep w' = (n_sleep w + fuel)%nat /\
    n_post w' = n_post w /\
    notify_calls (trace w') = notify_calls (trace w) /\
    last_notification w' = last_notification w.
Proof.
  induction fuel as [|fuel IH]; intros last_state check_count w.
  - exists w. cbn. repeat split; lia.
  - cbn [run_loop].
    assert (Hstop : _should_stop E self w = Ret (false, "") (after_now w)).
    { unfold _should_stop, bind, datetime_now, time_limit_reached,
        stop_time_reached. now rewrite Hafter, Hat. }
    rewrite (bind_Ret _ _ _ _ _ Hstop).
    destruct (check_once_never_accepted E (checker self) (after_now w) Hnever)
      as (info & code & w1 & Hprobe & Hw1).
    rewrite (bind_Ret _ _ _ _ _ Hprobe).
    assert (Hnap : forall w2,
              time_sleep E (interval self) w2
              = Ret tt (after_sleep (interval self) w2)).
    { intros w2. unfold time_sleep.
      replace (interval self <? 0)%Z with false by lia.
      now rewrite Hsleep. }
    destruct (negb (bool_decide (Some "DOWN" = last_state)));
      unfold log, record, bind, ret;
      rewrite Hnap;
      match goal with
      | |- context [run_loop E self fuel ?ls ?cc ?w2] =>
          destruct (IH ls cc w2) as (w' & Heq & Hp & Hs & Hposts & Hn & Hl)
      end;
      exists w'; (split; [exact Heq|]);
      rewrite Hp, Hs, Hposts, Hn, Hl;
      destruct Hw1 as [-> | ->]; unfold probes_issued; cbn;
      repeat split; lia.
Qed.

End WhileDown.

(** X20. While the site is down the monitor keeps watching: with no stop
    condition, a site that never answers with an accepted code and sleeps
    that are not interrupted, the run is still going after any number of
    iterations; each iteration costs one probe and one sleep, and nothing is
    posted to Telegram. *)
Theorem run_keeps_watching_while_down (E : Env) (self : SiteMonitor)
    (fuel : nat) (w : World) :
  never_accepted E (checker self) ->
  (forall k, sleep_at E k = false) ->
  0 <= interval self ->
  stop_after_minutes self = None ->
  stop_at_time self = None ->
  exists w',
    run E self fuel w = OutOfFuel w' /\
    probes_issued w' = (probes_issued w + fuel)%nat /\
    n_sleep w' = (n_sleep w + fuel)%nat /\
    n_post w' = n_post w /\
    notify_calls (trace w') = notify_calls (trace w) /\
    last_notification w' = last_notification w.
Proof.
  intros Hnever Hsleep Hinterval Hafter Hat.
  unfold run, log, record, ret, catch_KeyboardInterrupt.
  rewrite Hafter, Hat. unfold bind.
  match goal with
  | |- context [run_loop E self fuel ?ls ?cc ?w1] =>
      destruct (run_loop_while_down E self Hnever Hsleep Hinterval Hafter Hat
                  fuel ls cc w1) as (w' & Heq & Hrest)
  end.
  exists w'. rewrite Heq. split; [reflexivity|]. exact Hrest.
Qed.

Lemma never_accepted_steady_503 :
  never_accepted (Ex.steady 503 "" 200) Ex.site.
Proof. intros k m. vm_compute. intros H. discriminate H. Qed.

Lemma run_keeps_watching_while_down_witness :
  exists w',
    run (Ex.steady 503 "" 200) (Ex.monitor 3 None None) 4 world0
    = OutOfFuel w' /\
    probes_issued w' = (probes_issued world0 + 4)%nat /\
    n_sleep w' = (n_sleep world0 + 4)%nat /\
    n_post w' = n_post world0 /\
    notify_calls (trace w') = notify_calls (trace world0) /\
    last_notification w' = last_notification world0.
Proof.
  apply (run_keeps_watching_while_down (Ex.steady 503 "" 200)
           (Ex.monitor 3 None None) 4 world0).
  - apply never_accepted_steady_503.
  - reflexivity.
  - cbn. lia.
  - reflexivity.
  - reflexivity.
Defined.

(** ** The monitor when the site is up *)

Lemma count_heads_telegram (t : list Event) :
  Forall telegram_event t -> count_heads t = O.
Proof.
  induction 1 as [|e t He _ IH]; [reflexivity|].
  destruct e as [[]| | | |]; cbn in *; auto; contradiction.
Qed.

Lemma notify_returns (E : Env) (self : TelegramHandler) (message : string)
    (tries : Z) (w : World) :
  posts_complete E ->
  exists b w',
    notify E self message tries w = Ret b w' /\
    probes_issued w' = probes_issued w.
Proof.
  intros Hposts.
  destruct (notify_trace E self message tries w) as (new & Ht & HP & _ & _).
  assert (Hret : exists b w', notify E self message tries w = Ret b w').
  { unfold notify. unfold bind at 1. unfold record.
    destruct (is_configured self); cbn [negb].
    - destruct (notify_messages_spec E self Hposts
                  (Z.to_nat (spam_count self)) 0 tries message false
                  (emit (EvNotify message) w)) as (b & w' & Heq & _).
      now exists b, w'.
    - now eexists _, _. }
  destruct Hret as (b & w' & Heq). exists b, w'. split; [exact Heq|].
  rewrite Heq in Ht. cbn [world_of] in Ht. unfold probes_issued.
  rewrite Ht, count_heads_app, (count_heads_telegram _ HP). reflexivity.
Qed.

Section WhileUp.
Variable E : Env.
Variable ck : SiteChecker.
Hypothesis Hup : steadily_up E ck.
Hypothesis Hrun : uninterrupted E.

Lemma check_once_steadily_up (w : World) :
  exists info code w',
    check_once E ck w = Ret (true, info, code) w' /\
    probes_issued w' = S (probes_issued w) /\
    last_notification w' = last_notification w.
Proof.
  destruct (Hup (n_http w)) as (info & code & w0 & H0).
  pose proof (local_check_once E ck w (at_request (n_http w)) eq_refl) as Hl.
  pose proof (check_once_one_head E ck w) as Hh.
  destruct (quiet_check_once E ck w) as (new & _ & _ & Hlast).
  rewrite H0 in Hl.
  destruct (check_once E ck w) as [res w'| |]; cbn in Hl; try contradiction.
  destruct Hl as [-> _]. now exists info, code, w'.
Qed.

Lemma probes_steadily_up (n : nat) :
  forall k, map up (probes E ck n k) = List.repeat true n.
Proof.
  induction n as [|n IH]; intros k; [reflexivity|].
  cbn [probes]. destruct (Hup k) as (info & code & w' & ->).
  cbn [map List.repeat up fst]. now rewrite IH.
Qed.

Lemma check_with_confirmation_steadily_up (tries delay : Z) (w : World) :
  0 <= delay ->
  exists info w',
    check_with_confirmation E ck tries delay w = Ret (true, info) w' /\
    probes_issued w' = (probes_issued w + Z.to_nat tries)%nat /\
    last_notification w' = last_notification w.
Proof.
  intros Hdelay.
  destruct (quiet_check_with_confirmation E ck tries delay w)
    as (new & _ & _ & Hlast).
  unfold check_with_confirmation in *.
  destruct (confirm_loop_spec E ck tries delay (tries * 2) Hrun Hdelay
              (Z.to_nat (tries * 2)) 0 0 "" w)
    as (n & w' & Heq & Hn & Hmin & Hend & Hcount).
  { rewrite Z.sub_0_r. lia. }
  cbn zeta in *. rewrite Z.sub_0_r in *.
  rewrite probes_steadily_up in *.
  rewrite counter_from_all_up in *.
  assert (Hn' : n = Z.to_nat tries).
  { destruct n as [|n]; [lia|].
    specialize (Hmin n ltac:(lia)).
    rewrite firstn_repeat_le, counter_from_all_up in Hmin by lia. lia. }
  rewrite Heq in Hlast. cbn [world_of] in Hlast.
  eexists _, w'. split.
  - rewrite Heq. f_equal. f_equal. lia.
  - split; [lia|exact Hlast].
Qed.

End WhileUp.

Section NotifyWhenUp.
Variable E : Env.
Variable self : SiteMonitor.
Hypothesis Hup : steadily_up E (checker self).
Hypothesis Hrun : uninterrupted E.
Hypothesis Hposts : posts_complete E.
Hypothesis Hdelay : 0 <= retry_delay self.

Lemma run_loop_steadily_up (fuel : nat) (last_state : option string)
    (check_count : Z) (w : World) :
  stop_due self (now_at E (n_now w)) = false ->
  last_notification w = None ->
  exists t w',
    run_loop E self (S fuel) last_state check_count w = Ret 0 w' /\
    probes_issued w'
    = (probes_issued w + 1 + Z.to_nat (retries self))%nat /\
    last_notification w' = Some t.
Proof.
  intros Hdue Hnone. cbn [run_loop].
  destruct (should_stop_value E self w) as (reason & Hstop).
  fold (stop_due self (now_at E (n_now w))) in Hstop. rewrite Hdue in Hstop.
  rewrite (bind_Ret _ _ _ _ _ Hstop).
  destruct (check_once_steadily_up E (checker self) Hup (after_now w))
    as (info & code & w1 & Hprobe & Hp1 & Hl1).
  rewrite (bind_Ret _ _ _ _ _ Hprobe).
  assert (Hstate : exists ls w2,
            (if negb (bool_decide (Some "UP" = last_state))
             then do log INFO (LogStateChanged "UP" info) then ret (Some "UP")
             else do log DEBUG (LogCheck (check_count + 1) "UP" info)
                  then ret last_state) w1 = Ret ls w2 /\
            probes_issued w2 = probes_issued w1 /\
            last_notification w2 = last_notification w1).
  { destruct (negb (bool_decide (Some "UP" = last_state)));
      eexists _, _; (split; [reflexivity|]); split; reflexivity. }
  destruct Hstate as (ls & w2 & Hstate & Hp2 & Hl2).
  rewrite (bind_Ret _ _ _ _ _ Hstate).
  rewrite (bind_Ret (log INFO LogConfirming) _ w2
             (emit (EvLog INFO LogConfirming) w2) tt eq_refl).
  destruct (check_with_confirmation_steadily_up E (checker self) Hup Hrun
              (retries self) (retry_delay self)
              (emit (EvLog INFO LogConfirming) w2) Hdelay)
    as (cinfo & w3 & Hconfirm & Hp3 & Hl3).
  rewrite (bind_Ret _ _ _ _ _ Hconfirm).
  unfold on_confirmed.
  rewrite (bind_Ret (datetime_now E) _ w3 (after_now w3)
             (now_at E (n_now w3)) eq_refl).
  rewrite (bind_Ret get_last_notification _ (after_now w3) (after_now w3)
             (last_notification w3) eq_refl).
  assert (Hl : last_notification w3 = None).
  { rewrite Hl3. cbn [last_notification emit]. rewrite Hl2, Hl1. exact Hnone. }
  rewrite Hl. cbn [cooldown_elapsed].
  destruct (notify_returns E (telegram self) (reachable_message self cinfo) 3
              (after_now w3) Hposts) as (b & w4 & Hnotify & Hp4).
  rewrite (bind_Ret _ _ _ _ _ Hnotify).
  eexists _, _. split; [reflexivity|]. split; [|reflexivity].
  change (probes_issued (with_last_notification ?v w4))
    with (probes_issued w4).
  rewrite Hp4. change (probes_issued (after_now w3)) with (probes_issued w3).
  rewrite Hp3.
  change (probes_issued (emit (EvLog INFO LogConfirming) w2))
    with (probes_issued w2).
  rewrite Hp2, Hp1. change (probes_issued (after_now w)) with (probes_issued w).
  lia.
Qed.

End NotifyWhenUp.

(** X21. When the site is up the monitor notifies in its first iteration:
    if every probe finds the site up, no call is interrupted, no stop
    condition is due and nothing was notified before, the run returns 0
    after [1 + max(retries, 0)] probes (the check and its confirmations),
    having entered [notify] once and set [last_notification]. *)
Theorem run_notifies_when_up (E : Env) (self : SiteMonitor) (fuel : nat)
    (w : World) :
  steadily_up E (checker self) ->
  uninterrupted E ->
  posts_complete E ->
  0 <= retry_delay self ->
  stop_due self (now_at E (n_now w)) = false ->
  last_notification w = None ->
  exists t w',
    run E self (S fuel) w = Ret 0 w' /\
    probes_issued w' = (probes_issued w + 1 + Z.to_nat (retries self))%nat /\
    last_notification w' = Some t /\
    notify_calls (trace w') = S (notify_calls (trace w)).
Proof.
  intros Hup Hrun Hposts Hdelay Hdue Hnone.
  assert (Hret : exists t w',
            run E self (S fuel) w = Ret 0 w' /\
            probes_issued w'
            = (probes_issued w + 1 + Z.to_nat (retries self))%nat /\
            last_notification w' = Some t).
  { unfold run, bind, log, record, ret, catch_KeyboardInterrupt.
    destruct (stop_at_time self), (stop_after_minutes self);
      match goal with
      | |- context [run_loop E self (S fuel) ?ls ?cc ?w1] =>
          destruct (run_loop_steadily_up E self Hup Hrun Hposts Hdelay fuel
                      ls cc w1 Hdue Hnone) as (t & w' & Heq & Hp & Hl);
          rewrite Heq
      end;
      exists t, w'; (split; [reflexivity|]); split; assumption. }
  destruct Hret as (t & w' & Heq & Hp & Hl).
  exists t, w'. repeat split; try assumption.
  destruct (run_post_run E self (S fuel) w Hnone)
    as (new & Ht & _ & _ & _ & _ & Hone).
  rewrite Heq in Ht, Hone. cbn [world_of] in Ht.
  rewrite Ht, notify_calls_app, (Hone w' eq_refl). reflexivity.
Qed.

Lemma steadily_up_steady_302 (status : Z) :
  steadily_up (Ex.steady 302 "" status) Ex.site.
Proof. intros k. eexists _, _, _. vm_compute. reflexivity. Qed.

Lemma run_notifies_when_up_witness :
  exists t w',
    run (Ex.steady 302 "" 200) (Ex.monitor 3 None None) 1 world0 = Ret 0 w' /\
    probes_issued w'
    = (probes_issued world0 + 1
       + Z.to_nat (retries (Ex.monitor 3 None None)))%nat /\
    last_notification w' = Some t /\
    notify_calls (trace w') = S (notify_calls (trace world0)).
Proof.
  apply (run_notifies_when_up (Ex.steady 302 "" 200) (Ex.monitor 3 None None)
           0 world0).
  - apply steadily_up_steady_302.
  - split; [reflexivity | intros k m; discriminate].
  - split; [reflexivity | intros k; discriminate].
  - cbn. lia.
  - reflexivity.
  - reflexivity.
Defined.

(** ** The command line *)




(** X24. Without Telegram credentials [main] refuses to send the test
    message and to start the monitor: when [TG_BOT_TOKEN] or [TG_CHAT_ID] is
    unset or empty and the arguments ask for [--test-telegram] or for the
    monitor (no [--test]), it returns 1 and does nothing else. *)
Theorem main_needs_credentials (E : Env) (environ : gmap string string)
    (args : Args) (fuel : nat) (w : World) (codes : gset Z) :
  parse_ok_codes (args_ok_codes args) = Some codes ->
  args_test_telegram args = true \/ args_test args = false ->
  truthy (environ !! "TG_BOT_TOKEN") = false \/
  truthy (environ !! "TG_CHAT_ID") = false ->
  exists logs, main E environ args fuel w = Ret (1, logs) w.
Proof.
  intros Hcodes Hmode Hcred. unfold main. rewrite Hcodes.
  assert (Hconf : is_configured
                    (TelegramHandler_init (environ !! "TG_BOT_TOKEN")
                       (environ !! "TG_CHAT_ID") (args_spam args)) = false).
  { unfold is_configured. cbn [token chat_id TelegramHandler_init].
    destruct Hcred as [-> | ->]; [reflexivity|apply andb_false_r]. }
  rewrite Hconf. cbn [negb].
  destruct (args_test_telegram args); [now eexists|].
  destruct Hmode as [Hmode | ->]; [discriminate|]. now eexists.
Qed.

Lemma main_needs_credentials_witness :
  exists logs,
    main (Ex.steady 302 "" 200) ∅ (Ex.args_of "200,302" false false) 5 world0
    = Ret (1, logs) world0.
Proof.
  apply (main_needs_credentials (Ex.steady 302 "" 200) ∅
           (Ex.args_of "200,302" false false) 5 world0 {[200; 302]}).
  - vm_compute. reflexivity.
  - right. reflexivity.
  - left. reflexivity.
Defined.

Lemma notify_outcome (E : Env) (self : TelegramHandler) (message : string)
    (tries : Z) (w : World) :
  posts_complete E ->
  exists b w',
    notify E self message tries w = Ret b w' /\
    (b = true <->
     exists k, (n_post w <= k < n_post w')%nat /\ accepted_post E k) /\
    probes_issued w' = probes_issued w.
Proof.
  intros Hposts.
  destruct (notify_returns E self message tries w Hposts)
    as (b & w' & Heq & Hp).
  exists b, w'. split; [exact Heq|]. split; [|exact Hp].
  revert Heq. unfold notify. unfold bind at 1. unfold record.
  destruct (is_configured self); cbn [negb].
  - destruct (notify_messages_spec E self Hposts
                (Z.to_nat (spam_count self)) 0 tries message false
                (emit (EvNotify message) w))
      as (b1 & w1 & Heq1 & _ & Hb).
    rewrite Heq1. intros [= <- <-]. rewrite Hb. cbn [n_post emit].
    split; [intros [H|H]; [discriminate|exact H]|now right].
  - cbn. intros [= <- <-]. cbn.
    split; [discriminate|]. intros (k & Hk & _). lia.
Qed.

(** X25. [--test-telegram] reports the delivery in the exit code: with
    credentials and no interrupt, [main] returns 0 when Telegram accepted
    one of the posts and 1 otherwise, and does not probe the site. *)
Theorem main_test_telegram (E : Env) (environ : gmap string string)
    (args : Args) (fuel : nat) (w : World) (codes : gset Z) :
  parse_ok_codes (args_ok_codes args) = Some codes ->
  args_test_telegram args = true ->
  truthy (environ !! "TG_BOT_TOKEN") = true ->
  truthy (environ !! "TG_CHAT_ID") = true ->
  posts_complete E ->
  exists c logs w',
    main E environ args fuel w = Ret (c, logs) w' /\
    (c = 0 \/ c = 1) /\
    (c = 0 <->
     exists k, (n_post w <= k < n_post w')%nat /\ accepted_post E k) /\
    probes_issued w' = probes_issued w.
Proof.
  intros Hcodes Hmode Htok Hchat Hposts. unfold main.
  rewrite Hcodes, Hmode. unfold is_configured.
  cbn [token chat_id TelegramHandler_init]. rewrite Htok, Hchat.
  cbn [andb negb].
  lazymatch goal with
  | |- context [notify E ?tg ?msg ?n] =>
      destruct (notify_outcome E tg msg n w Hposts)
        as (b & w' & Heq & Hb & Hp)
  end.
  rewrite (bind_Ret _ _ _ _ _ Heq).
  destruct b; eexists _, _, w'; (split; [reflexivity|]);
    (split; [auto|]); (split; [|exact Hp]); rewrite <- Hb;
    split; auto; discriminate.
Qed.

Lemma main_test_telegram_witness :
  exists c logs w',
    main (Ex.telegram_accepts_only 2) Ex.credentials
      (Ex.args_of "200,302" false true) 5 world0 = Ret (c, logs) w' /\
    (c = 0 \/ c = 1) /\
    (c = 0 <->
     exists k, (n_post world0 <= k < n_post w')%nat /\
               accepted_post (Ex.telegram_accepts_only 2) k) /\
    probes_issued w' = probes_issued world0.
Proof.
  apply (main_test_telegram (Ex.telegram_accepts_only 2) Ex.credentials
           (Ex.args_of "200,302" false true) 5 world0 {[200; 302]}).
  - vm_compute. reflexivity.
  - reflexivity.
  - reflexivity.
  - reflexivity.
  - split; [reflexivity | intros k; discriminate].
Defined.

(** X26. [--test] probes the site once and needs no Telegram credentials:
    [main] returns 0 when the probe says UP and 1 when it says DOWN, after
    one probe, without reading the clock and without notifying. *)
Theorem main_test_mode (E : Env) (environ : gmap string string) (args : Args)
    (fuel : nat) (w : World) (codes : gset Z) :
  parse_ok_codes (args_ok_codes args) = Some codes ->
  args_test_telegram args = false ->
  args_test args = true ->
  (forall k m, http_at E k m <> HttpInterrupted) ->
  exists ok info code logs w',
    check_once E
      {| url := args_url args; ok_codes := codes;
         check_content := negb (args_no_content_check args) |} w
    = Ret (ok, info, code) w' /\
    main E environ args fuel w = Ret (if ok : bool then 0 else 1, logs) w' /\
    probes_issued w' = S (probes_issued w) /\
    n_now w' = n_now w /\
    n_post w' = n_post w /\
    notify_calls (trace w') = notify_calls (trace w).
Proof.
  intros Hcodes Htg Htest Hhttp. unfold main. rewrite Hcodes, Htg, Htest.
  set (ck := {| url := args_url args; ok_codes := codes;
                check_content := negb (args_no_content_check args) |}).
  destruct (check_once_returns E ck Hhttp w) as ([[ok info] code] & w' & Hc).
  pose proof (check_once_world E ck w) as Hw.
  rewrite Hc in Hw. cbn [world_of] in Hw.
  rewrite (bind_Ret _ _ _ _ _ Hc).
  exists ok, info, code.
  destruct ok; eexists _, w'; (split; [exact Hc|]);
    (split; [reflexivity|]);
    destruct Hw as [-> | ->]; unfold probes_issued; cbn; auto.
Qed.

Lemma main_test_mode_witness :
  exists ok info code logs w',
    check_once (Ex.steady 503 "" 200)
      {| url := args_url (Ex.args_of "200,302" true false);
         ok_codes := {[200; 302]};
         check_content :=
           negb (args_no_content_check (Ex.args_of "200,302" true false)) |}
      world0
    = Ret (ok, info, code) w' /\
    main (Ex.steady 503 "" 200) ∅ (Ex.args_of "200,302" true false) 5 world0
    = Ret (if ok : bool then 0 else 1, logs) w' /\
    probes_issued w' = S (probes_issued world0) /\
    n_now w' = n_now world0 /\
    n_post w' = n_post world0 /\
    notify_calls (trace w') = notify_calls (trace world0).
Proof.
  apply (main_test_mode (Ex.steady 503 "" 200) ∅
           (Ex.args_of "200,302" true false) 5 world0 {[200; 302]}).
  - vm_compute. reflexivity.
  - reflexivity.
  - reflexivity.
  - intros k m. discriminate.
Defined.

(** ** The web service *)

(** X27. [run_monitor] does not start the monitor without credentials:
    when the settings are integers and [TG_BOT_TOKEN] or [TG_CHAT_ID] is
    unset, empty or white space only, it logs the error and returns without
    reading the clock, probing the site or posting. *)
Theorem run_monitor_needs_credentials (E : Env)
    (environ : gmap string string) (fuel : nat) (w : World)
    (every tries pause spam : Z) :
  PyInt.int (getenv environ "INTERVAL" "45") = Some every ->
  PyInt.int (getenv environ "RETRIES" "1") = Some tries ->
  PyInt.int (getenv environ "COOLDOWN" "600") = Some pause ->
  PyInt.int (getenv environ "SPAM" "3") = Some spam ->
  Str.strip (default "" (environ !! "TG_BOT_TOKEN")) = "" \/
  Str.strip (default "" (environ !! "TG_CHAT_ID")) = "" ->
  run_monitor E environ fuel w = Ret [(ERROR, LogAppNotConfigured)] w.
Proof.
  intros Hevery Htries Hpause Hspam Hblank.
  unfold run_monitor, getenv_int. rewrite Hevery, Htries, Hpause, Hspam.
  unfold bind at 1 2 3 4. unfold ret at 1 2 3 4.
  unfold is_configured. cbn [token chat_id TelegramHandler_init].
  destruct Hblank as [-> | ->]; cbn [truthy andb negb]; [reflexivity|].
  rewrite andb_false_r. reflexivity.
Qed.

Lemma run_monitor_needs_credentials_witness :
  run_monitor (Ex.steady 302 "" 200) Ex.blank_credentials 5 world0
  = Ret [(ERROR, LogAppNotConfigured)] world0.
Proof.
  apply (run_monitor_needs_credentials (Ex.steady 302 "" 200)
           Ex.blank_credentials 5 world0 45 1 600 3).
  - vm_compute. reflexivity.
  - vm_compute. reflexivity.
  - vm_compute. reflexivity.
  - vm_compute. reflexivity.
  - left. vm_compute. reflexivity.
Defined.


